(** * robot_remote_control: the rosbridge session of [App.js]

    A shallow embedding of the protocol logic of [src/App.js]: the
    configuration table [ROS_CONFIG], the helpers [generateUniqueID] and
    [quaternionToYaw], and the closures of the [App] component that drive
    the WebSocket ([connectToRosbridge], its four event handlers,
    [disconnectFromRosbridge], [subscribeToTopic], [unsubscribeFromTopic],
    [subscribeToTopics], [publishMessage], [sendTwistCommand],
    [handleEmergencyStop], [sendPredefinedCommand]).

    JavaScript values are an inductive type, numbers are binary64 floats,
    React state and the [ws] ref are one record threaded through a small
    state-and-exception monad, and the sockets the component has created
    live in a store indexed by reference. A text frame is identified
    with the JSON value it denotes. The builtins the source only calls
    ([Number::toString], [Math.atan2], [Date.now], [Math.random], the
    [WebSocket] constructor) are the fields of the class [Platform];
    every property below holds for every platform.

    The [console] calls print and change nothing of the state; those
    whose argument is a template literal are kept, because building the
    text converts a value to a string, and that conversion can throw.
    Of the JSX only the battery cell is modelled; the style sheet is
    left out. *)

From Stdlib Require Import ZArith List String Ascii Bool Lia.
From Stdlib Require Import Floats DecimalString DecimalN Permutation.
Import ListNotations.

Local Open Scope string_scope.
Set Warnings "-register-all,-inexact-float".

(* ================================================================== *)
(** * JavaScript values *)
(* ================================================================== *)

(** The values that reach the component: what [JSON.parse] produces, the
    object literals the component builds, and [undefined]. Property order
    is kept (it is the order [JSON.stringify] writes). *)
Inductive JsVal : Type :=
| JUndefined
| JNull
| JBool (b : bool)
| JNum (n : float)
| JStr (s : string)
| JArr (elems : list JsVal)
| JObj (props : list (string * JsVal)).

(** Exceptions the modelled code can meet. *)
Inductive Exn : Type :=
| TypeError            (* property read on null/undefined, call of a non-function *)
| SyntaxError          (* JSON.parse on text that is not JSON *)
| InvalidStateError    (* WebSocket.send while CONNECTING *)
| CtorError (message : string).  (* thrown by [new WebSocket(url)] *)

Inductive Completion (A : Type) : Type :=
| Normal (a : A)
| Throw (e : Exn).
Arguments Normal {A} a.
Arguments Throw {A} e.

(** What the host platform supplies and the source only calls. *)
Class Platform : Type := {
  (** [Number::toString(x)], radix 10 *)
  NumberToString : float -> string;
  (** [Number.prototype.toString(36)] *)
  NumberToString36 : float -> string;
  (** [StringToNumber(s)], the numeric value of a string *)
  StringToNumber : string -> float;
  (** [Math.atan2] away from the cases ECMA-262 fixes exactly *)
  atan2_approx : float -> float -> float;
  (** the value of the k-th call of [Date.now()] / [Math.random()] *)
  Date_now : nat -> float;
  Math_random : nat -> float;
  (** [Some m]: [new WebSocket(url)] throws an error whose message is [m] *)
  WebSocket_ctor_error : string -> option string
}.

(** Sequencing of operations that may throw and touch no state. *)
Definition cbind {A B} (c : Completion A) (k : A -> Completion B) : Completion B :=
  match c with
  | Normal a => k a
  | Throw e => Throw e
  end.

Notation "x <~ c ;; k" := (cbind c (fun x => k))
  (at level 61, c at next level, right associativity).

(* ------------------------------------------------------------------ *)
(** ** Numbers *)

Definition is_pos_zero (x : float) : bool :=
  PrimFloat.is_zero x && negb (PrimFloat.get_sign x).

(** The integer [n] for which [n / 10^fd - m * 2^e] is closest to zero,
    the larger one on a tie (Number.prototype.toFixed, step 10.a). *)
Definition toFixed_nearest (m : positive) (e : Z) (fd : nat) : Z :=
  let p := (10 ^ Z.of_nat fd)%Z in
  if (0 <=? e)%Z then (Z.pos m * 2 ^ e * p)%Z
  else let den := (2 ^ (- e))%Z in
       ((2 * (Z.pos m * p) + den) / (2 * den))%Z.

Fixpoint zeros (k : nat) : string :=
  match k with
  | O => ""
  | S k' => String "0" (zeros k')
  end.

Definition decimal_digits (n : Z) : string :=
  NilZero.string_of_uint (N.to_uint (Z.to_N n)).

(** Steps 10.b-10.c: place the decimal point [fd] digits from the right. *)
Definition place_point (digits : string) (fd : nat) : string :=
  match fd with
  | O => digits
  | _ =>
      let k := String.length digits in
      let padded := if (k <=? fd)%nat then zeros (fd + 1 - k) ++ digits else digits in
      let k' := String.length padded in
      substring 0 (k' - fd) padded ++ "." ++ substring (k' - fd) fd padded
  end.

Definition ten21 : float := 1e21%float.

(** [x.toFixed(fd)] for a Number [x] and [0 <= fd <= 100]. *)
Definition toFixed `{Platform} (x : float) (fd : nat) : string :=
  match Prim2SF x with
  | S754_nan => "NaN"
  | S754_infinity false => "Infinity"
  | S754_infinity true => "-Infinity"
  | S754_zero _ => place_point "0" fd
  | S754_finite s m e =>
      if PrimFloat.leb ten21 (PrimFloat.abs x) then NumberToString x
      else (if s then "-" else "") ++
           place_point (decimal_digits (toFixed_nearest m e fd)) fd
  end.

(** [Math.atan2(y, x)]: ECMA-262 fixes the result exactly when [y] is a
    zero and [x] is positive or [+0] (the result is [y]); elsewhere the
    result is implementation-approximated. *)
Definition Math_atan2 `{Platform} (y x : float) : float :=
  if PrimFloat.is_zero y && (PrimFloat.ltb 0 x || is_pos_zero x)
  then y
  else atan2_approx y x.

(* ------------------------------------------------------------------ *)
(** ** Coercions and operators *)

Definition join_with (sep : string) (parts : list string) : string :=
  match parts with
  | [] => ""
  | p :: ps => fold_left (fun acc q => acc ++ sep ++ q) ps p
  end.

(** The own property [k] of an object: the last binding wins, as
    [JSON.parse] resolves duplicate keys. *)
Fixpoint own_property (props : list (string * JsVal)) (k : string) : option JsVal :=
  match props with
  | [] => None
  | (k', v) :: rest =>
      match own_property rest k with
      | Some v' => Some v'
      | None => if String.eqb k' k then Some v else None
      end
  end.

(** [ToString], as a template literal applies it. An object is
    converted by [OrdinaryToPrimitive]: its [toString] is called if it
    is callable, then its [valueOf]. No value of [JsVal] is callable, so
    an own property [toString] hides [Object.prototype.toString], the
    inherited [valueOf] returns the object itself, and the conversion
    ends in a [TypeError]; without that own property the text is
    ['[object Object]']. An array is converted by [join], which converts
    its elements from left to right and writes [null] and [undefined]
    as the empty string. *)
Fixpoint ToString `{Platform} (v : JsVal) : Completion string :=
  match v with
  | JUndefined => Normal "undefined"
  | JNull => Normal "null"
  | JBool true => Normal "true"
  | JBool false => Normal "false"
  | JNum n => Normal (NumberToString n)
  | JStr s => Normal s
  | JArr elems =>
      parts <~ (fix each (es : list JsVal) : Completion (list string) :=
                  match es with
                  | [] => Normal []
                  | e :: rest =>
                      part <~ match e with
                              | JUndefined | JNull => Normal ""
                              | _ => ToString e
                              end ;;
                      parts <~ each rest ;;
                      Normal (part :: parts)
                  end) elems ;;
      Normal (join_with "," parts)
  | JObj props =>
      match own_property props "toString" with
      | Some _ => Throw TypeError
      | None => Normal "[object Object]"
      end
  end.

(** [ToNumber], as [*] applies it to its operands. An object or array
    is first converted to a primitive: the inherited [valueOf] returns
    the object itself, so the primitive is the string of [ToString], or
    its [TypeError]. *)
Definition ToNumber `{Platform} (v : JsVal) : Completion float :=
  match v with
  | JUndefined => Normal PrimFloat.nan
  | JNull => Normal 0%float
  | JBool true => Normal 1%float
  | JBool false => Normal 0%float
  | JNum n => Normal n
  | JStr s => Normal (StringToNumber s)
  | JArr _ | JObj _ => s <~ ToString v ;; Normal (StringToNumber s)
  end.

(** [ToBoolean], as [&&], [||] and [!] apply it. *)
Definition ToBoolean (v : JsVal) : bool :=
  match v with
  | JUndefined | JNull => false
  | JBool b => b
  | JNum n => negb (PrimFloat.is_zero n || PrimFloat.is_nan n)
  | JStr s => negb (String.eqb s "")
  | JArr _ | JObj _ => true
  end.

(** [a || b] *)
Definition js_or (a b : JsVal) : JsVal := if ToBoolean a then a else b.

(** [a === b] where one side is a primitive, as everywhere in the
    source; two objects are never the same reference there. *)
Definition strict_eq (a b : JsVal) : bool :=
  match a, b with
  | JUndefined, JUndefined => true
  | JNull, JNull => true
  | JBool x, JBool y => Bool.eqb x y
  | JNum x, JNum y => PrimFloat.eqb x y
  | JStr x, JStr y => String.eqb x y
  | _, _ => false
  end.

(** [v.k] for the property names the source reads ([op], [topic], [msg],
    [percentage], [pose], [position], [orientation], [x], [y], [z], [w],
    [data], [level], [id], [message], [code], [reason]): none of them is
    inherited from a prototype, so a primitive or an array has it
    [undefined]. *)
Definition get (v : JsVal) (k : string) : Completion JsVal :=
  match v with
  | JUndefined | JNull => Throw TypeError
  | JObj props =>
      match own_property props k with
      | Some x => Normal x
      | None => Normal JUndefined
      end
  | _ => Normal JUndefined
  end.

(** [v.toFixed(fd)]: only a Number has the method. *)
Definition call_toFixed `{Platform} (v : JsVal) (fd : nat) : Completion JsVal :=
  match v with
  | JNum n => Normal (JStr (toFixed n fd))
  | _ => Throw TypeError
  end.

(** [a * b]: both operands are converted to numbers, the left one
    first. *)
Definition js_mul `{Platform} (a b : JsVal) : Completion float :=
  x <~ ToNumber a ;;
  y <~ ToNumber b ;;
  Normal (PrimFloat.mul x y).

(** [a + b] and [a - b] on numbers. *)

Definition js_add (a b : float) : float := PrimFloat.add a b.
Definition js_sub (a b : float) : float := PrimFloat.sub a b.

(* ------------------------------------------------------------------ *)
(** ** JSON text *)

(** A text frame is identified with the JSON value it denotes, or it is
    text that denotes none. *)
Inductive Text : Type :=
| Json (v : JsVal)
| NotJson (raw : string).

(** The value denoted by the text [JSON.stringify(v)] writes: properties
    whose value is [undefined] are left out, an [undefined] array element
    and a non-finite number are written [null], and [-0] is written [0]. *)
Fixpoint json_of (v : JsVal) : JsVal :=
  match v with
  | JNum n =>
      if PrimFloat.is_finite n
      then (if PrimFloat.is_zero n then JNum 0 else JNum n)
      else JNull
  | JArr elems =>
      JArr (map (fun e => match e with
                          | JUndefined => JNull
                          | _ => json_of e
                          end) elems)
  | JObj props =>
      JObj ((fix go (ps : list (string * JsVal)) : list (string * JsVal) :=
               match ps with
               | [] => []
               | (k, JUndefined) :: rest => go rest
               | (k, x) :: rest => (k, json_of x) :: go rest
               end) props)
  | _ => v
  end.

(** [JSON.stringify(v)]; for [undefined] it returns [undefined], which
    [send] would transmit as the text [undefined]. *)
Definition JSON_stringify (v : JsVal) : Text :=
  match v with
  | JUndefined => NotJson "undefined"
  | _ => Json (json_of v)
  end.

(** [JSON.parse(text)] *)
Definition JSON_parse (data : Text) : Completion JsVal :=
  match data with
  | Json v => Normal v
  | NotJson _ => Throw SyntaxError
  end.

(* ================================================================== *)
(** * Configuration *)
(* ================================================================== *)

(** [ROS_CONFIG.topics]: a key that is commented out reads [undefined]. *)
Record Topics : Type := {
  cmdVel : JsVal;
  batteryStatus : JsVal;
  topic_odometry : JsVal;
  robotStatus : JsVal
}.

Record MessageTypes : Type := {
  twist : JsVal;
  batteryState : JsVal;
  type_odometry : JsVal;
  stringMsg : JsVal
}.

Record JoystickSensitivity : Type := {
  linear : float;
  angular : float
}.

Record RosConfig : Type := {
  topics : Topics;
  messageTypes : MessageTypes;
  joystickSensitivity : JoystickSensitivity
}.

(** The table as the source has it: both [odometry] entries are
    commented out. *)
Definition ROS_CONFIG : RosConfig := {|
  topics := {|
    cmdVel := JStr "/cmd_vel";
    batteryStatus := JStr "/battery_status";
    topic_odometry := JUndefined;
    robotStatus := JStr "/robot_status_app" |};
  messageTypes := {|
    twist := JStr "geometry_msgs/Twist";
    batteryState := JStr "sensor_msgs/BatteryState";
    type_odometry := JUndefined;
    stringMsg := JStr "std_msgs/String" |};
  joystickSensitivity := {| linear := 0.2; angular := 0.5 |}
|}.


(* ================================================================== *)
(** * Helper functions *)
(* ================================================================== *)

(** [quaternionToYaw(q)] *)
Definition quaternionToYaw `{Platform} (q : JsVal) : Completion JsVal :=
  if negb (ToBoolean q) then Normal (JNum 0)
  else
    w <~ get q "w" ;;
    if strict_eq w JUndefined then Normal (JNum 0) else
    x <~ get q "x" ;;
    if strict_eq x JUndefined then Normal (JNum 0) else
    y <~ get q "y" ;;
    if strict_eq y JUndefined then Normal (JNum 0) else
    z <~ get q "z" ;;
    if strict_eq z JUndefined then Normal (JNum 0) else
    wz <~ js_mul w z ;;
    xy <~ js_mul x y ;;
    let siny_cosp := PrimFloat.mul 2 (js_add wz xy) in
    yy <~ js_mul y y ;;
    zz <~ js_mul z z ;;
    let cosy_cosp := js_sub 1 (PrimFloat.mul 2 (js_add yy zz)) in
    Normal (JNum (Math_atan2 siny_cosp cosy_cosp)).

(* ================================================================== *)
(** * Sockets *)
(* ================================================================== *)

Inductive ReadyState : Type := CONNECTING | OPEN | CLOSING | CLOSED.

Definition ReadyState_eqb (a b : ReadyState) : bool :=
  match a, b with
  | CONNECTING, CONNECTING | OPEN, OPEN | CLOSING, CLOSING | CLOSED, CLOSED => true
  | _, _ => false
  end.

(** A socket the component created: its endpoint, its [readyState] and
    the text frames handed to its [send] while it was open, oldest
    first. *)
Record WebSocket : Type := {
  url : string;
  readyState : ReadyState;
  sent : list Text
}.

(** [socket.close()]: a connecting or open socket starts closing; a
    closing or closed one is left alone. *)
Definition socket_close (s : WebSocket) : WebSocket :=
  match readyState s with
  | CONNECTING | OPEN => {| url := url s; readyState := CLOSING; sent := sent s |}
  | CLOSING | CLOSED => s
  end.

Definition socket_with_readyState (rs : ReadyState) (s : WebSocket) : WebSocket :=
  {| url := url s; readyState := rs; sent := sent s |}.

Definition socket_push (data : Text) (s : WebSocket) : WebSocket :=
  {| url := url s; readyState := readyState s; sent := sent s ++ [data] |}.

(** Update of the socket behind reference [r]. *)
Fixpoint update_socket (r : nat) (f : WebSocket -> WebSocket)
         (store : list WebSocket) : list WebSocket :=
  match store, r with
  | [], _ => []
  | s :: rest, O => f s :: rest
  | s :: rest, S r' => s :: update_socket r' f rest
  end.

(* ================================================================== *)
(** * Component state *)
(* ================================================================== *)

(** The [useState] cells of [App], the [ws] ref, the sockets created so
    far (a reference is an index into [sockets]), the number of ids
    generated, and the alerts shown. *)
Record App : Type := {
  rosbridgeUrl : string;
  isConnected : bool;
  connectionStatus : string;
  lastError : JsVal;
  batteryPercentage : JsVal;
  odometry : JsVal;
  robotStatusText : JsVal;
  ws_current : option nat;
  sockets : list WebSocket;
  ids_generated : nat;
  alerts : list (string * string)
}.

Definition zero_pose : JsVal :=
  JObj [("x", JNum 0); ("y", JNum 0); ("theta", JNum 0)].

(** The state of the first render. *)
Definition initial_App : App := {|
  rosbridgeUrl := "ws://192.168.1.100:9090";
  isConnected := false;
  connectionStatus := "Disconnected";
  lastError := JNull;
  batteryPercentage := JNull;
  odometry := zero_pose;
  robotStatusText := JStr "N/A";
  ws_current := None;
  sockets := [];
  ids_generated := 0;
  alerts := []
|}.

(** Computations of the component: they read and write the state and
    may throw; what was written before a throw stays written. *)
Definition M (A : Type) : Type := App -> Completion A * App.

Definition ret {A} (a : A) : M A := fun st => (Normal a, st).

Definition bind {A B} (c : M A) (k : A -> M B) : M B :=
  fun st =>
    match c st with
    | (Normal a, st') => k a st'
    | (Throw e, st') => (Throw e, st')
    end.

Definition lift {A} (c : Completion A) : M A := fun st => (c, st).

(** [try { body } catch (e) { handler }] *)
Definition try_catch {A} (body : M A) (handler : Exn -> M A) : M A :=
  fun st =>
    match body st with
    | (Normal a, st') => (Normal a, st')
    | (Throw e, st') => handler e st'
    end.

Definition gets {A} (f : App -> A) : M A := fun st => (Normal (f st), st).
Definition modify (f : App -> App) : M unit := fun st => (Normal tt, f st).

Notation "x <- c ;; k" := (bind c (fun x => k))
  (at level 61, c at next level, right associativity).
Notation "c ;;; k" := (bind c (fun _ => k))
  (at level 61, right associativity).

(** [console.log(text)], [console.error(text)]: the text is printed
    and the state stays as it is. *)
Definition console_log (text : string) : M unit := ret tt.
Definition console_error (text : string) : M unit := ret tt.

(* ------------------------------------------------------------------ *)
(** ** State setters *)

Definition with_rosbridgeUrl (v : string) (st : App) : App :=
  {| rosbridgeUrl := v; isConnected := isConnected st;
     connectionStatus := connectionStatus st; lastError := lastError st;
     batteryPercentage := batteryPercentage st; odometry := odometry st;
     robotStatusText := robotStatusText st; ws_current := ws_current st;
     sockets := sockets st; ids_generated := ids_generated st;
     alerts := alerts st |}.

Definition with_isConnected (v : bool) (st : App) : App :=
  {| rosbridgeUrl := rosbridgeUrl st; isConnected := v;
     connectionStatus := connectionStatus st; lastError := lastError st;
     batteryPercentage := batteryPercentage st; odometry := odometry st;
     robotStatusText := robotStatusText st; ws_current := ws_current st;
     sockets := sockets st; ids_generated := ids_generated st;
     alerts := alerts st |}.

Definition with_connectionStatus (v : string) (st : App) : App :=
  {| rosbridgeUrl := rosbridgeUrl st; isConnected := isConnected st;
     connectionStatus := v; lastError := lastError st;
     batteryPercentage := batteryPercentage st; odometry := odometry st;
     robotStatusText := robotStatusText st; ws_current := ws_current st;
     sockets := sockets st; ids_generated := ids_generated st;
     alerts := alerts st |}.

Definition with_lastError (v : JsVal) (st : App) : App :=
  {| rosbridgeUrl := rosbridgeUrl st; isConnected := isConnected st;
     connectionStatus := connectionStatus st; lastError := v;
     batteryPercentage := batteryPercentage st; odometry := odometry st;
     robotStatusText := robotStatusText st; ws_current := ws_current st;
     sockets := sockets st; ids_generated := ids_generated st;
     alerts := alerts st |}.

Definition with_batteryPercentage (v : JsVal) (st : App) : App :=
  {| rosbridgeUrl := rosbridgeUrl st; isConnected := isConnected st;
     connectionStatus := connectionStatus st; lastError := lastError st;
     batteryPercentage := v; odometry := odometry st;
     robotStatusText := robotStatusText st; ws_current := ws_current st;
     sockets := sockets st; ids_generated := ids_generated st;
     alerts := alerts st |}.

Definition with_odometry (v : JsVal) (st : App) : App :=
  {| rosbridgeUrl := rosbridgeUrl st; isConnected := isConnected st;
     connectionStatus := connectionStatus st; lastError := lastError st;
     batteryPercentage := batteryPercentage st; odometry := v;
     robotStatusText := robotStatusText st; ws_current := ws_current st;
     sockets := sockets st; ids_generated := ids_generated st;
     alerts := alerts st |}.

Definition with_robotStatusText (v : JsVal) (st : App) : App :=
  {| rosbridgeUrl := rosbridgeUrl st; isConnected := isConnected st;
     connectionStatus := connectionStatus st; lastError := lastError st;
     batteryPercentage := batteryPercentage st; odometry := odometry st;
     robotStatusText := v; ws_current := ws_current st;
     sockets := sockets st; ids_generated := ids_generated st;
     alerts := alerts st |}.

Definition with_ws_current (v : option nat) (st : App) : App :=
  {| rosbridgeUrl := rosbridgeUrl st; isConnected := isConnected st;
     connectionStatus := connectionStatus st; lastError := lastError st;
     batteryPercentage := batteryPercentage st; odometry := odometry st;
     robotStatusText := robotStatusText st; ws_current := v;
     sockets := sockets st; ids_generated := ids_generated st;
     alerts := alerts st |}.

Definition with_sockets (v : list WebSocket) (st : App) : App :=
  {| rosbridgeUrl := rosbridgeUrl st; isConnected := isConnected st;
     connectionStatus := connectionStatus st; lastError := lastError st;
     batteryPercentage := batteryPercentage st; odometry := odometry st;
     robotStatusText := robotStatusText st; ws_current := ws_current st;
     sockets := v; ids_generated := ids_generated st;
     alerts := alerts st |}.

Definition with_ids_generated (v : nat) (st : App) : App :=
  {| rosbridgeUrl := rosbridgeUrl st; isConnected := isConnected st;
     connectionStatus := connectionStatus st; lastError := lastError st;
     batteryPercentage := batteryPercentage st; odometry := odometry st;
     robotStatusText := robotStatusText st; ws_current := ws_current st;
     sockets := sockets st; ids_generated := v;
     alerts := alerts st |}.

Definition with_alerts (v : list (string * string)) (st : App) : App :=
  {| rosbridgeUrl := rosbridgeUrl st; isConnected := isConnected st;
     connectionStatus := connectionStatus st; lastError := lastError st;
     batteryPercentage := batteryPercentage st; odometry := odometry st;
     robotStatusText := robotStatusText st; ws_current := ws_current st;
     sockets := sockets st; ids_generated := ids_generated st;
     alerts := v |}.

Definition setRosbridgeUrl (v : string) : M unit := modify (with_rosbridgeUrl v).
Definition setIsConnected (v : bool) : M unit := modify (with_isConnected v).
Definition setConnectionStatus (v : string) : M unit := modify (with_connectionStatus v).
Definition setLastError (v : JsVal) : M unit := modify (with_lastError v).
Definition setBatteryPercentage (v : JsVal) : M unit := modify (with_batteryPercentage v).
Definition setOdometry (v : JsVal) : M unit := modify (with_odometry v).
Definition setRobotStatusText (v : JsVal) : M unit := modify (with_robotStatusText v).

(* ================================================================== *)
(** * The component's closures *)
(* ================================================================== *)

Section Session.

Context `{P : Platform}.
Variable cfg : RosConfig.

(** [generateUniqueID()]:
    [`op_${Date.now()}_${Math.random().toString(36).substring(2, 11)}`] *)
Definition generateUniqueID_at (k : nat) : string :=
  "op_" ++ NumberToString (Date_now k) ++ "_"
        ++ substring 2 9 (NumberToString36 (Math_random k)).

Definition generateUniqueID : M JsVal :=
  k <- gets ids_generated ;;
  modify (with_ids_generated (S k)) ;;;
  ret (JStr (generateUniqueID_at k)).

(** [ws.current && ws.current.readyState === WebSocket.OPEN] *)
Definition ws_open (st : App) : bool :=
  match ws_current st with
  | None => false
  | Some r =>
      match nth_error (sockets st) r with
      | Some s => ReadyState_eqb (readyState s) OPEN
      | None => false
      end
  end.

(** [ws.current.send(data)]: throws while the socket is connecting,
    transmits while it is open, and drops the data once it is closing or
    closed. *)
Definition ws_current_send (data : Text) : M unit :=
  fun st =>
    match ws_current st with
    | None => (Throw TypeError, st)
    | Some r =>
        match nth_error (sockets st) r with
        | Some s =>
            match readyState s with
            | CONNECTING => (Throw InvalidStateError, st)
            | OPEN =>
                (Normal tt,
                 with_sockets (update_socket r (socket_push data) (sockets st)) st)
            | CLOSING | CLOSED => (Normal tt, st)
            end
        | None => (Throw TypeError, st)
        end
    end.

(** A parameter with a default value: [throttleRate = 200]. *)
Definition default_arg (v d : JsVal) : JsVal :=
  match v with
  | JUndefined => d
  | _ => v
  end.

Definition subscribeMsg (id topicName messageType throttleRate : JsVal) : JsVal :=
  JObj [("op", JStr "subscribe"); ("id", id); ("topic", topicName);
        ("type", messageType); ("throttle_rate", throttleRate)].

(** [subscribeToTopic(topicName, messageType, throttleRate = 200)] *)
Definition subscribeToTopic (topicName messageType throttleRate : JsVal) : M unit :=
  let throttleRate := default_arg throttleRate (JNum 200) in
  open <- gets ws_open ;;
  if open then
    id <- generateUniqueID ;;
    ws_current_send (JSON_stringify (subscribeMsg id topicName messageType throttleRate)) ;;;
    topic_text <- lift (ToString topicName) ;;
    console_log ("Subscribed to " ++ topic_text)
  else ret tt.

Definition unsubscribeMsg (id topicName : JsVal) : JsVal :=
  JObj [("op", JStr "unsubscribe"); ("id", id); ("topic", topicName)].

(** [unsubscribeFromTopic(topicName)] *)
Definition unsubscribeFromTopic (topicName : JsVal) : M unit :=
  open <- gets ws_open ;;
  if open then
    id <- generateUniqueID ;;
    ws_current_send (JSON_stringify (unsubscribeMsg id topicName)) ;;;
    topic_text <- lift (ToString topicName) ;;
    console_log ("Unsubscribed from " ++ topic_text)
  else ret tt.

(** [subscribeToTopics()] *)
Definition subscribeToTopics : M unit :=
  subscribeToTopic (batteryStatus (topics cfg)) (batteryState (messageTypes cfg)) JUndefined ;;;
  subscribeToTopic (topic_odometry (topics cfg)) (type_odometry (messageTypes cfg)) JUndefined ;;;
  subscribeToTopic (robotStatus (topics cfg)) (stringMsg (messageTypes cfg)) JUndefined.

Definition publishMsg (id topicName messagePayload messageType : JsVal) : JsVal :=
  JObj [("op", JStr "publish"); ("id", id); ("topic", topicName);
        ("msg", messagePayload); ("type", messageType)].

(** [publishMessage(topicName, messageType, messagePayload)] *)
Definition publishMessage (topicName messageType messagePayload : JsVal) : M unit :=
  open <- gets ws_open ;;
  if open then
    id <- generateUniqueID ;;
    ws_current_send (JSON_stringify (publishMsg id topicName messagePayload messageType))
  else setLastError (JStr "Cannot send command: Not connected.").

Definition twistMsg (linearX angularZ : JsVal) : JsVal :=
  JObj [("linear", JObj [("x", linearX); ("y", JNum 0); ("z", JNum 0)]);
        ("angular", JObj [("x", JNum 0); ("y", JNum 0); ("z", angularZ)])].

(** [sendTwistCommand(linearX, angularZ)] *)
Definition sendTwistCommand (linearX angularZ : JsVal) : M unit :=
  publishMessage (cmdVel (topics cfg)) (twist (messageTypes cfg))
                 (twistMsg linearX angularZ).

(** [Alert.alert(title, message)] *)
Definition Alert_alert (title message : string) : M unit :=
  fun st => (Normal tt, with_alerts (alerts st ++ [(title, message)]) st).

(** [handleEmergencyStop()] *)
Definition handleEmergencyStop : M unit :=
  sendTwistCommand (JNum 0) (JNum 0) ;;;
  Alert_alert "Emergency Stop" "Robot motion stopped!".

(** [sendPredefinedCommand(commandConfig)] *)
Definition sendPredefinedCommand (commandConfig : JsVal) : M unit :=
  topicName <- lift (get commandConfig "topic") ;;
  messagePayload <- lift (get commandConfig "message") ;;
  publishMessage topicName (stringMsg (messageTypes cfg)) messagePayload ;;;
  topicName <- lift (get commandConfig "topic") ;;
  topic_text <- lift (ToString topicName) ;;
  Alert_alert "Command Sent" ("Command for " ++ topic_text ++ " sent.").

(* ------------------------------------------------------------------ *)
(** ** Connecting *)

(** [new WebSocket(url)]: throws, or adds a connecting socket to the
    store and returns its reference. *)
Definition new_WebSocket (u : string) : M nat :=
  fun st =>
    match WebSocket_ctor_error u with
    | Some m => (Throw (CtorError m), st)
    | None =>
        (Normal (List.length (sockets st)),
         with_sockets (sockets st ++ [{| url := u; readyState := CONNECTING; sent := [] |}]) st)
    end.

(** [e.message] of a caught exception; only [CtorError] is thrown inside
    the [try] block of [connectToRosbridge]. *)
Definition exn_message (e : Exn) : string :=
  match e with
  | CtorError m => m
  | TypeError => "TypeError"
  | SyntaxError => "SyntaxError"
  | InvalidStateError => "InvalidStateError"
  end.

(** [connectToRosbridge()]. The four handlers it installs on the new
    socket are [onopen], [onmessage], [onerror] and [onclose] below; the
    transport calls them through [fire]. *)
Definition connectToRosbridge : M unit :=
  open <- gets ws_open ;;
  if open then setConnectionStatus "Already connected."
  else
    u <- gets rosbridgeUrl ;;
    setConnectionStatus ("Connecting to " ++ u ++ "...") ;;;
    setLastError JNull ;;;
    try_catch
      (r <- new_WebSocket u ;;
       modify (with_ws_current (Some r)))
      (fun e =>
         setConnectionStatus ("Failed to connect: " ++ exn_message e) ;;;
         setLastError (JStr ("Connection Init Error: " ++ exn_message e))).

(** [ws.current.onopen] *)
Definition onopen : M unit :=
  setIsConnected true ;;;
  setConnectionStatus "Connected to ROS Master via rosbridge" ;;;
  subscribeToTopics.

(** The body of the [try] block of [ws.current.onmessage]. *)
Definition dispatch (data : Text) : M unit :=
  message <- lift (JSON_parse data) ;;
  op <- lift (get message "op") ;;
  if strict_eq op (JStr "publish") then
    topic <- lift (get message "topic") ;;
    if strict_eq topic (batteryStatus (topics cfg)) then
      msg <- lift (get message "msg") ;;
      percentage <- lift (get msg "percentage") ;;
      if negb (strict_eq percentage JUndefined) then
        msg <- lift (get message "msg") ;;
        percentage <- lift (get msg "percentage") ;;
        scaled <- lift (js_mul percentage (JNum 100)) ;;
        setBatteryPercentage (JStr (toFixed scaled 1))
      else setBatteryPercentage (JStr "N/A")
    else if strict_eq topic (topic_odometry (topics cfg)) then
      msg <- lift (get message "msg") ;;
      pose <- lift (get msg "pose") ;;
      pose_pose <- lift (get pose "pose") ;;
      position <- lift (get pose_pose "position") ;;
      orientation <- lift (get pose_pose "orientation") ;;
      px <- lift (get position "x") ;;
      xs <- lift (call_toFixed px 2) ;;
      py <- lift (get position "y") ;;
      ys <- lift (call_toFixed py 2) ;;
      yaw <- lift (quaternionToYaw orientation) ;;
      thetas <- lift (call_toFixed yaw 2) ;;
      setOdometry (JObj [("x", xs); ("y", ys); ("theta", thetas)])
    else if strict_eq topic (robotStatus (topics cfg)) then
      msg <- lift (get message "msg") ;;
      data <- lift (get msg "data") ;;
      setRobotStatusText (js_or data (JStr "N/A"))
    else ret tt
  else if strict_eq op (JStr "status") then
    level <- lift (get message "level") ;;
    if strict_eq level (JStr "error") || strict_eq level (JStr "warning") then
      level_text <- lift (ToString level) ;;
      id <- lift (get message "id") ;;
      id_text <- lift (ToString id) ;;
      msg <- lift (get message "msg") ;;
      msg_text <- lift (ToString msg) ;;
      console_error ("rosbridge status [" ++ level_text ++ " for " ++ id_text
                     ++ "]: " ++ msg_text) ;;;
      msg <- lift (get message "msg") ;;
      msg_text <- lift (ToString msg) ;;
      setLastError (JStr ("ROS Bridge Error: " ++ msg_text))
    else ret tt
  else ret tt.

(** [ws.current.onmessage] *)
Definition onmessage (data : Text) : M unit :=
  try_catch (dispatch data)
            (fun _ => setLastError (JStr "Error processing message from ROS.")).

(** [ws.current.onerror] *)
Definition onerror (error : JsVal) : M unit :=
  setIsConnected false ;;;
  m <- lift (get error "message") ;;
  status_text <- lift (ToString (js_or m (JStr "Unknown error"))) ;;
  setConnectionStatus ("Connection Error: " ++ status_text) ;;;
  m <- lift (get error "message") ;;
  error_text <- lift (ToString (js_or m (JStr "Check console"))) ;;
  setLastError (JStr ("WebSocket Error: " ++ error_text)).

(** [ws.current.onclose] *)
Definition onclose (event : JsVal) : M unit :=
  setIsConnected false ;;;
  code <- lift (get event "code") ;;
  code_text <- lift (ToString (js_or code (JStr "N/A"))) ;;
  setConnectionStatus ("Disconnected (" ++ code_text ++ ")") ;;;
  modify (with_ws_current None).

(** [ws.current.close()] *)
Definition ws_current_close : M unit :=
  fun st =>
    match ws_current st with
    | Some r => (Normal tt, with_sockets (update_socket r socket_close (sockets st)) st)
    | None => (Normal tt, st)
    end.

(** The cleanup of the [useEffect] hook, run when the component
    unmounts: [if (ws.current) ws.current.close()]. *)
Definition unmount_cleanup : M unit := ws_current_close.

(** [disconnectFromRosbridge()] *)
Definition disconnectFromRosbridge : M unit :=
  ws_current_close ;;;
  setIsConnected false ;;;
  setConnectionStatus "Disconnected" ;;;
  setBatteryPercentage JNull ;;;
  setOdometry zero_pose ;;;
  setRobotStatusText (JStr "N/A").

(* ------------------------------------------------------------------ *)
(** ** The transport *)

(** The events a socket raises. Each carries the reference of the socket
    that raises it; the handlers receive only the event object. *)
Inductive Event : Type :=
| EvOpen (r : nat)
| EvMessage (r : nat) (data : Text)
| EvError (r : nat) (error : JsVal)
| EvClose (r : nat) (event : JsVal).

Definition event_socket (ev : Event) : nat :=
  match ev with
  | EvOpen r | EvMessage r _ | EvError r _ | EvClose r _ => r
  end.

(** The transport moves the socket's [readyState] and then calls the
    handler installed on it. *)
Definition fire (ev : Event) : M unit :=
  match ev with
  | EvOpen r =>
      (fun st => (Normal tt,
                  with_sockets (update_socket r (socket_with_readyState OPEN) (sockets st)) st)) ;;;
      onopen
  | EvMessage _ data => onmessage data
  | EvError _ error => onerror error
  | EvClose r event =>
      (fun st => (Normal tt,
                  with_sockets (update_socket r (socket_with_readyState CLOSED) (sockets st)) st)) ;;;
      onclose event
  end.

(** What the user and the transport can do to the component. *)
Inductive Action : Type :=
| Connect
| Disconnect
| SendTwist (linearX angularZ : JsVal)
| EmergencyStop
| Transport (ev : Event).

Definition act (a : Action) : M unit :=
  match a with
  | Connect => connectToRosbridge
  | Disconnect => disconnectFromRosbridge
  | SendTwist l z => sendTwistCommand l z
  | EmergencyStop => handleEmergencyStop
  | Transport ev => fire ev
  end.

(** A run of the event loop: an exception that leaves a handler ends
    that handler only. *)
Fixpoint run (actions : list Action) (st : App) : App :=
  match actions with
  | [] => st
  | a :: rest => run rest (snd (act a st))
  end.

End Session.

(** Whether the transport can raise [ev] now: [open] comes from a
    connecting socket, messages from an open or closing one, [error] and
    [close] from one that is not closed yet. *)
Definition can_raise (ev : Event) (st : App) : bool :=
  match nth_error (sockets st) (event_socket ev) with
  | None => false
  | Some s =>
      match ev, readyState s with
      | EvOpen _, CONNECTING => true
      | EvMessage _ _, (OPEN | CLOSING) => true
      | EvError _ _, (CONNECTING | OPEN | CLOSING) => true
      | EvClose _ _, (CONNECTING | OPEN | CLOSING) => true
      | _, _ => false
      end
  end.

(* ================================================================== *)
(** * The rest of the component *)
(* ================================================================== *)


(** The battery cell of the status grid, which is rendered only under
    [isConnected && (...)]; its text is
    [batteryPercentage !== null ? `${batteryPercentage}%` : 'N/A'].
    [None]: the cell is not rendered. *)
Definition battery_cell `{Platform} (st : App) : option (Completion string) :=
  if isConnected st then
    Some (if negb (strict_eq (batteryPercentage st) JNull)
          then percentage_text <~ ToString (batteryPercentage st) ;;
               Normal (percentage_text ++ "%")
          else Normal "N/A")
  else None.

(** Every way into the component: the actions of [Action], a direct call
    of one of the three socket closures, a command button, an edit of
    the URL field, and the unmounting of the component. *)
Inductive Call : Type :=
| CAction (a : Action)
| CSubscribe (topicName messageType throttleRate : JsVal)
| CUnsubscribe (topicName : JsVal)
| CPublish (topicName messageType messagePayload : JsVal)
| CPredefinedCommand (commandConfig : JsVal)
| CSetUrl (u : string)
| CUnmount.

Definition call `{Platform} (cfg : RosConfig) (c : Call) : M unit :=
  match c with
  | CAction a => act cfg a
  | CSubscribe t ty thr => subscribeToTopic t ty thr
  | CUnsubscribe t => unsubscribeFromTopic t
  | CPublish t ty p => publishMessage t ty p
  | CPredefinedCommand commandConfig => sendPredefinedCommand cfg commandConfig
  | CSetUrl u => setRosbridgeUrl u
  | CUnmount => unmount_cleanup
  end.

(** A run of the event loop over calls; as in [run], an exception ends
    the handler that raised it and nothing else. *)
Fixpoint run_calls `{Platform} (cfg : RosConfig) (calls : list Call) (st : App) : App :=
  match calls with
  | [] => st
  | c :: rest => run_calls cfg rest (snd (call cfg c st))
  end.

(* ================================================================== *)
(** * A platform to run scenarios on *)
(* ================================================================== *)

Module Sim.

Definition float_of_Z (z : Z) : float := PrimFloat.of_uint63 (Uint63.of_Z z).

(** Radix-10 text of a number: exact for integral values below 10^21;
    other finite values are shown to six decimals. *)
Definition number_to_string (x : float) : string :=
  match Prim2SF x with
  | S754_nan => "NaN"
  | S754_infinity false => "Infinity"
  | S754_infinity true => "-Infinity"
  | S754_zero _ => "0"
  | S754_finite s m e =>
      (if s then "-" else "") ++
      (if (0 <=? e)%Z then decimal_digits (Z.pos m * 2 ^ e)
       else if (Z.pos m mod 2 ^ (- e) =? 0)%Z then decimal_digits (Z.pos m / 2 ^ (- e))
       else place_point (decimal_digits (toFixed_nearest m e 6)) 6)
  end.

Definition digit36 (d : Z) : ascii :=
  if (d <? 10)%Z then ascii_of_nat (48 + Z.to_nat d)
  else ascii_of_nat (87 + Z.to_nat d).

(** The first [k] radix-36 digits of the fraction [num / den]. *)
Fixpoint fraction36 (k : nat) (num den : Z) : string :=
  match k with
  | O => ""
  | S k' =>
      if (num =? 0)%Z then ""
      else String (digit36 (36 * num / den)) (fraction36 k' ((36 * num) mod den) den)
  end.

(** Radix-36 text of a number in [0, 1) with a short expansion. *)
Definition number_to_string36 (x : float) : string :=
  match Prim2SF x with
  | S754_finite false m e =>
      if (e <? 0)%Z then "0." ++ fraction36 12 (Z.pos m mod 2 ^ (- e)) (2 ^ (- e))
      else "0"
  | _ => "0"
  end.

Fixpoint digits_value (s : string) (acc : Z) : option Z :=
  match s with
  | EmptyString => Some acc
  | String c rest =>
      let d := Z.of_nat (nat_of_ascii c) in
      if ((48 <=? d) && (d <=? 57))%Z then digits_value rest (10 * acc + (d - 48))%Z
      else None
  end.

(** The numeric value of a string of decimal digits (the empty string
    is [0]); any other string is taken as [NaN]. *)
Definition string_to_number (s : string) : float :=
  match digits_value s 0 with
  | Some z => float_of_Z z
  | None => PrimFloat.nan
  end.

(** [atan t] for [|t| <= 1], by halving the angle three times and summing
    the series. *)
Definition atan_unit (t : float) : float :=
  let half (u : float) := (u / (1 + PrimFloat.sqrt (1 + u * u)))%float in
  let u := half (half (half t)) in
  let u2 := (u * u)%float in
  let series :=
    (u * (1 - u2 * (1 / 3 - u2 * (1 / 5 - u2 * (1 / 7 - u2 * (1 / 9 - u2 * (1 / 11 - u2 / 13)))))))%float in
  (8 * series)%float.

Definition pi : float := 0x1.921fb54442d18p+1%float.

(** An approximation of the angle of the point [(x, y)]. *)
Definition atan2 (y x : float) : float :=
  if PrimFloat.is_nan y || PrimFloat.is_nan x then PrimFloat.nan
  else if PrimFloat.leb (PrimFloat.abs y) (PrimFloat.abs x) then
    if PrimFloat.is_zero x then (if PrimFloat.get_sign y then - pi else pi)%float
    else
      let a := atan_unit (y / x) in
      if PrimFloat.ltb 0 x then a
      else if PrimFloat.get_sign y then (a - pi)%float else (a + pi)%float
  else
    let a := atan_unit (x / y) in
    if PrimFloat.ltb 0 y then (pi / 2 - a)%float else (- (pi / 2) - a)%float.

#[export] Instance platform : Platform := {|
  NumberToString := number_to_string;
  NumberToString36 := number_to_string36;
  StringToNumber := string_to_number;
  atan2_approx := atan2;
  Date_now := fun k => float_of_Z (1700000000000 + Z.of_nat k);
  Math_random := fun k => (float_of_Z ((2 * Z.of_nat k + 1) mod 1024) / 1024)%float;
  WebSocket_ctor_error := fun u => if String.eqb u "" then Some "Invalid URL" else None
|}.

End Sim.

(* ================================================================== *)
(** * Vocabulary of the properties *)
(* ================================================================== *)

(** [v.k] as a total read: [undefined] where the read would throw. *)
Definition field (v : JsVal) (k : string) : JsVal :=
  match get v k with
  | Normal x => x
  | Throw _ => JUndefined
  end.

(** [ToString] as a total read: the empty string where the conversion
    would throw. *)
Definition text `{Platform} (v : JsVal) : string :=
  match ToString v with
  | Normal s => s
  | Throw _ => ""
  end.

(** The values a template literal can convert: a primitive, an object
    without an own property [toString], and an array of [null],
    [undefined] and such values. *)
Fixpoint converts (v : JsVal) : bool :=
  match v with
  | JArr elems =>
      (fix all (es : list JsVal) : bool :=
         match es with
         | [] => true
         | e :: rest => converts e && all rest
         end) elems
  | JObj props =>
      match own_property props "toString" with
      | Some _ => false
      | None => true
      end
  | _ => true
  end.

(** The frames handed to [send] on socket [r] so far. *)
Definition sent_on (r : nat) (st : App) : list Text :=
  match nth_error (sockets st) r with
  | Some s => sent s
  | None => []
  end.

(** The text frame
    [{"op":"publish","id":id,"topic":"/cmd_vel",
      "msg":{"linear":{"x":lx,"y":0,"z":0},"angular":{"x":0,"y":0,"z":az}},
      "type":"geometry_msgs/Twist"}]. *)
Definition cmd_vel_frame (id : string) (lx az : JsVal) : Text :=
  Json (JObj [("op", JStr "publish");
              ("id", JStr id);
              ("topic", JStr "/cmd_vel");
              ("msg", JObj [("linear", JObj [("x", lx); ("y", JNum 0); ("z", JNum 0)]);
                            ("angular", JObj [("x", JNum 0); ("y", JNum 0); ("z", az)])]);
              ("type", JStr "geometry_msgs/Twist")]).

(** A number as [JSON.stringify] writes it: [null] for [NaN] and the
    infinities, [0] for both zeros. *)
Definition json_number (n : float) : JsVal :=
  if PrimFloat.is_nan n || PrimFloat.is_infinity n then JNull
  else if PrimFloat.is_zero n then JNum 0
  else JNum n.

(** One id is drawn and one frame is appended to the current socket. *)
Definition pushed (r : nat) (frame : Text) (st : App) : App :=
  with_sockets (update_socket r (socket_push frame) (sockets st))
               (with_ids_generated (S (ids_generated st)) st).

(** The frame [subscribeToTopic] hands to [send] when [k] ids have been
    generated before and no throttle rate is passed. *)
Definition subscribe_frame `{Platform} (k : nat) (topicName messageType : JsVal) : Text :=
  JSON_stringify
    (subscribeMsg (JStr (generateUniqueID_at k)) topicName messageType (JNum 200)).

(** The state in which [onopen] runs for socket [r], and what it writes
    before subscribing. *)
Definition opened (r : nat) (st : App) : App :=
  with_connectionStatus "Connected to ROS Master via rosbridge"
    (with_isConnected true
       (with_sockets (update_socket r (socket_with_readyState OPEN) (sockets st)) st)).

(** The store after [ws.current.close()]. *)
Definition closed_store (st : App) : list WebSocket :=
  match ws_current st with
  | Some r => update_socket r socket_close (sockets st)
  | None => sockets st
  end.

(** What [connectToRosbridge] has written when it reaches its [try]
    block. *)
Definition attempting (st : App) : App :=
  with_lastError JNull
    (with_connectionStatus ("Connecting to " ++ rosbridgeUrl st ++ "...") st).

Definition nullish (v : JsVal) : bool :=
  match v with
  | JUndefined | JNull => true
  | _ => false
  end.





Definition decode_error : JsVal := JStr "Error processing message from ROS.".

(* ------------------------------------------------------------------ *)
(** ** Reading a decimal numeral *)

(** The text before the first point of [s], and the text after it if
    there is a point. *)
Fixpoint split_point (s : string) : string * option string :=
  match s with
  | EmptyString => (EmptyString, None)
  | String c rest =>
      if Ascii.eqb c "." then (EmptyString, Some rest)
      else let (before, after) := split_point rest in (String c before, after)
  end.

(** A string of decimal digits. *)
Definition digits_only (s : string) : Prop :=
  exists d, NilEmpty.uint_of_string s = Some d.

(** The number a string of decimal digits denotes. *)
Definition digits_value (s : string) : option Z :=
  option_map (fun d => Z.of_N (N.of_uint d)) (NilEmpty.uint_of_string s).

(** A numeral [-ddd.ddd] read as its sign, the integer its digits
    denote with the point removed, and its number of decimals: ["-2.50"]
    is read as [(true, 250, 2)] and ["75.5"] as [(false, 755, 1)]. *)
Definition read_fixed (s : string) : option (bool * Z * nat) :=
  let (negative, body) :=
    match s with
    | String c rest => if Ascii.eqb c "-" then (true, rest) else (false, s)
    | EmptyString => (false, s)
    end in
  let (int_part, after) := split_point body in
  let decimals := match after with Some d => d | None => EmptyString end in
  match int_part with
  | EmptyString => None
  | _ =>
      match digits_value (int_part ++ decimals) with
      | Some n => Some (negative, n, String.length decimals)
      | None => None
      end
  end.

(** Whether a numeral, after its sign, starts with a zero that another
    digit follows. *)
Definition leading_zero (s : string) : bool :=
  let body :=
    match s with
    | String c rest => if Ascii.eqb c "-" then rest else s
    | EmptyString => s
    end in
  match body with
  | String c1 (String c2 _) => Ascii.eqb c1 "0" && negb (Ascii.eqb c2 ".")
  | _ => false
  end.

(** [n / 10^fd] is the multiple of [10^-fd] nearest to [m * 2^e], the
    larger one when two are equally near. *)
Definition nearest_decimal (m : positive) (e : Z) (fd : nat) (n : Z) : Prop :=
  let num := (Z.pos m * 2 ^ Z.max 0 e * 10 ^ Z.of_nat fd)%Z in
  let den := (2 ^ Z.max 0 (- e))%Z in
  (- den <= 2 * (num - n * den) < den)%Z.

(** The text [s] is the number [x] rounded to [fd] decimals: a finite
    [x] that is not zero is written with its sign, at least one digit
    before the point and exactly [fd] after it, without a superfluous
    leading zero, and the digits are those of the nearest such
    decimal. *)
Definition rounded_to (fd : nat) (x : float) (s : string) : Prop :=
  match Prim2SF x with
  | S754_finite negative m e =>
      exists n : Z,
        read_fixed s = Some (negative, n, fd)
        /\ leading_zero s = false
        /\ nearest_decimal m e fd n
  | _ => False
  end.

(* ------------------------------------------------------------------ *)
(** ** Scenarios *)

(** The component after the user pressed Connect, and after the socket
    then opened, on the platform [Sim.platform]. *)
Definition st_connecting : App :=
  @run Sim.platform ROS_CONFIG [Connect] initial_App.

Definition st_connected : App :=
  @run Sim.platform ROS_CONFIG [Connect; Transport (EvOpen 0)] initial_App.

(** The component with an error left over from a command sent while
    disconnected. *)
Definition st_stale_error : App :=
  @run Sim.platform ROS_CONFIG [SendTwist (JNum 0.2) (JNum 0)] initial_App.

(** The identity quaternion, a quarter turn about the vertical axis, and
    a quaternion without [w]. *)
Definition q_identity : JsVal :=
  JObj [("x", JNum 0); ("y", JNum 0); ("z", JNum 0); ("w", JNum 1)].

Definition q_quarter_turn : JsVal :=
  JObj [("x", JNum 0); ("y", JNum 0);
        ("z", JNum 0.7071067811865476); ("w", JNum 0.7071067811865476)].

Definition q_without_w : JsVal :=
  JObj [("x", JNum 0); ("y", JNum 0); ("z", JNum 0)].

(** A value with an own property [toString], which no template and no
    product can convert: the JSON text [{"toString":1}]. *)
Definition unconvertible : JsVal := JObj [("toString", JNum 1)].

(** A quaternion whose [w] is given as a string, and one whose [w] does
    not convert. *)
Definition q_with_text : JsVal :=
  JObj [("x", JNum 0); ("y", JNum 0); ("z", JNum 0); ("w", JStr "1")].

Definition q_unconvertible : JsVal :=
  JObj [("x", JNum 0); ("y", JNum 0); ("z", JNum 0); ("w", unconvertible)].

(** [{"op":"publish","topic":"/battery_status","msg":{"percentage":0.755}}] *)
Definition battery_message : JsVal :=
  JObj [("op", JStr "publish"); ("topic", JStr "/battery_status");
        ("msg", JObj [("percentage", JNum 0.755)])].

(** An odometry payload with a position and no orientation, one with no
    pose at all, and the [publish] frames that carry them: addressed to
    ['/odom'], and with no [topic]. *)
Definition pose_without_orientation : JsVal :=
  JObj [("pose", JObj [("pose", JObj [("position",
          JObj [("x", JNum 1.5); ("y", JNum (-2)); ("z", JNum 0)])])])].

Definition odom_message (msg : JsVal) : JsVal :=
  JObj [("op", JStr "publish"); ("topic", JStr "/odom"); ("msg", msg)].


(** The event object of a failed connection. *)
Definition connection_refused : JsVal :=
  JObj [("message", JStr "Connection refused")].

(* ------------------------------------------------------------------ *)
(** ** Vocabulary of the further properties *)

(** The [id] a frame carries. *)
Definition frame_id (f : Text) : JsVal :=
  match f with
  | Json v => field v "id"
  | NotJson _ => JUndefined
  end.

(** The ids of all frames handed to any socket, socket by socket. *)
Definition all_frame_ids (st : App) : list JsVal :=
  List.concat (map (fun s => map frame_id (sent s)) (sockets st)).

(** The ids the generator has produced so far, in order. *)
Definition generated_ids `{Platform} (st : App) : list JsVal :=
  map (fun k => JStr (generateUniqueID_at k)) (seq 0 (ids_generated st)).

(** One change of the reference, the store or the id counter:
    - none of the three changes;
    - the reference is cleared;
    - a socket changes its [readyState] only;
    - a new connecting socket with nothing sent is added and held;
    - the held socket, which is open, is handed one frame that carries
      the next id. *)
Inductive wire_step `{Platform} (st st' : App) : Prop :=
| wire_keep :
    ws_current st' = ws_current st -> sockets st' = sockets st ->
    ids_generated st' = ids_generated st -> wire_step st st'
| wire_clear :
    ws_current st' = None -> sockets st' = sockets st ->
    ids_generated st' = ids_generated st -> wire_step st st'
| wire_socket_state (r : nat) (f : WebSocket -> WebSocket) :
    (forall s, url (f s) = url s) -> (forall s, sent (f s) = sent s) ->
    ws_current st' = ws_current st ->
    sockets st' = update_socket r f (sockets st) ->
    ids_generated st' = ids_generated st -> wire_step st st'
| wire_new (u : string) :
    ws_current st' = Some (List.length (sockets st)) ->
    sockets st' = (sockets st ++ [{| url := u; readyState := CONNECTING; sent := [] |}])%list ->
    ids_generated st' = ids_generated st -> wire_step st st'
| wire_push (r : nat) (s : WebSocket) (f : Text) :
    ws_current st = Some r -> nth_error (sockets st) r = Some s ->
    readyState s = OPEN ->
    frame_id f = JStr (generateUniqueID_at (ids_generated st)) ->
    ws_current st' = ws_current st ->
    sockets st' = update_socket r (socket_push f) (sockets st) ->
    ids_generated st' = S (ids_generated st) -> wire_step st st'.

(** Any number of such changes in a row. *)
Inductive wire_steps `{Platform} : App -> App -> Prop :=
| wire_done (st : App) : wire_steps st st
| wire_then (st st' st'' : App) :
    wire_step st st' -> wire_steps st' st'' -> wire_steps st st''.

(** A computation whose effect on the reference, the store and the id
    counter is a sequence of such changes. *)
Definition wired `{Platform} {A} (c : M A) : Prop :=
  forall st, wire_steps st (snd (c st)).

(** Every id generated so far is carried by exactly one sent frame, and
    every sent frame carries one of them. *)
Definition ids_accounted `{Platform} (st : App) : Prop :=
  Permutation (all_frame_ids st) (generated_ids st).

(** The held reference points into the store. *)
Definition reference_valid (st : App) : Prop :=
  match ws_current st with
  | Some r => r < List.length (sockets st)
  | None => True
  end.

(** The shapes the displayed fields keep: the last error is [null] or a
    non-empty string, the battery field is [null] or a string, the status
    text is truthy, and each coordinate of the pose is the number [0] or
    a string. *)
Definition error_shape (v : JsVal) : bool :=
  match v with
  | JNull => true
  | JStr s => negb (String.eqb s "")
  | _ => false
  end.

Definition battery_shape (v : JsVal) : bool :=
  match v with
  | JNull | JStr _ => true
  | _ => false
  end.

Definition coordinate_shape (v : JsVal) : bool :=
  match v with
  | JNum n => is_pos_zero n
  | JStr _ => true
  | _ => false
  end.

Definition pose_shape (v : JsVal) : bool :=
  negb (nullish v)
  && coordinate_shape (field v "x") && coordinate_shape (field v "y")
  && coordinate_shape (field v "theta").

Definition display_shape (st : App) : Prop :=
  error_shape (lastError st) = true
  /\ battery_shape (batteryPercentage st) = true
  /\ ToBoolean (robotStatusText st) = true
  /\ pose_shape (odometry st) = true.

(** The state without its telemetry and last error: what an inbound
    frame must leave alone. *)
Definition connection_part (st : App) :
  string * bool * string * option nat * list WebSocket * nat * list (string * string) :=
  (rosbridgeUrl st, isConnected st, connectionStatus st, ws_current st,
   sockets st, ids_generated st, alerts st).

(** A quaternion with number fields, and its negation. *)
Definition quaternion (x y z w : float) : JsVal :=
  JObj [("x", JNum x); ("y", JNum y); ("z", JNum z); ("w", JNum w)].

(** A computation that leaves the connection part of the state alone. *)
Definition keeps_connection {A} (c : M A) : Prop :=
  forall st, connection_part (snd (c st)) = connection_part st.


(** What a close event with event object [event] on socket [r] leaves. *)
Definition closed_by_event `{Platform} (r : nat) (event : JsVal) (st : App) : App :=
  with_ws_current None
    (with_connectionStatus
       ("Disconnected (" ++ text (js_or (field event "code") (JStr "N/A")) ++ ")")
       (with_isConnected false
          (with_sockets (update_socket r (socket_with_readyState CLOSED) (sockets st)) st))).

(** A value of which the code reads property [k] and puts it in a
    template literal: the read throws on [null] and [undefined], the
    template on a property that does not convert. *)
Definition unreadable (v : JsVal) (k : string) : bool :=
  nullish v || negb (converts (field v k)).

(** The calls that end in an exception: [onerror] on an event whose
    [message] cannot be read, [onclose] on an event whose [code] cannot
    be read, [sendPredefinedCommand] on a command whose [topic] cannot
    be read, and [subscribeToTopic] and [unsubscribeFromTopic] on a
    topic name that does not convert, once the frame has been sent. *)
Definition throwing_call (c : Call) (open : bool) : bool :=
  match c with
  | CAction (Transport (EvError _ error)) => unreadable error "message"
  | CAction (Transport (EvClose _ event)) => unreadable event "code"
  | CPredefinedCommand commandConfig => unreadable commandConfig "topic"
  | CSubscribe topicName _ _ => open && negb (converts topicName)
  | CUnsubscribe topicName => open && negb (converts topicName)
  | _ => false
  end.

(** A table whose three subscribed topic names convert to text, as
    strings and missing entries do. *)
Definition topics_convert (cfg : RosConfig) : bool :=
  converts (batteryStatus (topics cfg)) && converts (topic_odometry (topics cfg))
  && converts (robotStatus (topics cfg)).

(** A computation that always returns normally. *)
Definition never_throws {A} (c : M A) : Prop :=
  forall st, exists a, fst (c st) = Normal a.

(** A computation that keeps the shapes of the displayed fields. *)
Definition shaped {A} (c : M A) : Prop :=
  forall st, display_shape st -> display_shape (snd (c st)).

(** A computation that keeps the reference and every [readyState], and
    hands frames to no socket but the one held when it starts, and to
    that one only if it is open. *)
Definition sends_on_held {A} (c : M A) : Prop :=
  forall st,
    ws_current (snd (c st)) = ws_current st
    /\ (forall r, option_map readyState (nth_error (sockets (snd (c st))) r) =
                  option_map readyState (nth_error (sockets st) r))
    /\ (forall r, sent_on r (snd (c st)) = sent_on r st
                  \/ (ws_current st = Some r /\ ws_open st = true)).

(* ------------------------------------------------------------------ *)
(** ** Further scenarios *)


(** A status frame of the bridge. *)
Definition bridge_status_message (level : string) : JsVal :=
  JObj [("op", JStr "status"); ("id", JStr "op_1700000000001_03sor");
        ("level", JStr level); ("msg", JStr "subscribe: missing topic")].

(** A status frame of the bridge whose [msg] cannot be converted. *)
Definition unconvertible_status_message : JsVal :=
  JObj [("op", JStr "status"); ("level", JStr "error"); ("msg", unconvertible)].


(** A frame of an operation the component does not know. *)
Definition service_response_message : JsVal :=
  JObj [("op", JStr "service_response"); ("result", JBool true)].

(** The event object of an abnormal closure. *)
Definition abnormal_closure : JsVal :=
  JObj [("code", JNum 1006); ("reason", JStr "")].

(** The command of the commented-out [goToDock] entry. *)
Definition dock_command : JsVal :=
  JObj [("topic", JStr "/command/go_to_dock");
        ("message", JObj [("data", JStr "start_docking")])].

(** A session with every kind of call in it. *)
Definition busy_session : list Call :=
  [CAction Connect; CAction (Transport (EvOpen 0));
   CAction (SendTwist (JNum 0.2) (JNum 0)); CPredefinedCommand dock_command;
   CUnsubscribe (JStr "/battery_status"); CAction Disconnect; CAction Connect;
   CAction (Transport (EvClose 0 abnormal_closure));
   CAction (Transport (EvOpen 1)); CAction EmergencyStop].

(* ================================================================== *)
(** * Properties *)
(* ================================================================== *)

(* ------------------------------------------------------------------ *)
(** ** Equality of states *)

Lemma App_ext (a b : App) :
  rosbridgeUrl a = rosbridgeUrl b ->
  isConnected a = isConnected b ->
  connectionStatus a = connectionStatus b ->
  lastError a = lastError b ->
  batteryPercentage a = batteryPercentage b ->
  odometry a = odometry b ->
  robotStatusText a = robotStatusText b ->
  ws_current a = ws_current b ->
  sockets a = sockets b ->
  ids_generated a = ids_generated b ->
  alerts a = alerts b ->
  a = b.
Proof.
  destruct a, b; cbn; intros; subst; reflexivity.
Qed.

(* ------------------------------------------------------------------ *)
(** ** The socket store *)

Lemma nth_error_update_socket (f : WebSocket -> WebSocket) (store : list WebSocket) (r : nat) :
  nth_error (update_socket r f store) r = option_map f (nth_error store r).
Proof.
  revert r; induction store as [|s rest IH]; intros [|r]; simpl; auto.
Qed.

Lemma nth_error_update_socket_other (f : WebSocket -> WebSocket) (store : list WebSocket)
      (r r' : nat) :
  r <> r' -> nth_error (update_socket r f store) r' = nth_error store r'.
Proof.
  revert r r'; induction store as [|s rest IH]; intros [|r] [|r'] Hne; simpl; auto;
    congruence.
Qed.

Lemma update_socket_twice (f g : WebSocket -> WebSocket) (store : list WebSocket) (r : nat) :
  update_socket r f (update_socket r g store) = update_socket r (fun s => f (g s)) store.
Proof.
  revert r; induction store as [|s rest IH]; intros [|r]; simpl; auto.
  now rewrite IH.
Qed.

Lemma update_socket_ext (f g : WebSocket -> WebSocket) (store : list WebSocket) (r : nat) :
  (forall s, f s = g s) -> update_socket r f store = update_socket r g store.
Proof.
  intros Hfg; revert r; induction store as [|s rest IH]; intros [|r]; simpl; auto.
  - now rewrite Hfg.
  - now rewrite IH.
Qed.


(* ------------------------------------------------------------------ *)
(** ** Rounding in [toFixed] *)

(** For a value [m * 2^e] with a fractional part, the digits [toFixed]
    prints are those of the integer nearest to the value scaled by
    [10^fd]: the distance is at most one half, and exactly one half only
    when rounding went up. *)
Lemma toFixed_nearest_is_nearest (m : positive) (e : Z) (fd : nat) :
  (e < 0)%Z ->
  let n := toFixed_nearest m e fd in
  let den := (2 ^ (- e))%Z in
  let scaled := (Z.pos m * 10 ^ Z.of_nat fd)%Z in
  (- den <= 2 * (scaled - n * den) < den)%Z.
Proof.
  intros He n den scaled.
  assert (Hden : (0 < den)%Z) by (apply Z.pow_pos_nonneg; lia).
  unfold n, toFixed_nearest.
  destruct (Z.leb_spec 0 e) as [Hge|_]; [lia|].
  fold den scaled.
  pose proof (Z.div_mod (2 * scaled + den) (2 * den) ltac:(lia)) as Hdm.
  pose proof (Z.mod_pos_bound (2 * scaled + den) (2 * den) ltac:(lia)) as Hmod.
  nia.
Qed.

(** A value without fractional part is printed exactly. *)
Lemma toFixed_nearest_integral (m : positive) (e : Z) (fd : nat) :
  (0 <= e)%Z ->
  toFixed_nearest m e fd = (Z.pos m * 2 ^ e * 10 ^ Z.of_nat fd)%Z.
Proof.
  intros He. unfold toFixed_nearest.
  destruct (Z.leb_spec 0 e); [reflexivity | lia].
Qed.

Lemma toFixed_nearest_nonneg (m : positive) (e : Z) (fd : nat) :
  (0 <= toFixed_nearest m e fd)%Z.
Proof.
  unfold toFixed_nearest.
  assert (Hp : (0 < 10 ^ Z.of_nat fd)%Z) by (apply Z.pow_pos_nonneg; lia).
  destruct (Z.leb_spec 0 e) as [He|He].
  - assert (0 < 2 ^ e)%Z by (apply Z.pow_pos_nonneg; lia). nia.
  - assert (0 < 2 ^ (- e))%Z by (apply Z.pow_pos_nonneg; lia).
    apply Z.div_pos; nia.
Qed.

Lemma toFixed_nearest_decimal (m : positive) (e : Z) (fd : nat) :
  nearest_decimal m e fd (toFixed_nearest m e fd).
Proof.
  unfold nearest_decimal.
  destruct (Z.le_gt_cases 0 e) as [He|He].
  - rewrite (Z.max_r 0 e) by lia. rewrite (Z.max_l 0 (- e)) by lia.
    rewrite toFixed_nearest_integral by assumption.
    change (2 ^ 0)%Z with 1%Z. lia.
  - rewrite (Z.max_l 0 e) by lia. rewrite (Z.max_r 0 (- e)) by lia.
    change (2 ^ 0)%Z with 1%Z. rewrite Z.mul_1_r.
    apply (toFixed_nearest_is_nearest m e fd He).
Qed.

(** Strings of digits. *)

Lemma digits_only_cons (c : ascii) (s : string) :
  digits_only (String c s) ->
  Ascii.eqb c "." = false /\ Ascii.eqb c "-" = false /\ digits_only s.
Proof.
  intros [d Hd]. cbn [NilEmpty.uint_of_string] in Hd.
  destruct (NilEmpty.uint_of_string s) as [d'|] eqn:Hs.
  - repeat split; [| |exists d'; exact Hs];
      destruct c as [[] [] [] [] [] [] [] []]; try reflexivity; discriminate.
  - destruct c as [[] [] [] [] [] [] [] []]; discriminate.
Qed.

Lemma digits_only_app_l (a b : string) : digits_only (a ++ b) -> digits_only a.
Proof.
  induction a as [|c a IH]; intros H.
  - exists Decimal.Nil. reflexivity.
  - cbn [append] in H.
    destruct (digits_only_cons _ _ H) as (_ & _ & Hrest).
    destruct (IH Hrest) as [da Ha].
    destruct H as [d Hd].
    unfold digits_only. cbn [NilEmpty.uint_of_string] in Hd |- *. rewrite Ha.
    destruct (NilEmpty.uint_of_string (a ++ b));
      destruct c as [[] [] [] [] [] [] [] []]; try discriminate; eexists; reflexivity.
Qed.

Lemma split_point_digits (a b : string) :
  digits_only a -> split_point (a ++ String "." b) = (a, Some b).
Proof.
  induction a as [|c a IH]; intros H; [reflexivity|].
  destruct (digits_only_cons _ _ H) as (Hpoint & _ & Hrest).
  cbn [append split_point]. rewrite Hpoint, (IH Hrest). reflexivity.
Qed.

Lemma split_point_no_point (a : string) :
  digits_only a -> split_point a = (a, None).
Proof.
  induction a as [|c a IH]; intros H; [reflexivity|].
  destruct (digits_only_cons _ _ H) as (Hpoint & _ & Hrest).
  cbn [split_point]. rewrite Hpoint, (IH Hrest). reflexivity.
Qed.

Lemma digits_value_zeros (k : nat) (s : string) :
  digits_value (zeros k ++ s) = digits_value s.
Proof.
  induction k as [|k IH]; [reflexivity|].
  cbn [zeros append]. rewrite <- IH.
  unfold digits_value. cbn [NilEmpty.uint_of_string].
  destruct (NilEmpty.uint_of_string (zeros k ++ s)); reflexivity.
Qed.

Lemma digits_value_decimal_digits (n : Z) :
  (0 <= n)%Z -> digits_value (decimal_digits n) = Some n.
Proof.
  intros Hn. unfold digits_value, decimal_digits, NilZero.string_of_uint.
  pose proof (DecimalN.Unsigned.of_to (Z.to_N n)) as Hround.
  destruct (N.to_uint (Z.to_N n)) as [|d|d|d|d|d|d|d|d|d|d] eqn:Hd;
    [cbn in Hround |- *; rewrite <- (Z2N.id n) by assumption; rewrite <- Hround; reflexivity
    |rewrite NilEmpty.usu; cbn [option_map]; rewrite Hround, Z2N.id by assumption;
     reflexivity ..].
Qed.

Lemma decimal_digits_nonempty (n : Z) : decimal_digits n <> EmptyString.
Proof.
  unfold decimal_digits, NilZero.string_of_uint.
  destruct (N.to_uint (Z.to_N n)); discriminate.
Qed.

(** Cutting a string in two. *)

Lemma substring_cut (t : string) (j : nat) :
  j <= String.length t ->
  substring 0 j t ++ substring j (String.length t - j) t = t
  /\ String.length (substring 0 j t) = j
  /\ String.length (substring j (String.length t - j) t) = String.length t - j.
Proof.
  revert j. induction t as [|c t IH]; intros [|j] Hj; cbn [String.length] in *.
  - repeat split.
  - lia.
  - cbn [substring Nat.sub append String.length].
    destruct (IH 0 (Nat.le_0_l _)) as (Hcat & _ & Hlen).
    rewrite Nat.sub_0_r in *. cbn [substring append] in Hcat.
    repeat split.
    + destruct t; cbn [substring append String.length] in *; congruence.
    + destruct t; cbn [substring String.length] in *; congruence.
  - cbn [substring Nat.sub append String.length].
    destruct (IH j ltac:(lia)) as (Hcat & Hl1 & Hl2).
    repeat split; congruence.
Qed.

Lemma length_append (a b : string) :
  String.length (a ++ b) = String.length a + String.length b.
Proof. induction a as [|c a IH]; cbn [append String.length]; [reflexivity | now rewrite IH]. Qed.

Lemma length_zeros (k : nat) : String.length (zeros k) = k.
Proof. induction k as [|k IH]; cbn [zeros String.length]; [reflexivity | now rewrite IH]. Qed.

Lemma digits_only_zeros (k : nat) (s : string) : digits_only s -> digits_only (zeros k ++ s).
Proof.
  intros [d Hd]. induction k as [|k [d' IH]]; [exists d; exact Hd|].
  unfold digits_only. cbn [zeros append NilEmpty.uint_of_string]. rewrite IH.
  eexists; reflexivity.
Qed.

(** The digits of a number start with [0] only when the number is
    [0]. *)
Lemma decimal_digits_leading_zero (n : Z) (rest : string) :
  decimal_digits n = String "0" rest -> rest = EmptyString.
Proof.
  unfold decimal_digits, NilZero.string_of_uint.
  pose proof (DecimalN.Unsigned.to_of (N.to_uint (Z.to_N n))) as Hnorm.
  rewrite DecimalN.Unsigned.of_to in Hnorm.
  destruct (N.to_uint (Z.to_N n)) as [|d|d|d|d|d|d|d|d|d|d];
    cbn [NilEmpty.string_of_uint]; intros H; try discriminate.
  injection H as <-.
  pose proof Hnorm as Hhead.
  rewrite DecimalFacts.unorm_D0 in Hnorm.
  unfold Decimal.unorm in Hnorm.
  destruct (Decimal.nzhead d) eqn:Hd;
    try (exfalso; apply (DecimalFacts.nzhead_nonzero d d); congruence).
  injection Hnorm as ->. reflexivity.
Qed.

Lemma substring_head (c : ascii) (t : string) (j : nat) :
  substring 0 (S j) (String c t) = String c (substring 0 j t).
Proof. reflexivity. Qed.

(** The shape of what [place_point] writes: digits, a point, and [fd]
    digits; the digits are those it was given, after zeros if they are
    too few; and the part before the point is [0] or starts with
    another digit. *)
Lemma place_point_shape (n : Z) (fd : nat) :
  (0 <= n)%Z -> fd <> 0 ->
  exists a b : string,
    place_point (decimal_digits n) fd = a ++ String "." b
    /\ digits_only a /\ a <> EmptyString /\ String.length b = fd
    /\ digits_value (a ++ b) = Some n
    /\ (forall rest, a = String "0" rest -> rest = EmptyString).
Proof.
  intros Hn Hfd.
  pose proof (digits_value_decimal_digits n Hn) as Hvalue.
  assert (Hdigits : digits_only (decimal_digits n)).
  { unfold digits_value in Hvalue.
    destruct (NilEmpty.uint_of_string (decimal_digits n)) as [d|] eqn:Hd; [|discriminate].
    exists d; exact Hd. }
  pose proof (decimal_digits_leading_zero n) as Hlead.
  unfold place_point. destruct fd as [|fd']; [congruence|].
  set (fd := S fd') in *.
  set (digits := decimal_digits n) in *.
  set (padded := if (String.length digits <=? fd)%nat
                 then zeros (fd + 1 - String.length digits) ++ digits else digits).
  assert (Hpadded : digits_only padded /\ digits_value padded = Some n
                    /\ fd < String.length padded
                    /\ (forall rest, padded = String "0" rest ->
                                     String.length padded = S fd)).
  { unfold padded. destruct (Nat.leb_spec (String.length digits) fd) as [Hle|Hgt].
    - split; [now apply digits_only_zeros|].
      split; [now rewrite digits_value_zeros|].
      rewrite length_append, length_zeros. split; [lia|]. intros; lia.
    - repeat split; auto.
      intros rest Hrest. rewrite (Hlead rest Hrest) in Hrest.
      rewrite Hrest in Hgt. cbn [String.length] in Hgt. lia. }
  destruct Hpadded as (Honly & Hpv & Hlen & Hzero).
  cbv zeta.
  destruct (substring_cut padded (String.length padded - fd) ltac:(lia))
    as (Hcat & Hla & Hlb).
  replace (String.length padded - (String.length padded - fd)) with fd in * by lia.
  exists (substring 0 (String.length padded - fd) padded),
         (substring (String.length padded - fd) fd padded).
  split; [reflexivity|].
  split; [apply (digits_only_app_l _ (substring (String.length padded - fd) fd padded));
          now rewrite Hcat|].
  split.
  { intros Hempty. rewrite Hempty in Hla. cbn [String.length] in Hla. lia. }
  split; [exact Hlb|].
  split; [now rewrite Hcat|].
  intros rest Ha.
  destruct padded as [|c t] eqn:Hp; [cbn [String.length] in Hlen; lia|].
  destruct (String.length (String c t) - fd) as [|j] eqn:Hj; [lia|].
  rewrite substring_head in Ha. injection Ha as -> Hrest.
  specialize (Hzero t eq_refl).
  assert (j = 0) by lia. subst j.
  rewrite <- Hrest. destruct t; reflexivity.
Qed.

(** The text [place_point] writes is read back as the digits it was
    given, with [fd] of them after the point, and has no superfluous
    leading zero. *)
Lemma read_fixed_place_point (negative : bool) (n : Z) (fd : nat) :
  (0 <= n)%Z -> fd <> 0 ->
  read_fixed ((if negative then "-" else "") ++ place_point (decimal_digits n) fd) =
  Some (negative, n, fd)
  /\ leading_zero ((if negative then "-" else "") ++ place_point (decimal_digits n) fd) =
     false.
Proof.
  intros Hn Hfd.
  destruct (place_point_shape n fd Hn Hfd) as (a & b & -> & Ha & Hne & Hlb & Hvalue & Hzero).
  assert (Hbody : forall negative' : bool,
             (let (int_part, after) := split_point (a ++ String "." b) in
              let decimals := match after with Some d => d | None => EmptyString end in
              match int_part with
              | EmptyString => None
              | _ =>
                  match digits_value (int_part ++ decimals) with
                  | Some v => Some (negative', v, String.length decimals)
                  | None => None
                  end
              end) = Some (negative', n, fd)).
  { intros negative'.
    rewrite (split_point_digits a b Ha). cbv beta iota zeta.
    rewrite Hvalue, Hlb.
    destruct a; [congruence | reflexivity]. }
  assert (Hplain : match a ++ String "." b with
                   | String c1 (String c2 _) => Ascii.eqb c1 "0" && negb (Ascii.eqb c2 ".")
                   | _ => false
                   end = false).
  { destruct a as [|c1 rest]; [congruence|]. cbn [append].
    destruct (Ascii.eqb_spec c1 "0") as [->|Hc1].
    - rewrite (Hzero rest eq_refl). reflexivity.
    - destruct (rest ++ String "." b); reflexivity. }
  destruct negative.
  - cbn [append]. unfold read_fixed, leading_zero.
    change (Ascii.eqb "-" "-") with true. cbv iota.
    split; [apply (Hbody true) | exact Hplain].
  - cbn [append]. unfold read_fixed, leading_zero.
    destruct a as [|c a'] eqn:Hadef; [congruence|].
    cbn [append] in *.
    destruct (digits_only_cons _ _ Ha) as (_ & Hminus & _).
    rewrite Hminus.
    split; [apply (Hbody false) | exact Hplain].
Qed.

(** [toFixed] rounds: a finite number below [10^21] is written as the
    nearest decimal with [fd] digits after the point. *)
Lemma toFixed_rounded `{Platform} (x : float) (fd : nat)
      (negative : bool) (m : positive) (e : Z) :
  Prim2SF x = S754_finite negative m e ->
  PrimFloat.leb ten21 (PrimFloat.abs x) = false ->
  fd <> 0 ->
  rounded_to fd x (toFixed x fd).
Proof.
  intros Hx Hsmall Hfd. unfold rounded_to, toFixed. rewrite Hx, Hsmall.
  exists (toFixed_nearest m e fd).
  destruct (read_fixed_place_point negative (toFixed_nearest m e fd) fd
              (toFixed_nearest_nonneg m e fd) Hfd) as [Hread Hplain].
  split; [exact Hread|]. split; [exact Hplain|].
  apply toFixed_nearest_decimal.
Qed.

(* ------------------------------------------------------------------ *)
(** ** Conversion to text and to a number *)

Section Conversions.
Context `{P : Platform}.

(** Induction on a value, with the property at hand for the elements
    of an array. *)
Lemma JsVal_elements_ind (Q : JsVal -> Prop) :
  Q JUndefined -> Q JNull -> (forall b, Q (JBool b)) -> (forall n, Q (JNum n)) ->
  (forall s, Q (JStr s)) ->
  (forall elems, Forall Q elems -> Q (JArr elems)) ->
  (forall props, Q (JObj props)) ->
  forall v, Q v.
Proof.
  intros Hu Hn Hb Hnum Hs Harr Hobj.
  fix IH 1.
  intros [| |b|n|s|elems|props];
    [exact Hu | exact Hn | apply Hb | apply Hnum | apply Hs | | apply Hobj].
  apply Harr.
  induction elems as [|e rest IHrest]; constructor; [apply IH | exact IHrest].
Qed.

(** The conversion completes exactly on the values that convert, and
    the only exception it raises is a [TypeError]. *)
Lemma ToString_converts (v : JsVal) :
  ToString v = if converts v then Normal (text v) else Throw TypeError.
Proof.
  induction v as [| |b|n|s|elems IH|props] using JsVal_elements_ind;
    try reflexivity.
  - destruct b; reflexivity.
  - unfold text. cbn [ToString converts].
    set (each := fix each (es : list JsVal) : Completion (list string) :=
                   match es with
                   | [] => Normal []
                   | e :: rest =>
                       part <~ match e with
                               | JUndefined | JNull => Normal ""
                               | _ => ToString e
                               end ;;
                       parts <~ each rest ;;
                       Normal (part :: parts)
                   end).
    set (all := fix all (es : list JsVal) : bool :=
                  match es with
                  | [] => true
                  | e :: rest => converts e && all rest
                  end).
    assert (Heach : each elems = Throw TypeError /\ all elems = false
                    \/ exists parts, each elems = Normal parts /\ all elems = true).
    { induction IH as [|e rest He _ IHrest]; [right; eexists; split; reflexivity|].
      cbn [each all].
      assert (Hpart : match e with
                      | JUndefined | JNull => Normal ""
                      | _ => ToString e
                      end = Throw TypeError /\ converts e = false
                      \/ exists part, match e with
                                      | JUndefined | JNull => Normal ""
                                      | _ => ToString e
                                      end = Normal part /\ converts e = true).
      { destruct e as [| |[]|n|s|inner|props];
          try (right; eexists; split; reflexivity);
          rewrite He; match goal with |- context [converts ?v] => destruct (converts v) end;
          [right; eexists; split; reflexivity | left; split; reflexivity
          |right; eexists; split; reflexivity | left; split; reflexivity]. }
      destruct Hpart as [[-> ->]|(part & -> & ->)]; [left; split; reflexivity|].
      cbn [cbind andb].
      destruct IHrest as [[-> ->]|(parts & -> & ->)].
      - left; split; reflexivity.
      - right; eexists; split; reflexivity. }
    destruct Heach as [[-> ->]|(parts & -> & ->)]; reflexivity.
  - unfold text. cbn [ToString converts].
    destruct (own_property props "toString"); reflexivity.
Qed.

Lemma ToString_normal (v : JsVal) :
  converts v = true -> ToString v = Normal (text v).
Proof. intros Hv. rewrite ToString_converts, Hv. reflexivity. Qed.

Lemma ToString_throw (v : JsVal) :
  converts v = false -> ToString v = Throw TypeError.
Proof. intros Hv. rewrite ToString_converts, Hv. reflexivity. Qed.

(** What [||] puts in a template: the fallback is a string, so the
    result converts exactly when the left operand does. *)
Lemma converts_js_or (a : JsVal) (fallback : string) :
  converts (js_or a (JStr fallback)) = converts a.
Proof. unfold js_or. destruct a as [| |[]|n|s|elems|props]; cbn; try reflexivity;
         match goal with |- context [if ?b then _ else _] => destruct b end; reflexivity.
Qed.

Lemma ToNumber_converts (v : JsVal) :
  (converts v = true -> exists n, ToNumber v = Normal n)
  /\ (converts v = false -> ToNumber v = Throw TypeError).
Proof.
  destruct v as [| |[]|n|s|elems|props];
    try (split; [intros _; eexists; reflexivity | discriminate]).
  - cbn [ToNumber]. rewrite ToString_converts.
    destruct (converts (JArr elems)); split; try discriminate; intros _;
      [eexists|]; reflexivity.
  - cbn [ToNumber]. rewrite ToString_converts.
    destruct (converts (JObj props)); split; try discriminate; intros _;
      [eexists|]; reflexivity.
Qed.

Lemma js_mul_numbers (a b : JsVal) (x y : float) :
  ToNumber a = Normal x -> ToNumber b = Normal y ->
  js_mul a b = Normal (x * y)%float.
Proof. unfold js_mul. intros -> ->. reflexivity. Qed.

Lemma js_mul_throw (a b : JsVal) :
  converts a && converts b = false -> js_mul a b = Throw TypeError.
Proof.
  unfold js_mul. intros Hab.
  destruct (ToNumber_converts a) as [Ha Ha'], (ToNumber_converts b) as [Hb Hb'].
  destruct (converts a); [|rewrite Ha' by reflexivity; reflexivity].
  destruct (Ha eq_refl) as [x ->]. cbn [cbind].
  destruct (converts b); [discriminate|].
  rewrite Hb' by reflexivity. reflexivity.
Qed.

Lemma js_mul_converts (a b : JsVal) :
  converts a && converts b = true -> exists p, js_mul a b = Normal p.
Proof.
  intros Hab. apply andb_prop in Hab. destruct Hab as [Ha Hb].
  destruct (proj1 (ToNumber_converts a) Ha) as [x Hx].
  destruct (proj1 (ToNumber_converts b) Hb) as [y Hy].
  exists (x * y)%float. now apply js_mul_numbers.
Qed.

End Conversions.

(* ------------------------------------------------------------------ *)
(** ** The yaw decoder *)

Section Yaw.
Context `{P : Platform}.

Lemma get_defined_is_object (q : JsVal) (k : string) (v : JsVal) :
  get q k = Normal v -> strict_eq v JUndefined = false -> ToBoolean q = true.
Proof.
  destruct q; simpl; intros H Hv; try discriminate; try reflexivity;
    injection H as <-; discriminate.
Qed.

(** Past its guard the decoder evaluates the four products in the order
    the source writes them. *)
Lemma quaternionToYaw_defined (q x y z w : JsVal) :
  get q "w" = Normal w -> get q "x" = Normal x ->
  get q "y" = Normal y -> get q "z" = Normal z ->
  strict_eq w JUndefined = false -> strict_eq x JUndefined = false ->
  strict_eq y JUndefined = false -> strict_eq z JUndefined = false ->
  quaternionToYaw q =
  (wz <~ js_mul w z ;;
   xy <~ js_mul x y ;;
   yy <~ js_mul y y ;;
   zz <~ js_mul z z ;;
   Normal (JNum (Math_atan2 (2 * (wz + xy)) (1 - 2 * (yy + zz)))%float)).
Proof.
  intros Hw Hx Hy Hz Dw Dx Dy Dz.
  unfold quaternionToYaw.
  rewrite (get_defined_is_object _ _ _ Hw Dw).
  cbn [negb]. rewrite Hw. cbn [cbind]. rewrite Dw.
  rewrite Hx. cbn [cbind]. rewrite Dx.
  rewrite Hy. cbn [cbind]. rewrite Dy.
  rewrite Hz. cbn [cbind]. rewrite Dz.
  reflexivity.
Qed.

(** A field that is missing sends the decoder to its default. *)
Lemma quaternionToYaw_missing (q : JsVal) (k : string) :
  In k ["w"; "x"; "y"; "z"] ->
  field q k = JUndefined ->
  quaternionToYaw q = Normal (JNum 0).
Proof.
  intros Hk Hmiss.
  unfold quaternionToYaw.
  destruct (ToBoolean q) eqn:Hq; simpl; [|reflexivity].
  assert (Hget : forall k', get q k' = Normal (field q k')).
  { intros k'. unfold field. destruct q; simpl in *; try discriminate; auto.
    destruct (own_property props k'); auto. }
  rewrite (Hget "w"); simpl.
  destruct (strict_eq (field q "w") JUndefined) eqn:Hw; [reflexivity|].
  rewrite (Hget "x"); simpl.
  destruct (strict_eq (field q "x") JUndefined) eqn:Hx; [reflexivity|].
  rewrite (Hget "y"); simpl.
  destruct (strict_eq (field q "y") JUndefined) eqn:Hy; [reflexivity|].
  rewrite (Hget "z"); simpl.
  destruct (strict_eq (field q "z") JUndefined) eqn:Hz; [reflexivity|].
  exfalso.
  simpl in Hk.
  destruct Hk as [<-|[<-|[<-|[<-|[]]]]]; rewrite Hmiss in *; discriminate.
Qed.

(** (C3) For a quaternion whose four fields are defined the decoder
    returns [atan2(2*(w*z + x*y), 1 - 2*(y*y + z*z))], where [*]
    converts its operands to numbers as JavaScript does: on fields that
    convert, the result is the float formula on the converted numbers,
    and on number fields on the fields themselves; a defined field that
    does not convert (an object with an own [toString]) makes the
    product, and so the decoder, throw a [TypeError]. For the identity
    quaternion the result is [0]; and for [null], [undefined] or a value
    that lacks one of the four fields the decoder returns [0]. *)
Theorem quaternionToYaw_spec :
  (forall (q x y z w : JsVal) (nx ny nz nw : float),
      get q "w" = Normal w -> get q "x" = Normal x ->
      get q "y" = Normal y -> get q "z" = Normal z ->
      strict_eq w JUndefined = false -> strict_eq x JUndefined = false ->
      strict_eq y JUndefined = false -> strict_eq z JUndefined = false ->
      ToNumber w = Normal nw -> ToNumber x = Normal nx ->
      ToNumber y = Normal ny -> ToNumber z = Normal nz ->
      quaternionToYaw q =
      Normal (JNum (Math_atan2 (2 * (nw * nz + nx * ny))
                               (1 - 2 * (ny * ny + nz * nz)))%float))
  /\ (forall q x y z w : JsVal,
      get q "w" = Normal w -> get q "x" = Normal x ->
      get q "y" = Normal y -> get q "z" = Normal z ->
      strict_eq w JUndefined = false -> strict_eq x JUndefined = false ->
      strict_eq y JUndefined = false -> strict_eq z JUndefined = false ->
      converts w && converts x && converts y && converts z = false ->
      quaternionToYaw q = Throw TypeError)
  /\ (forall (q : JsVal) (x y z w : float),
      get q "w" = Normal (JNum w) -> get q "x" = Normal (JNum x) ->
      get q "y" = Normal (JNum y) -> get q "z" = Normal (JNum z) ->
      quaternionToYaw q =
      Normal (JNum (Math_atan2 (2 * (w * z + x * y)) (1 - 2 * (y * y + z * z)))%float))
  /\ (forall q : JsVal,
      get q "w" = Normal (JNum 1) -> get q "x" = Normal (JNum 0) ->
      get q "y" = Normal (JNum 0) -> get q "z" = Normal (JNum 0) ->
      quaternionToYaw q = Normal (JNum 0))
  /\ quaternionToYaw JNull = Normal (JNum 0)
  /\ quaternionToYaw JUndefined = Normal (JNum 0)
  /\ (forall (q : JsVal) (k : string),
      In k ["w"; "x"; "y"; "z"] -> field q k = JUndefined ->
      quaternionToYaw q = Normal (JNum 0)).
Proof.
  assert (Hconverted : forall (q x y z w : JsVal) (nx ny nz nw : float),
      get q "w" = Normal w -> get q "x" = Normal x ->
      get q "y" = Normal y -> get q "z" = Normal z ->
      strict_eq w JUndefined = false -> strict_eq x JUndefined = false ->
      strict_eq y JUndefined = false -> strict_eq z JUndefined = false ->
      ToNumber w = Normal nw -> ToNumber x = Normal nx ->
      ToNumber y = Normal ny -> ToNumber z = Normal nz ->
      quaternionToYaw q =
      Normal (JNum (Math_atan2 (2 * (nw * nz + nx * ny))
                               (1 - 2 * (ny * ny + nz * nz)))%float)).
  { intros q x y z w nx ny nz nw Hw Hx Hy Hz Dw Dx Dy Dz Nw Nx Ny Nz.
    rewrite (quaternionToYaw_defined q x y z w) by assumption.
    rewrite (js_mul_numbers w z nw nz Nw Nz).
    rewrite (js_mul_numbers x y nx ny Nx Ny).
    rewrite (js_mul_numbers y y ny ny Ny Ny).
    rewrite (js_mul_numbers z z nz nz Nz Nz).
    reflexivity. }
  assert (Hformula : forall (q : JsVal) (x y z w : float),
      get q "w" = Normal (JNum w) -> get q "x" = Normal (JNum x) ->
      get q "y" = Normal (JNum y) -> get q "z" = Normal (JNum z) ->
      quaternionToYaw q =
      Normal (JNum (Math_atan2 (2 * (w * z + x * y)) (1 - 2 * (y * y + z * z)))%float)).
  { intros q x y z w Hw Hx Hy Hz.
    exact (Hconverted q _ _ _ _ x y z w Hw Hx Hy Hz eq_refl eq_refl eq_refl eq_refl
             eq_refl eq_refl eq_refl eq_refl). }
  split; [exact Hconverted|].
  split.
  { intros q x y z w Hw Hx Hy Hz Dw Dx Dy Dz Hbad.
    rewrite (quaternionToYaw_defined q x y z w) by assumption.
    destruct (converts w) eqn:Cw; [|rewrite js_mul_throw by (rewrite Cw; reflexivity);
                                      reflexivity].
    destruct (converts z) eqn:Cz; [|rewrite js_mul_throw by (rewrite Cw, Cz; reflexivity);
                                      reflexivity].
    destruct (js_mul_converts w z) as [wz ->]; [rewrite Cw, Cz; reflexivity|].
    cbn [cbind].
    destruct (converts x) eqn:Cx; [|rewrite js_mul_throw by (rewrite Cx; reflexivity);
                                      reflexivity].
    destruct (converts y) eqn:Cy; [discriminate|].
    rewrite js_mul_throw by (rewrite Cx, Cy; reflexivity).
    reflexivity. }
  split; [exact Hformula|].
  split.
  { intros q Hw Hx Hy Hz.
    rewrite (Hformula q _ _ _ _ Hw Hx Hy Hz).
    reflexivity. }
  split; [reflexivity|].
  split; [reflexivity|].
  exact quaternionToYaw_missing.
Qed.

End Yaw.

(* ------------------------------------------------------------------ *)
(** ** Running the monad *)

Lemma bind_normal {A B} (c : M A) (k : A -> M B) (st st' : App) (a : A) :
  c st = (Normal a, st') -> bind c k st = k a st'.
Proof. unfold bind; intros ->; reflexivity. Qed.

Lemma bind_lift_normal {A B} (c : Completion A) (k : A -> M B) (st : App) (a : A) :
  c = Normal a -> bind (lift c) k st = k a st.
Proof. intros ->; reflexivity. Qed.

Lemma bind_ext {A B} (c : M A) (k k' : A -> M B) (st : App) :
  (forall a st', k a st' = k' a st') -> bind c k st = bind c k' st.
Proof.
  intros Hk. unfold bind. destruct (c st) as [[a|e] st']; [apply Hk | reflexivity].
Qed.

Lemma get_field (v : JsVal) (k : string) :
  get v k = if nullish v then Throw TypeError else Normal (field v k).
Proof.
  unfold field. destruct v; simpl; try reflexivity.
  destruct (own_property props k); reflexivity.
Qed.

Lemma bind_get {B} (v : JsVal) (k : string) (f : JsVal -> M B) (st : App) :
  bind (lift (get v k)) f st =
  if nullish v then (Throw TypeError, st) else f (field v k) st.
Proof.
  unfold bind, lift. rewrite get_field. destruct (nullish v); reflexivity.
Qed.

Lemma get_normal_field (v : JsVal) (k : string) (x : JsVal) :
  get v k = Normal x -> nullish v = false /\ x = field v k.
Proof.
  rewrite get_field. destruct (nullish v); [discriminate|].
  intros H; injection H as <-. split; reflexivity.
Qed.

(** A value put in a template literal. *)
Lemma bind_ToString `{Platform} {B} (v : JsVal) (k : string -> M B) (st : App) :
  bind (lift (ToString v)) k st =
  if converts v then k (text v) st else (Throw TypeError, st).
Proof.
  unfold bind, lift. rewrite ToString_converts. destruct (converts v); reflexivity.
Qed.

(** [ws_open] reads only the reference and the store. *)
Lemma ws_open_spec (st : App) :
  ws_open st = true <->
  exists r s, ws_current st = Some r /\ nth_error (sockets st) r = Some s
              /\ readyState s = OPEN.
Proof.
  unfold ws_open. split.
  - destruct (ws_current st) as [r|]; [|discriminate].
    destruct (nth_error (sockets st) r) as [s|] eqn:Hs; [|discriminate].
    destruct (readyState s) eqn:Hrs; simpl; try discriminate.
    intros _; exists r, s; auto.
  - intros (r & s & -> & -> & ->); reflexivity.
Qed.

(* ------------------------------------------------------------------ *)
(** ** Battery telemetry *)

Section Battery.
Context `{P : Platform}.
Variable cfg : RosConfig.

(** What the battery branch does with [msg.percentage]. *)
Lemma battery_frame_dispatched (st : App) (message topic msg percentage : JsVal) :
  get message "op" = Normal (JStr "publish") ->
  get message "topic" = Normal topic ->
  strict_eq topic (batteryStatus (topics cfg)) = true ->
  get message "msg" = Normal msg ->
  get msg "percentage" = Normal percentage ->
  onmessage cfg (Json message) st =
  (Normal tt,
   if strict_eq percentage JUndefined then with_batteryPercentage (JStr "N/A") st
   else match js_mul percentage (JNum 100) with
        | Normal scaled => with_batteryPercentage (JStr (toFixed scaled 1)) st
        | Throw _ => with_lastError decode_error st
        end).
Proof.
  intros Hop Htopic Hbat Hmsg Hp.
  unfold onmessage, try_catch, dispatch.
  cbn [JSON_parse].
  rewrite (bind_lift_normal (Normal message) _ _ message eq_refl).
  rewrite (bind_lift_normal _ _ _ _ Hop).
  cbn [strict_eq String.eqb Ascii.eqb Bool.eqb].
  rewrite (bind_lift_normal _ _ _ _ Htopic).
  rewrite Hbat.
  rewrite (bind_lift_normal _ _ _ _ Hmsg).
  rewrite (bind_lift_normal _ _ _ _ Hp).
  destruct (strict_eq percentage JUndefined); cbn [negb]; [reflexivity|].
  rewrite (bind_lift_normal _ _ _ _ Hmsg).
  rewrite (bind_lift_normal _ _ _ _ Hp).
  unfold bind, lift.
  destruct (js_mul percentage (JNum 100)); reflexivity.
Qed.


End Battery.

(* ------------------------------------------------------------------ *)
(** ** Outbound frames *)

Section Outbound.
Context `{P : Platform}.

Lemma send_fresh_open (mk : JsVal -> Text) (st : App) (r : nat) :
  ws_current st = Some r ->
  ws_open st = true ->
  (id <- generateUniqueID ;; ws_current_send (mk id)) st =
  (Normal tt, pushed r (mk (JStr (generateUniqueID_at (ids_generated st)))) st).
Proof.
  intros Hcur Hopen.
  apply ws_open_spec in Hopen.
  destruct Hopen as (r' & s & Hcur' & Hs & Hrs).
  rewrite Hcur in Hcur'; injection Hcur' as <-.
  unfold bind, generateUniqueID, gets, modify, ret, ws_current_send, pushed; simpl.
  rewrite Hcur, Hs, Hrs.
  reflexivity.
Qed.

Lemma pushed_ws_current (r : nat) (frame : Text) (st : App) :
  ws_current (pushed r frame st) = ws_current st.
Proof. reflexivity. Qed.

Lemma pushed_ws_open (r : nat) (frame : Text) (st : App) :
  ws_open (pushed r frame st) = ws_open st.
Proof.
  unfold ws_open, pushed; simpl.
  destruct (ws_current st) as [c|]; [|reflexivity].
  destruct (Nat.eq_dec r c) as [->|Hne].
  - rewrite nth_error_update_socket.
    destruct (nth_error (sockets st) c); reflexivity.
  - rewrite nth_error_update_socket_other by assumption. reflexivity.
Qed.

Lemma pushed_ids_generated (r : nat) (frame : Text) (st : App) :
  ids_generated (pushed r frame st) = S (ids_generated st).
Proof. reflexivity. Qed.

Lemma pushed_twice (r : nat) (f1 f2 : Text) (st : App) :
  pushed r f2 (pushed r f1 st) =
  with_sockets (update_socket r (fun s => socket_push f2 (socket_push f1 s)) (sockets st))
               (with_ids_generated (S (S (ids_generated st))) st).
Proof.
  unfold pushed, with_sockets, with_ids_generated; simpl.
  now rewrite update_socket_twice.
Qed.

(** The same with what follows the [send]. *)
Lemma send_fresh_open_then {B} (mk : JsVal -> Text) (after : M B) (st : App) (r : nat) :
  ws_current st = Some r ->
  ws_open st = true ->
  (id <- generateUniqueID ;; ws_current_send (mk id) ;;; after) st =
  after (pushed r (mk (JStr (generateUniqueID_at (ids_generated st)))) st).
Proof.
  intros Hcur Hopen.
  pose proof (send_fresh_open mk st r Hcur Hopen) as Hsend.
  unfold bind in Hsend |- *.
  destruct (generateUniqueID st) as [[id|e] st1]; [|discriminate].
  rewrite Hsend. reflexivity.
Qed.

(** Logging a template: the conversion of the value may throw, the
    logging itself changes nothing. *)
Lemma log_template (v : JsVal) (line : string -> string) (st : App) :
  (value_text <- lift (ToString v) ;; console_log (line value_text)) st =
  (if converts v then Normal tt else Throw TypeError, st).
Proof.
  unfold bind, lift. rewrite ToString_converts.
  destruct (converts v); reflexivity.
Qed.

Lemma subscribeToTopic_open (topicName messageType throttleRate : JsVal) (st : App) (r : nat) :
  ws_current st = Some r ->
  ws_open st = true ->
  subscribeToTopic topicName messageType throttleRate st =
  (if converts topicName then Normal tt else Throw TypeError,
   pushed r (JSON_stringify
               (subscribeMsg (JStr (generateUniqueID_at (ids_generated st)))
                             topicName messageType (default_arg throttleRate (JNum 200)))) st).
Proof.
  intros Hcur Hopen.
  unfold subscribeToTopic.
  rewrite (bind_normal (gets ws_open) _ st st true) by (unfold gets; now rewrite Hopen).
  rewrite (send_fresh_open_then
             (fun id => JSON_stringify
                          (subscribeMsg id topicName messageType
                                        (default_arg throttleRate (JNum 200))))
             _ st r Hcur Hopen).
  apply (log_template topicName (fun t => "Subscribed to " ++ t)).
Qed.

Lemma publishMessage_open (topicName messageType payload : JsVal) (st : App) (r : nat) :
  ws_current st = Some r ->
  ws_open st = true ->
  publishMessage topicName messageType payload st =
  (Normal tt,
   pushed r (JSON_stringify
               (publishMsg (JStr (generateUniqueID_at (ids_generated st)))
                           topicName payload messageType)) st).
Proof.
  intros Hcur Hopen.
  unfold publishMessage.
  rewrite (bind_normal (gets ws_open) _ st st true) by (unfold gets; now rewrite Hopen).
  exact (send_fresh_open
           (fun id => JSON_stringify (publishMsg id topicName payload messageType))
           st r Hcur Hopen).
Qed.

(** (C2, as the code has it) While the connection is not open (no
    socket, or a socket that is not [OPEN]) no call sends a frame or
    throws: [subscribeToTopic] and [unsubscribeFromTopic] leave the whole
    state as it was, last error included, and [publishMessage] only sets
    the last error to ['Cannot send command: Not connected.']. *)
Theorem calls_while_not_connected
        (st : App) (topicName messageType throttleRate payload : JsVal) :
  ws_open st = false ->
  subscribeToTopic topicName messageType throttleRate st = (Normal tt, st)
  /\ unsubscribeFromTopic topicName st = (Normal tt, st)
  /\ publishMessage topicName messageType payload st =
     (Normal tt, with_lastError (JStr "Cannot send command: Not connected.") st).
Proof.
  intros Hclosed.
  unfold subscribeToTopic, unsubscribeFromTopic, publishMessage, bind, gets.
  rewrite Hclosed.
  repeat split.
Qed.

Lemma json_of_number (n : float) : json_of (JNum n) = json_number n.
Proof.
  unfold json_number. cbn [json_of]. unfold PrimFloat.is_finite.
  destruct (PrimFloat.is_nan n || PrimFloat.is_infinity n); reflexivity.
Qed.

(** (C8) While connected, [sendTwistCommand(l, a)] hands exactly one
    frame to the current socket and draws one id: the [publish]
    envelope for ['/cmd_vel'] of type ['geometry_msgs/Twist'] with
    payload [{linear:{x:l,y:0,z:0}, angular:{x:0,y:0,z:a}}], for all
    numbers [l] and [a], written as [JSON.stringify] writes numbers. The
    left button sends [linear.x = 0] and [angular.z = 0.5]. 
    [handleEmergencyStop] sends the frame of [sendTwistCommand(0, 0)]
    and then shows its alert; so [sendTwistCommand(0.2, 0)] followed by
    [handleEmergencyStop] adds two frames, the second with
    [linear.x = 0] and [angular.z = 0]. *)
Theorem sendTwistCommand_publishes (st : App) (r : nat) :
  ws_current st = Some r ->
  ws_open st = true ->
  let k := ids_generated st in
  (forall l a : float,
      sendTwistCommand ROS_CONFIG (JNum l) (JNum a) st =
      (Normal tt,
       pushed r (cmd_vel_frame (generateUniqueID_at k) (json_number l) (json_number a)) st))
  /\ sendTwistCommand ROS_CONFIG (JNum 0.2) (JNum 0) st =
     (Normal tt, pushed r (cmd_vel_frame (generateUniqueID_at k) (JNum 0.2) (JNum 0)) st)
  /\ sendTwistCommand ROS_CONFIG (JNum 0) (JNum 0.5) st =
     (Normal tt, pushed r (cmd_vel_frame (generateUniqueID_at k) (JNum 0) (JNum 0.5)) st)
  /\ handleEmergencyStop ROS_CONFIG st =
     (Normal tt,
      with_alerts (alerts st ++ [("Emergency Stop", "Robot motion stopped!")])
        (pushed r (cmd_vel_frame (generateUniqueID_at k) (JNum 0) (JNum 0)) st))
  /\ run ROS_CONFIG [SendTwist (JNum 0.2) (JNum 0); EmergencyStop] st =
     with_alerts (alerts st ++ [("Emergency Stop", "Robot motion stopped!")])
       (with_sockets
          (update_socket r
             (fun s =>
                socket_push (cmd_vel_frame (generateUniqueID_at (S k)) (JNum 0) (JNum 0))
                  (socket_push (cmd_vel_frame (generateUniqueID_at k) (JNum 0.2) (JNum 0)) s))
             (sockets st))
          (with_ids_generated (S (S k)) st)).
Proof.
  intros Hcur Hopen k.
  assert (Hsend : forall (st0 : App) (l a : float),
             ws_current st0 = Some r -> ws_open st0 = true ->
             sendTwistCommand ROS_CONFIG (JNum l) (JNum a) st0 =
             (Normal tt,
              pushed r (cmd_vel_frame (generateUniqueID_at (ids_generated st0))
                          (json_number l) (json_number a)) st0)).
  { intros st0 l a Hc Ho. unfold sendTwistCommand.
    rewrite (publishMessage_open _ _ _ st0 r Hc Ho).
    unfold cmd_vel_frame. rewrite <- !json_of_number. reflexivity. }
  assert (Hstop : forall st0 : App,
             ws_current st0 = Some r -> ws_open st0 = true ->
             handleEmergencyStop ROS_CONFIG st0 =
             (Normal tt,
              with_alerts (alerts st0 ++ [("Emergency Stop", "Robot motion stopped!")])
                (pushed r (cmd_vel_frame (generateUniqueID_at (ids_generated st0))
                            (JNum 0) (JNum 0)) st0))).
  { intros st0 Hc Ho. unfold handleEmergencyStop.
    rewrite (bind_normal _ _ _ _ _ (Hsend st0 0%float 0%float Hc Ho)).
    reflexivity. }
  split; [intros l a; now apply Hsend|].
  split; [exact (Hsend st 0.2%float 0%float Hcur Hopen)|].
  split; [exact (Hsend st 0%float 0.5%float Hcur Hopen)|].
  split; [now apply Hstop|].
  cbn [run act].
  rewrite (Hsend st 0.2%float 0%float Hcur Hopen).
  cbn [snd].
  rewrite Hstop by (rewrite ?pushed_ws_current, ?pushed_ws_open; assumption).
  cbn [snd].
  change (json_number 0.2) with (JNum 0.2). change (json_number 0) with (JNum 0).
  rewrite pushed_ids_generated.
  apply App_ext; try reflexivity.
  cbn [sockets with_alerts with_sockets with_ids_generated pushed].
  unfold pushed. cbn [sockets with_alerts with_sockets with_ids_generated].
  now rewrite update_socket_twice.
Qed.

End Outbound.

(* ------------------------------------------------------------------ *)
(** ** The open event *)

Section OpenEvent.
Context `{P : Platform}.

Lemma subscribeToTopics_open (cfg : RosConfig) (st : App) (c : nat) :
  topics_convert cfg = true ->
  ws_current st = Some c ->
  ws_open st = true ->
  let k := ids_generated st in
  subscribeToTopics cfg st =
  (Normal tt,
   pushed c (subscribe_frame (S (S k)) (robotStatus (topics cfg)) (stringMsg (messageTypes cfg)))
     (pushed c (subscribe_frame (S k) (topic_odometry (topics cfg)) (type_odometry (messageTypes cfg)))
        (pushed c (subscribe_frame k (batteryStatus (topics cfg)) (batteryState (messageTypes cfg)))
           st))).
Proof.
  intros Hcfg Hcur Hopen k.
  unfold topics_convert in Hcfg.
  apply andb_prop in Hcfg. destruct Hcfg as [Hcfg Hstatus].
  apply andb_prop in Hcfg. destruct Hcfg as [Hbattery Hodometry].
  unfold subscribeToTopics.
  pose proof (subscribeToTopic_open (batteryStatus (topics cfg))
                (batteryState (messageTypes cfg)) JUndefined st c Hcur Hopen) as H1.
  rewrite Hbattery in H1.
  rewrite (bind_normal _ _ _ _ _ H1).
  match type of H1 with
  | _ = (_, pushed c ?frame st) =>
      pose proof (subscribeToTopic_open (topic_odometry (topics cfg))
                    (type_odometry (messageTypes cfg)) JUndefined (pushed c frame st) c
                    (eq_trans (pushed_ws_current c frame st) Hcur)
                    (eq_trans (pushed_ws_open c frame st) Hopen)) as H2
  end.
  rewrite Hodometry in H2.
  rewrite (bind_normal _ _ _ _ _ H2).
  rewrite subscribeToTopic_open with (r := c)
    by (rewrite ?pushed_ws_current, ?pushed_ws_open; assumption).
  rewrite Hstatus.
  reflexivity.
Qed.

Lemma subscribeToTopic_closed (topicName messageType throttleRate : JsVal) (st : App) :
  ws_open st = false ->
  subscribeToTopic topicName messageType throttleRate st = (Normal tt, st).
Proof.
  intros Hclosed.
  unfold subscribeToTopic, bind, gets.
  rewrite Hclosed. reflexivity.
Qed.

Lemma subscribeToTopics_closed (cfg : RosConfig) (st : App) :
  ws_open st = false ->
  subscribeToTopics cfg st = (Normal tt, st).
Proof.
  intros Hclosed.
  unfold subscribeToTopics.
  rewrite (bind_normal _ _ _ _ _ (subscribeToTopic_closed _ _ _ st Hclosed)).
  rewrite (bind_normal _ _ _ _ _ (subscribeToTopic_closed _ _ _ st Hclosed)).
  now apply subscribeToTopic_closed.
Qed.

Lemma pushed_thrice_opened (r : nat) (f1 f2 f3 : Text) (st : App) :
  pushed r f3 (pushed r f2 (pushed r f1 (opened r st))) =
  with_sockets
    (update_socket r
       (fun s0 => {| url := url s0; readyState := OPEN; sent := sent s0 ++ [f1; f2; f3] |})
       (sockets st))
    (with_ids_generated (S (S (S (ids_generated st))))
       (with_connectionStatus "Connected to ROS Master via rosbridge"
          (with_isConnected true st))).
Proof.
  apply App_ext; try reflexivity.
  change (update_socket r (socket_push f3)
            (update_socket r (socket_push f2)
               (update_socket r (socket_push f1)
                  (update_socket r (socket_with_readyState OPEN) (sockets st)))) =
          update_socket r
            (fun s0 => {| url := url s0; readyState := OPEN; sent := sent s0 ++ [f1; f2; f3] |})
            (sockets st)).
  rewrite !update_socket_twice.
  apply update_socket_ext.
  intros s0. unfold socket_push, socket_with_readyState; cbn [url readyState sent].
  rewrite <- !app_assoc. reflexivity.
Qed.

Lemma fire_open (cfg : RosConfig) (r : nat) (st : App) :
  fire cfg (EvOpen r) st = subscribeToTopics cfg (opened r st).
Proof. reflexivity. Qed.

(** (C1, what the code sends) When the open event of the current socket
    fires, the session is marked connected and three [subscribe] frames
    are handed to the socket, each with a newly generated id and
    [throttle_rate] 200: one for ['/battery_status'], one for
    ['/robot_status_app'], and between them one that carries neither
    [topic] nor [type], because [ROS_CONFIG] has no [odometry] entries. *)
Theorem open_event_subscribe_frames (st : App) (r : nat) (s : WebSocket) :
  ws_current st = Some r ->
  nth_error (sockets st) r = Some s ->
  let k := ids_generated st in
  let battery_frame :=
    Json (JObj [("op", JStr "subscribe"); ("id", JStr (generateUniqueID_at k));
                ("topic", JStr "/battery_status"); ("type", JStr "sensor_msgs/BatteryState");
                ("throttle_rate", JNum 200)]) in
  let odometry_frame :=
    Json (JObj [("op", JStr "subscribe"); ("id", JStr (generateUniqueID_at (S k)));
                ("throttle_rate", JNum 200)]) in
  let status_frame :=
    Json (JObj [("op", JStr "subscribe"); ("id", JStr (generateUniqueID_at (S (S k))));
                ("topic", JStr "/robot_status_app"); ("type", JStr "std_msgs/String");
                ("throttle_rate", JNum 200)]) in
  fire ROS_CONFIG (EvOpen r) st =
  (Normal tt,
   with_sockets
     (update_socket r
        (fun s0 => {| url := url s0; readyState := OPEN;
                      sent := sent s0 ++ [battery_frame; odometry_frame; status_frame] |})
        (sockets st))
     (with_ids_generated (S (S (S k)))
        (with_connectionStatus "Connected to ROS Master via rosbridge"
           (with_isConnected true st)))).
Proof.
  intros Hcur Hs k battery_frame odometry_frame status_frame.
  rewrite fire_open.
  assert (Hopen : ws_open (opened r st) = true).
  { unfold ws_open, opened; simpl. rewrite Hcur, nth_error_update_socket, Hs. reflexivity. }
  rewrite (subscribeToTopics_open ROS_CONFIG (opened r st) r eq_refl Hcur Hopen).
  cbv zeta. rewrite pushed_thrice_opened.
  reflexivity.
Qed.

(** What [onerror] does with its event object. *)
Lemma onerror_eq (error : JsVal) (st : App) :
  onerror error st =
  if unreadable error "message" then (Throw TypeError, with_isConnected false st)
  else (Normal tt,
        with_lastError
          (JStr ("WebSocket Error: "
                 ++ text (js_or (field error "message") (JStr "Check console"))))
          (with_connectionStatus
             ("Connection Error: "
              ++ text (js_or (field error "message") (JStr "Unknown error")))
             (with_isConnected false st))).
Proof.
  unfold onerror, unreadable.
  unfold bind at 1, setIsConnected at 1, modify at 1.
  rewrite bind_get.
  destruct (nullish error) eqn:Hnull; [reflexivity|]. cbn [orb].
  rewrite bind_ToString, converts_js_or.
  destruct (converts (field error "message")) eqn:Hconv; [|reflexivity]. cbn [negb].
  unfold bind at 1, setConnectionStatus at 1, modify at 1.
  rewrite bind_get. cbn [nullish]. 
  replace (nullish error) with false by (symmetry; exact Hnull).
  rewrite bind_ToString, converts_js_or, Hconv.
  reflexivity.
Qed.

(** (C9, as the code has it) No handler compares the socket that raised
    an event with the reference the component holds. An error event from
    any socket marks the session disconnected and, when its [message] is
    a string or is missing, records the error (an event whose [message]
    cannot be put in the template ends the handler with a [TypeError]
    once the session is marked disconnected). An open event from a
    socket that is not the one held marks the session connected;
    subscribe frames then go to the held socket if that one is open, and
    nowhere otherwise. *)
Theorem late_events_are_applied (cfg : RosConfig) (st : App) (r : nat) :
  (forall error m : JsVal,
      get error "message" = Normal m ->
      converts m = true ->
      fire cfg (EvError r error) st =
      (Normal tt,
       with_lastError (JStr ("WebSocket Error: " ++ text (js_or m (JStr "Check console"))))
         (with_connectionStatus
            ("Connection Error: " ++ text (js_or m (JStr "Unknown error")))
            (with_isConnected false st))))
  /\ (forall (error : JsVal) (message : string),
      get error "message" = Normal (JStr message) ->
      message <> "" ->
      fire cfg (EvError r error) st =
      (Normal tt,
       with_lastError (JStr ("WebSocket Error: " ++ message))
         (with_connectionStatus ("Connection Error: " ++ message)
            (with_isConnected false st))))
  /\ (forall error : JsVal,
      get error "message" = Normal JUndefined ->
      fire cfg (EvError r error) st =
      (Normal tt,
       with_lastError (JStr "WebSocket Error: Check console")
         (with_connectionStatus "Connection Error: Unknown error"
            (with_isConnected false st))))
  /\ (forall error m : JsVal,
      get error "message" = Normal m ->
      converts m = false ->
      fire cfg (EvError r error) st = (Throw TypeError, with_isConnected false st))
  /\ (ws_current st <> Some r ->
      ws_open st = false ->
      fire cfg (EvOpen r) st = (Normal tt, opened r st))
  /\ (forall c : nat,
      topics_convert cfg = true ->
      ws_current st = Some c -> c <> r ->
      ws_open st = true ->
      let k := ids_generated st in
      fire cfg (EvOpen r) st =
      (Normal tt,
       pushed c (subscribe_frame (S (S k)) (robotStatus (topics cfg)) (stringMsg (messageTypes cfg)))
         (pushed c (subscribe_frame (S k) (topic_odometry (topics cfg)) (type_odometry (messageTypes cfg)))
            (pushed c (subscribe_frame k (batteryStatus (topics cfg)) (batteryState (messageTypes cfg)))
               (opened r st))))).
Proof.
  assert (Hother : forall c, ws_current st = Some c -> c <> r ->
                             ws_open (opened r st) = ws_open st).
  { intros c Hc Hne. unfold ws_open, opened; simpl. rewrite Hc.
    rewrite nth_error_update_socket_other by congruence. reflexivity. }
  assert (Herror : forall error m : JsVal,
             get error "message" = Normal m ->
             fire cfg (EvError r error) st =
             if converts m
             then (Normal tt,
                   with_lastError
                     (JStr ("WebSocket Error: " ++ text (js_or m (JStr "Check console"))))
                     (with_connectionStatus
                        ("Connection Error: " ++ text (js_or m (JStr "Unknown error")))
                        (with_isConnected false st)))
             else (Throw TypeError, with_isConnected false st)).
  { intros error m Hm.
    destruct (get_normal_field _ _ _ Hm) as [Hobj ->].
    cbn [fire]. rewrite onerror_eq. unfold unreadable. rewrite Hobj. cbn [orb].
    destruct (converts (field error "message")); reflexivity. }
  split; [intros error m Hm Hconv; rewrite (Herror error m Hm), Hconv; reflexivity|].
  split.
  { intros error message Hm Hne. rewrite (Herror error _ Hm).
    cbn [converts]. unfold js_or. cbn [ToBoolean].
    destruct (String.eqb_spec message ""); [contradiction|]. reflexivity. }
  split; [intros error Hm; rewrite (Herror error _ Hm); reflexivity|].
  split; [intros error m Hm Hconv; rewrite (Herror error m Hm), Hconv; reflexivity|].
  split.
  - intros Hne Hclosed.
    rewrite fire_open.
    apply subscribeToTopics_closed.
    destruct (ws_current st) as [c|] eqn:Hc.
    + rewrite (Hother c) by congruence. exact Hclosed.
    + unfold ws_open, opened; simpl. rewrite Hc. reflexivity.
  - intros c Hcfg Hc Hne Hopen k.
    rewrite fire_open.
    apply (subscribeToTopics_open cfg (opened r st) c Hcfg Hc).
    rewrite (Hother c Hc Hne). exact Hopen.
Qed.

End OpenEvent.

(* ------------------------------------------------------------------ *)
(** ** Connecting and disconnecting *)

Section Lifecycle.
Context `{P : Platform}.


(** What a close event does: the socket is closed, the session is
    marked disconnected, and then the status template reads
    [event.code]. *)
Lemma fire_close_eq (cfg : RosConfig) (r : nat) (event : JsVal) (st : App) :
  fire cfg (EvClose r event) st =
  if unreadable event "code"
  then (Throw TypeError,
        with_isConnected false
          (with_sockets (update_socket r (socket_with_readyState CLOSED) (sockets st)) st))
  else (Normal tt, closed_by_event r event st).
Proof.
  unfold fire, onclose, unreadable.
  unfold bind at 1. cbn [fst snd].
  unfold bind at 1, setIsConnected, modify.
  rewrite bind_get.
  destruct (nullish event); [reflexivity|]. cbn [orb].
  rewrite bind_ToString, converts_js_or.
  destruct (converts (field event "code")); reflexivity.
Qed.


(** (C6, as the code has it) While the held socket is open,
    [connectToRosbridge] only sets the status to ['Already connected.']:
    the store, the reference and every socket's sent frames stay as they
    were. The guard tests nothing else: whenever the held socket is not
    open (there is none, or it is connecting, closing or closed) and the
    constructor does not throw, a new connecting socket is added to the
    store and becomes the held one, and no frame is sent. *)
Theorem connect_guard (st : App) :
  (ws_open st = true ->
   connectToRosbridge st = (Normal tt, with_connectionStatus "Already connected." st))
  /\ (ws_open st = false ->
      WebSocket_ctor_error (rosbridgeUrl st) = None ->
      let st' := snd (connectToRosbridge st) in
      sockets st' =
      (sockets st ++ [{| url := rosbridgeUrl st; readyState := CONNECTING; sent := [] |}])%list
      /\ ws_current st' = Some (List.length (sockets st))
      /\ connectionStatus st' = "Connecting to " ++ rosbridgeUrl st ++ "...").
Proof.
  split.
  - intros Hopen.
    unfold connectToRosbridge, bind, gets.
    rewrite Hopen. reflexivity.
  - intros Hclosed Hctor.
    unfold connectToRosbridge, bind, gets, try_catch, new_WebSocket.
    rewrite Hclosed. cbn [ret setConnectionStatus setLastError modify rosbridgeUrl
                           with_lastError with_connectionStatus].
    rewrite Hctor.
    repeat split.
Qed.

(** (C10) A call of [connectToRosbridge] that passes the guard sets the
    last error to [null] before it constructs the socket: if the
    constructor succeeds the last error is [null] afterwards, and if it
    throws the last error is the error of this attempt. *)
Theorem connect_clears_lastError (st : App) :
  ws_open st = false ->
  lastError (attempting st) = JNull
  /\ (WebSocket_ctor_error (rosbridgeUrl st) = None ->
      connectToRosbridge st =
      (Normal tt,
       with_ws_current (Some (List.length (sockets st)))
         (with_sockets
            (sockets st ++ [{| url := rosbridgeUrl st; readyState := CONNECTING; sent := [] |}])
            (attempting st))))
  /\ (forall m : string,
      WebSocket_ctor_error (rosbridgeUrl st) = Some m ->
      connectToRosbridge st =
      (Normal tt,
       with_lastError (JStr ("Connection Init Error: " ++ m))
         (with_connectionStatus ("Failed to connect: " ++ m) (attempting st))))
  /\ (lastError (snd (connectToRosbridge st)) = JNull
      \/ exists m, WebSocket_ctor_error (rosbridgeUrl st) = Some m
                   /\ lastError (snd (connectToRosbridge st)) =
                      JStr ("Connection Init Error: " ++ m)).
Proof.
  intros Hclosed.
  assert (Hok : WebSocket_ctor_error (rosbridgeUrl st) = None ->
                connectToRosbridge st =
                (Normal tt,
                 with_ws_current (Some (List.length (sockets st)))
                   (with_sockets
                      (sockets st ++ [{| url := rosbridgeUrl st; readyState := CONNECTING;
                                         sent := [] |}])
                      (attempting st)))).
  { intros Hctor.
    unfold connectToRosbridge, bind, gets, try_catch, new_WebSocket.
    rewrite Hclosed; simpl. rewrite Hctor. reflexivity. }
  assert (Hthrow : forall m, WebSocket_ctor_error (rosbridgeUrl st) = Some m ->
                connectToRosbridge st =
                (Normal tt,
                 with_lastError (JStr ("Connection Init Error: " ++ m))
                   (with_connectionStatus ("Failed to connect: " ++ m) (attempting st)))).
  { intros m Hctor.
    unfold connectToRosbridge, bind, gets, try_catch, new_WebSocket.
    rewrite Hclosed; simpl. rewrite Hctor. reflexivity. }
  split; [reflexivity|].
  split; [exact Hok|].
  split; [exact Hthrow|].
  destruct (WebSocket_ctor_error (rosbridgeUrl st)) as [m|] eqn:Hctor.
  - right. exists m. split; [reflexivity|]. rewrite (Hthrow m eq_refl). reflexivity.
  - left. rewrite (Hok eq_refl). reflexivity.
Qed.

End Lifecycle.

(* ------------------------------------------------------------------ *)
(** ** Inbound dispatch *)










Section Inbound.
Context `{P : Platform}.
Variable cfg : RosConfig.


(** The handler never lets an exception out. *)
Lemma onmessage_never_throws (data : Text) (st : App) :
  fst (onmessage cfg data st) = Normal tt.
Proof.
  unfold onmessage, try_catch.
  destruct (dispatch cfg data st) as [[[]|e] st']; reflexivity.
Qed.


End Inbound.

Section Containment.
Context `{P : Platform}.
Variable cfg : RosConfig.


End Containment.

(* ================================================================== *)
(** * The properties on the scenarios *)
(* ================================================================== *)

(** The yaw decoder on the identity quaternion, on a quarter turn, on a
    quaternion without [w], on one whose [w] is the string ['1'], and on
    one whose [w] does not convert. *)
Lemma quaternionToYaw_spec_witness :
  @quaternionToYaw Sim.platform q_identity = Normal (JNum 0)
  /\ @quaternionToYaw Sim.platform q_quarter_turn = Normal (JNum 1.5707963267948968)
  /\ @quaternionToYaw Sim.platform q_without_w = Normal (JNum 0)
  /\ @quaternionToYaw Sim.platform q_with_text = Normal (JNum 0)
  /\ @quaternionToYaw Sim.platform q_unconvertible = Throw TypeError.
Proof.
  destruct (@quaternionToYaw_spec Sim.platform)
    as (Hconverted & Hthrow & Hformula & Hid & _ & _ & Hmiss).
  split; [|split; [|split; [|split]]].
  - apply Hid; reflexivity.
  - rewrite (Hformula q_quarter_turn 0 0 0.7071067811865476 0.7071067811865476)%float
      by reflexivity.
    reflexivity.
  - apply (Hmiss q_without_w "w"); [simpl; auto | reflexivity].
  - rewrite (Hconverted q_with_text (JNum 0) (JNum 0) (JNum 0) (JStr "1") 0 0 0 1)%float
      by reflexivity.
    reflexivity.
  - apply (Hthrow q_unconvertible (JNum 0) (JNum 0) (JNum 0) unconvertible); reflexivity.
Defined.


(** Calls on a component that never connected. *)
Lemma calls_while_not_connected_witness :
  @subscribeToTopic Sim.platform (JStr "/battery_status") (JStr "sensor_msgs/BatteryState")
                    JUndefined initial_App = (Normal tt, initial_App)
  /\ @unsubscribeFromTopic Sim.platform (JStr "/battery_status") initial_App
     = (Normal tt, initial_App)
  /\ @publishMessage Sim.platform (JStr "/cmd_vel") (JStr "geometry_msgs/Twist")
                     (twistMsg (JNum 0.2) (JNum 0)) initial_App
     = (Normal tt, with_lastError (JStr "Cannot send command: Not connected.") initial_App).
Proof.
  exact (@calls_while_not_connected Sim.platform initial_App (JStr "/battery_status")
           (JStr "sensor_msgs/BatteryState") JUndefined (twistMsg (JNum 0.2) (JNum 0)) eq_refl).
Defined.

(** [subscribeToTopic] and [unsubscribeFromTopic] on a component that
    never connected record no error: the last error stays [null]. *)
Lemma subscribe_while_disconnected_records_nothing :
  lastError (snd (@subscribeToTopic Sim.platform (JStr "/battery_status")
                    (JStr "sensor_msgs/BatteryState") JUndefined initial_App)) = JNull
  /\ lastError (snd (@unsubscribeFromTopic Sim.platform (JStr "/battery_status")
                       initial_App)) = JNull.
Proof. split; reflexivity. Qed.

(** A forward command and an emergency stop on the connected component:
    the two frames follow the three subscribe frames on socket 0. *)
Lemma sendTwistCommand_publishes_witness :
  sent_on 0 (@run Sim.platform ROS_CONFIG
               [SendTwist (JNum 0.2) (JNum 0); EmergencyStop] st_connected) =
  (sent_on 0 st_connected
   ++ [cmd_vel_frame "op_1700000000003_08uxr" (JNum 0.2) (JNum 0);
       cmd_vel_frame "op_1700000000004_0be29" (JNum 0) (JNum 0)])%list.
Proof.
  destruct (@sendTwistCommand_publishes Sim.platform st_connected 0 eq_refl eq_refl)
    as (_ & _ & _ & _ & Hrun).
  rewrite Hrun. reflexivity.
Defined.

(** The open event of the socket of [st_connecting]. *)
Lemma open_event_subscribe_frames_witness :
  sent_on 0 (snd (@fire Sim.platform ROS_CONFIG (EvOpen 0) st_connecting)) =
  [Json (JObj [("op", JStr "subscribe"); ("id", JStr "op_1700000000000_019k9");
               ("topic", JStr "/battery_status"); ("type", JStr "sensor_msgs/BatteryState");
               ("throttle_rate", JNum 200)]);
   Json (JObj [("op", JStr "subscribe"); ("id", JStr "op_1700000000001_03sor");
               ("throttle_rate", JNum 200)]);
   Json (JObj [("op", JStr "subscribe"); ("id", JStr "op_1700000000002_06bt9");
               ("topic", JStr "/robot_status_app"); ("type", JStr "std_msgs/String");
               ("throttle_rate", JNum 200)])].
Proof.
  rewrite (@open_event_subscribe_frames Sim.platform st_connecting 0
             {| url := "ws://192.168.1.100:9090"; readyState := CONNECTING; sent := [] |}
             eq_refl eq_refl).
  reflexivity.
Defined.


(** Connect on the connected component. *)
Lemma connect_guard_witness :
  @connectToRosbridge Sim.platform st_connected =
  (Normal tt, with_connectionStatus "Already connected." st_connected).
Proof.
  exact (proj1 (@connect_guard Sim.platform st_connected) eq_refl).
Defined.

(** Connect pressed twice while the first socket is still connecting: a
    second socket is created and takes the reference, the first one is
    left connecting, and the status says connecting, not already
    connected. *)
Lemma connect_while_connecting_opens_a_second_socket :
  sockets (@run Sim.platform ROS_CONFIG [Connect; Connect] initial_App) =
  [{| url := "ws://192.168.1.100:9090"; readyState := CONNECTING; sent := [] |};
   {| url := "ws://192.168.1.100:9090"; readyState := CONNECTING; sent := [] |}]
  /\ ws_current (@run Sim.platform ROS_CONFIG [Connect; Connect] initial_App) = Some 1
  /\ connectionStatus (@run Sim.platform ROS_CONFIG [Connect; Connect] initial_App) =
     "Connecting to ws://192.168.1.100:9090...".
Proof. repeat split. Qed.

(** Connect on a component that shows an error from before. *)
Lemma connect_clears_lastError_witness :
  lastError st_stale_error = JStr "Cannot send command: Not connected."
  /\ lastError (snd (@connectToRosbridge Sim.platform st_stale_error)) = JNull.
Proof.
  split; [reflexivity|].
  destruct (@connect_clears_lastError Sim.platform st_stale_error eq_refl)
    as (_ & Hok & _ & _).
  rewrite (Hok eq_refl). reflexivity.
Defined.

(** A late error event after Disconnect, and a late open event after a
    second Connect. *)
Lemma late_events_are_applied_witness :
  (let st := @run Sim.platform ROS_CONFIG [Connect; Disconnect] initial_App in
   @fire Sim.platform ROS_CONFIG (EvError 0 connection_refused) st =
   (Normal tt,
    with_lastError (JStr "WebSocket Error: Connection refused")
      (with_connectionStatus "Connection Error: Connection refused"
         (with_isConnected false st))))
  /\ (let st := @run Sim.platform ROS_CONFIG [Connect; Connect] initial_App in
      @fire Sim.platform ROS_CONFIG (EvOpen 0) st = (Normal tt, opened 0 st)).
Proof.
  split.
  - exact (proj1 (@late_events_are_applied Sim.platform ROS_CONFIG
                    (@run Sim.platform ROS_CONFIG [Connect; Disconnect] initial_App) 0)
                 connection_refused (JStr "Connection refused") eq_refl eq_refl).
  - destruct (@late_events_are_applied Sim.platform ROS_CONFIG
                (@run Sim.platform ROS_CONFIG [Connect; Connect] initial_App) 0)
      as (_ & _ & _ & _ & Hopen & _).
    apply Hopen.
    + discriminate.
    + reflexivity.
Defined.

(** The transport can raise an error event on socket 0 after Connect and
    Disconnect, and that event is not ignored: the status leaves
    ['Disconnected'] and an error is recorded. It can raise an open event
    on socket 0 after a second Connect has replaced it, and that event is
    not ignored either: the session is marked connected while the held
    socket 1 is still connecting. *)
Lemma late_events_change_the_state :
  (let st := @run Sim.platform ROS_CONFIG [Connect; Disconnect] initial_App in
   let st' := @run Sim.platform ROS_CONFIG [Transport (EvError 0 connection_refused)] st in
   can_raise (EvError 0 connection_refused) st = true
   /\ connectionStatus st = "Disconnected"
   /\ lastError st = JNull
   /\ connectionStatus st' = "Connection Error: Connection refused"
   /\ lastError st' = JStr "WebSocket Error: Connection refused")
  /\ (let st := @run Sim.platform ROS_CONFIG [Connect; Connect] initial_App in
      let st' := @run Sim.platform ROS_CONFIG [Transport (EvOpen 0)] st in
      can_raise (EvOpen 0) st = true
      /\ ws_current st = Some 1
      /\ isConnected st = false
      /\ isConnected st' = true
      /\ connectionStatus st' = "Connected to ROS Master via rosbridge").
Proof. cbv zeta. repeat split. Qed.



(* ================================================================== *)
(** * Further properties *)
(* ================================================================== *)

(* ------------------------------------------------------------------ *)
(** ** The yaw of a negated quaternion *)

(** Negating both factors leaves a float product as it is, bit for
    bit. *)
Lemma mul_opp_opp (a b : float) : (- a * - b = a * b)%float.
Proof.
  apply Prim2SF_inj.
  rewrite !mul_spec, !opp_spec.
  destruct (Prim2SF a) as [sa|sa| |sa ma ea], (Prim2SF b) as [sb|sb| |sb mb eb];
    cbn [SFopp SF64mul SFmul]; rewrite ?xorb_negb_negb; reflexivity.
Qed.

Lemma quaternionToYaw_quaternion `{Platform} (x y z w : float) :
  quaternionToYaw (quaternion x y z w) =
  Normal (JNum (Math_atan2 (2 * (w * z + x * y)) (1 - 2 * (y * y + z * z)))%float).
Proof. reflexivity. Qed.

(** (X1) A quaternion and its negation, which describe the same
    rotation, decode to the same yaw, bit for bit. *)
Theorem yaw_of_negated_quaternion `{Platform} (x y z w : float) :
  quaternionToYaw (quaternion (- x) (- y) (- z) (- w)) =
  quaternionToYaw (quaternion x y z w).
Proof.
  rewrite !quaternionToYaw_quaternion.
  rewrite !mul_opp_opp.
  reflexivity.
Qed.

(* ------------------------------------------------------------------ *)
(** ** The other branches of the dispatcher *)

Section Dispatch.
Context `{P : Platform}.
Variable cfg : RosConfig.


(** (X3) A [status] frame of the bridge whose level is ['error'] or
    ['warning'] sets the last error to ['ROS Bridge Error: '] followed by
    its [msg] as text, provided its [id] and its [msg] can be put in a
    template; if one of them cannot (an object with an own [toString]),
    the frame records the decode error. A [status] frame of any other
    level changes nothing. None touches the connection state or the
    telemetry. *)
Theorem bridge_status_frame_recorded (st : App) (message level : JsVal) :
  get message "op" = Normal (JStr "status") ->
  get message "level" = Normal level ->
  (strict_eq level (JStr "error") || strict_eq level (JStr "warning") = true ->
   converts (field message "id") && converts (field message "msg") = true ->
   onmessage cfg (Json message) st =
   (Normal tt,
    with_lastError (JStr ("ROS Bridge Error: " ++ text (field message "msg"))) st))
  /\ (forall description : string,
      strict_eq level (JStr "error") || strict_eq level (JStr "warning") = true ->
      converts (field message "id") = true ->
      field message "msg" = JStr description ->
      onmessage cfg (Json message) st =
      (Normal tt, with_lastError (JStr ("ROS Bridge Error: " ++ description)) st))
  /\ (strict_eq level (JStr "error") || strict_eq level (JStr "warning") = true ->
      converts (field message "id") && converts (field message "msg") = false ->
      onmessage cfg (Json message) st = (Normal tt, with_lastError decode_error st))
  /\ (strict_eq level (JStr "error") || strict_eq level (JStr "warning") = false ->
      onmessage cfg (Json message) st = (Normal tt, st)).
Proof.
  intros Hop Hlevel.
  destruct (get_normal_field _ _ _ Hop) as [Hobj _].
  assert (Hrun : strict_eq level (JStr "error") || strict_eq level (JStr "warning") = true ->
                 onmessage cfg (Json message) st =
                 (Normal tt,
                  if converts (field message "id") && converts (field message "msg")
                  then with_lastError
                         (JStr ("ROS Bridge Error: " ++ text (field message "msg"))) st
                  else with_lastError decode_error st)).
  { intros Hlev.
    assert (Hconv : converts level = true).
    { destruct level; try reflexivity; discriminate. }
    unfold onmessage, try_catch, dispatch.
    cbn [JSON_parse].
    rewrite (bind_lift_normal (Normal message) _ _ message eq_refl).
    rewrite (bind_lift_normal _ _ _ _ Hop).
    cbn [strict_eq String.eqb Ascii.eqb Bool.eqb].
    rewrite (bind_lift_normal _ _ _ _ Hlevel).
    rewrite Hlev.
    rewrite bind_ToString, Hconv.
    rewrite bind_get, Hobj.
    rewrite bind_ToString.
    destruct (converts (field message "id")); [|reflexivity].
    rewrite bind_get, Hobj.
    rewrite bind_ToString.
    destruct (converts (field message "msg")) eqn:Hmsg; [|reflexivity].
    unfold bind at 1, console_error, ret.
    rewrite bind_get, Hobj.
    rewrite bind_ToString, Hmsg.
    reflexivity. }
  split; [intros Hlev Hconv; rewrite (Hrun Hlev), Hconv; reflexivity|].
  split.
  { intros description Hlev Hid Hmsg. rewrite (Hrun Hlev), Hid, Hmsg. reflexivity. }
  split; [intros Hlev Hconv; rewrite (Hrun Hlev), Hconv; reflexivity|].
  intros Hlev.
  unfold onmessage, try_catch, dispatch.
  cbn [JSON_parse].
  rewrite (bind_lift_normal (Normal message) _ _ message eq_refl).
  rewrite (bind_lift_normal _ _ _ _ Hop).
  cbn [strict_eq String.eqb Ascii.eqb Bool.eqb].
  rewrite (bind_lift_normal _ _ _ _ Hlevel).
  rewrite Hlev. reflexivity.
Qed.

(** (X4) The frames the dispatcher ignores: a frame whose [op] is
    neither ['publish'] nor ['status'] (a JSON number, string, boolean or
    array among them), and a [publish] frame whose topic is none of the
    three configured ones, change nothing at all, whatever they carry.
    With the table as shipped that includes every frame addressed to
    ['/odom']. The JSON text [null] is not ignored: it records the decode
    error. *)
Theorem ignored_frames (st : App) :
  (forall message op : JsVal,
      get message "op" = Normal op ->
      strict_eq op (JStr "publish") = false ->
      strict_eq op (JStr "status") = false ->
      onmessage cfg (Json message) st = (Normal tt, st))
  /\ (forall message topic : JsVal,
      get message "op" = Normal (JStr "publish") ->
      get message "topic" = Normal topic ->
      strict_eq topic (batteryStatus (topics cfg)) = false ->
      strict_eq topic (topic_odometry (topics cfg)) = false ->
      strict_eq topic (robotStatus (topics cfg)) = false ->
      onmessage cfg (Json message) st = (Normal tt, st))
  /\ (forall message : JsVal,
      get message "op" = Normal (JStr "publish") ->
      get message "topic" = Normal (JStr "/odom") ->
      onmessage ROS_CONFIG (Json message) st = (Normal tt, st))
  /\ onmessage cfg (Json JNull) st = (Normal tt, with_lastError decode_error st).
Proof.
  assert (Hunmatched : forall (c : RosConfig) (message topic : JsVal),
      get message "op" = Normal (JStr "publish") ->
      get message "topic" = Normal topic ->
      strict_eq topic (batteryStatus (topics c)) = false ->
      strict_eq topic (topic_odometry (topics c)) = false ->
      strict_eq topic (robotStatus (topics c)) = false ->
      onmessage c (Json message) st = (Normal tt, st)).
  { intros c message topic Hop Htopic Hbat Hodom Hstatus.
    unfold onmessage, try_catch, dispatch.
    cbn [JSON_parse].
    rewrite (bind_lift_normal (Normal message) _ _ message eq_refl).
    rewrite (bind_lift_normal _ _ _ _ Hop).
    cbn [strict_eq String.eqb Ascii.eqb Bool.eqb].
    rewrite (bind_lift_normal _ _ _ _ Htopic).
    rewrite Hbat, Hodom, Hstatus. reflexivity. }
  split; [|split; [|split]].
  - intros message op Hop Hpub Hstat.
    unfold onmessage, try_catch, dispatch.
    cbn [JSON_parse].
    rewrite (bind_lift_normal (Normal message) _ _ message eq_refl).
    rewrite (bind_lift_normal _ _ _ _ Hop).
    rewrite Hpub, Hstat. reflexivity.
  - apply Hunmatched.
  - intros message Hop Htopic.
    apply (Hunmatched ROS_CONFIG message (JStr "/odom") Hop Htopic); reflexivity.
  - reflexivity.
Qed.

End Dispatch.

(* ------------------------------------------------------------------ *)
(** ** What an inbound frame leaves alone *)

Lemma keeps_connection_ret {A} (a : A) : keeps_connection (ret a).
Proof. intros st; reflexivity. Qed.

Lemma keeps_connection_lift {A} (c : Completion A) : keeps_connection (lift c).
Proof. intros st; reflexivity. Qed.

Lemma keeps_connection_bind {A B} (c : M A) (k : A -> M B) :
  keeps_connection c -> (forall a, keeps_connection (k a)) ->
  keeps_connection (bind c k).
Proof.
  intros Hc Hk st. unfold bind.
  specialize (Hc st).
  destruct (c st) as [[a|e] st1]; cbn [snd] in *.
  - rewrite Hk. exact Hc.
  - exact Hc.
Qed.

Lemma keeps_connection_try_catch {A} (body : M A) (handler : Exn -> M A) :
  keeps_connection body -> (forall e, keeps_connection (handler e)) ->
  keeps_connection (try_catch body handler).
Proof.
  intros Hb Hh st. unfold try_catch.
  specialize (Hb st).
  destruct (body st) as [[a|e] st1]; cbn [snd] in *.
  - exact Hb.
  - rewrite Hh. exact Hb.
Qed.

Lemma keeps_connection_setLastError (v : JsVal) : keeps_connection (setLastError v).
Proof. intros st; reflexivity. Qed.

Lemma keeps_connection_setBatteryPercentage (v : JsVal) :
  keeps_connection (setBatteryPercentage v).
Proof. intros st; reflexivity. Qed.

Lemma keeps_connection_setOdometry (v : JsVal) : keeps_connection (setOdometry v).
Proof. intros st; reflexivity. Qed.

Lemma keeps_connection_setRobotStatusText (v : JsVal) :
  keeps_connection (setRobotStatusText v).
Proof. intros st; reflexivity. Qed.

Lemma onmessage_keeps_connection `{Platform} (cfg : RosConfig) (data : Text) :
  keeps_connection (onmessage cfg data).
Proof.
  unfold onmessage, dispatch.
  apply keeps_connection_try_catch; [|intros; apply keeps_connection_setLastError].
  repeat first
    [ apply keeps_connection_ret
    | apply keeps_connection_lift
    | apply keeps_connection_setLastError
    | apply keeps_connection_setBatteryPercentage
    | apply keeps_connection_setOdometry
    | apply keeps_connection_setRobotStatusText
    | apply keeps_connection_bind; [|intros]
    | match goal with
      | |- keeps_connection (if ?b then _ else _) => destruct b
      end ].
Qed.

(** (X5) No inbound frame, well-formed or not, changes the URL, the
    connected flag, the status line, the socket reference, any socket or
    the frames sent on it, the id counter or the alerts: a frame can only
    write the telemetry fields and the last error, and the component
    never answers a frame. *)
Theorem inbound_frames_keep_the_connection `{Platform}
        (cfg : RosConfig) (data : Text) (st : App) :
  connection_part (snd (onmessage cfg data st)) = connection_part st.
Proof. apply onmessage_keeps_connection. Qed.

(* ------------------------------------------------------------------ *)
(** ** The close event *)

Section CloseEvent.
Context `{P : Platform}.
Variable cfg : RosConfig.

(** (X6) A close event, from the held socket or from any other, marks
    the session disconnected with status ['Disconnected (code)'] (['N/A']
    for a missing or zero code) and clears the socket reference. It does
    not reset the telemetry or the last error, and it closes no other
    socket: a socket that was held and open stays open in the store, but
    since the reference is gone every later publish only records
    ['Cannot send command: Not connected.']. That is so for every event
    whose [code] can be put in the status template, as a number, a
    string or a missing code can; for a [code] that cannot, the handler
    ends with a [TypeError] after marking the session disconnected, and
    the reference is kept. *)
Theorem close_event_applied (st : App) (r : nat) (event : JsVal) :
  nullish event = false ->
  (converts (field event "code") = true ->
   let st' := closed_by_event r event st in
   fire cfg (EvClose r event) st = (Normal tt, st')
   /\ batteryPercentage st' = batteryPercentage st
   /\ odometry st' = odometry st
   /\ robotStatusText st' = robotStatusText st
   /\ lastError st' = lastError st
   /\ (forall c : nat, c <> r -> nth_error (sockets st') c = nth_error (sockets st) c)
   /\ (forall topicName messageType payload : JsVal,
       publishMessage topicName messageType payload st' =
       (Normal tt, with_lastError (JStr "Cannot send command: Not connected.") st')))
  /\ (forall code : float,
      field event "code" = JNum code ->
      PrimFloat.is_zero code || PrimFloat.is_nan code = false ->
      connectionStatus (snd (fire cfg (EvClose r event) st)) =
      "Disconnected (" ++ NumberToString code ++ ")")
  /\ (field event "code" = JUndefined ->
      connectionStatus (snd (fire cfg (EvClose r event) st)) = "Disconnected (N/A)")
  /\ (converts (field event "code") = false ->
      fire cfg (EvClose r event) st =
      (Throw TypeError,
       with_isConnected false
         (with_sockets (update_socket r (socket_with_readyState CLOSED) (sockets st)) st))).
Proof.
  intros Hev.
  assert (Hfire : converts (field event "code") = true ->
                  fire cfg (EvClose r event) st = (Normal tt, closed_by_event r event st)).
  { intros Hcode. rewrite fire_close_eq. unfold unreadable. rewrite Hev, Hcode. reflexivity. }
  split; [|split; [|split]].
  - intros Hcode st'.
    split; [now apply Hfire|].
    repeat (split; [reflexivity|]).
    split.
    + intros c Hne. unfold st', closed_by_event; cbn [sockets with_ws_current
        with_connectionStatus with_isConnected with_sockets].
      apply nth_error_update_socket_other. congruence.
    + intros topicName messageType payload.
      reflexivity.
  - intros code Hcode Htruthy.
    rewrite Hfire by (rewrite Hcode; reflexivity).
    unfold closed_by_event, js_or. rewrite Hcode. cbn [ToBoolean]. rewrite Htruthy.
    reflexivity.
  - intros Hcode.
    rewrite Hfire by (rewrite Hcode; reflexivity).
    unfold closed_by_event. rewrite Hcode. reflexivity.
  - intros Hcode. rewrite fire_close_eq. unfold unreadable. rewrite Hev, Hcode. reflexivity.
Qed.

End CloseEvent.

(* ------------------------------------------------------------------ *)
(** ** The command buttons *)

Section Commands.
Context `{P : Platform}.
Variable cfg : RosConfig.


Lemma sendPredefinedCommand_eq (commandConfig : JsVal) (st : App) :
  nullish commandConfig = false ->
  sendPredefinedCommand cfg commandConfig st =
  (publishMessage (field commandConfig "topic") (stringMsg (messageTypes cfg))
                  (field commandConfig "message") ;;;
   topic_text <- lift (ToString (field commandConfig "topic")) ;;
   Alert_alert "Command Sent" ("Command for " ++ topic_text ++ " sent.")) st.
Proof.
  intros Hobj. unfold sendPredefinedCommand.
  rewrite bind_get, Hobj. rewrite bind_get, Hobj.
  apply bind_ext. intros [] st1.
  rewrite bind_get, Hobj. reflexivity.
Qed.


End Commands.

(* ------------------------------------------------------------------ *)
(** ** Subscribing and unsubscribing on an open connection *)

Section Subscriptions.
Context `{P : Platform}.

Lemma unsubscribeFromTopic_open (topicName : JsVal) (st : App) (r : nat) :
  ws_current st = Some r ->
  ws_open st = true ->
  unsubscribeFromTopic topicName st =
  (if converts topicName then Normal tt else Throw TypeError,
   pushed r (JSON_stringify
               (unsubscribeMsg (JStr (generateUniqueID_at (ids_generated st))) topicName)) st).
Proof.
  intros Hcur Hopen.
  unfold unsubscribeFromTopic.
  rewrite (bind_normal (gets ws_open) _ st st true) by (unfold gets; now rewrite Hopen).
  rewrite (send_fresh_open_then (fun id => JSON_stringify (unsubscribeMsg id topicName))
             _ st r Hcur Hopen).
  apply (log_template topicName (fun t => "Unsubscribed from " ++ t)).
Qed.

(** (X8) While the connection is open, [subscribeToTopic] and
    [unsubscribeFromTopic] each hand exactly one frame to the held
    socket and draw exactly one id. For a topic and type given as
    strings the subscribe frame is [{op, id, topic, type, throttle_rate}]
    and the unsubscribe frame [{op, id, topic}]. The throttle rate
    defaults to 200 only when the argument is [undefined]: any other
    value is sent as [JSON.stringify] writes it, so [null] is sent as
    [null]. *)
Theorem subscriptions_on_open_connection (st : App) (r : nat) (topicName messageType : string) :
  ws_current st = Some r ->
  ws_open st = true ->
  let id := JStr (generateUniqueID_at (ids_generated st)) in
  let subscribe_with (rate : JsVal) :=
    Json (JObj [("op", JStr "subscribe"); ("id", id); ("topic", JStr topicName);
                ("type", JStr messageType); ("throttle_rate", rate)]) in
  subscribeToTopic (JStr topicName) (JStr messageType) JUndefined st =
  (Normal tt, pushed r (subscribe_with (JNum 200)) st)
  /\ (forall rate : JsVal,
      strict_eq rate JUndefined = false ->
      subscribeToTopic (JStr topicName) (JStr messageType) rate st =
      (Normal tt, pushed r (subscribe_with (json_of rate)) st))
  /\ subscribeToTopic (JStr topicName) (JStr messageType) JNull st =
     (Normal tt, pushed r (subscribe_with JNull) st)
  /\ unsubscribeFromTopic (JStr topicName) st =
     (Normal tt,
      pushed r (Json (JObj [("op", JStr "unsubscribe"); ("id", id);
                            ("topic", JStr topicName)])) st).
Proof.
  intros Hcur Hopen id subscribe_with.
  split; [|split; [|split]].
  - rewrite (subscribeToTopic_open _ _ _ st r Hcur Hopen). reflexivity.
  - intros rate Hrate.
    rewrite (subscribeToTopic_open _ _ _ st r Hcur Hopen).
    destruct rate; try discriminate; reflexivity.
  - rewrite (subscribeToTopic_open _ _ _ st r Hcur Hopen). reflexivity.
  - rewrite (unsubscribeFromTopic_open _ st r Hcur Hopen). reflexivity.
Qed.

End Subscriptions.

(* ------------------------------------------------------------------ *)
(** ** What any call does to the reference, the store and the ids *)

Section Wire.
Context `{P : Platform}.

Lemma wire_steps_one (a b : App) : wire_step a b -> wire_steps a b.
Proof. intros H. eapply wire_then; [exact H | apply wire_done]. Qed.

Lemma wire_steps_trans (a b c : App) :
  wire_steps a b -> wire_steps b c -> wire_steps a c.
Proof.
  induction 1 as [|a a' b Hstep _ IH]; intros Hbc; [exact Hbc|].
  eapply wire_then; [exact Hstep | now apply IH].
Qed.

Lemma wired_ret {A} (a : A) : wired (ret a).
Proof. intros st; apply wire_done. Qed.

Lemma wired_lift {A} (c : Completion A) : wired (lift c).
Proof. intros st; apply wire_done. Qed.

Lemma wired_bind {A B} (c : M A) (k : A -> M B) :
  wired c -> (forall a, wired (k a)) -> wired (bind c k).
Proof.
  intros Hc Hk st. unfold bind.
  specialize (Hc st).
  destruct (c st) as [[a|e] st1]; cbn [snd] in *.
  - eapply wire_steps_trans; [exact Hc | apply Hk].
  - exact Hc.
Qed.

Lemma wired_try_catch {A} (body : M A) (handler : Exn -> M A) :
  wired body -> (forall e, wired (handler e)) -> wired (try_catch body handler).
Proof.
  intros Hb Hh st. unfold try_catch.
  specialize (Hb st).
  destruct (body st) as [[a|e] st1]; cbn [snd] in *.
  - exact Hb.
  - eapply wire_steps_trans; [exact Hb | apply Hh].
Qed.

Lemma wired_keeps_connection {A} (c : M A) : keeps_connection c -> wired c.
Proof.
  intros Hc st. specialize (Hc st).
  unfold connection_part in Hc. injection Hc as _ _ _ Hcur Hsock Hids _.
  apply wire_steps_one, wire_keep; assumption.
Qed.

Lemma wired_modify (f : App -> App) :
  (forall st, ws_current (f st) = ws_current st) ->
  (forall st, sockets (f st) = sockets st) ->
  (forall st, ids_generated (f st) = ids_generated st) ->
  wired (modify f).
Proof.
  intros Hc Hs Hi st. apply wire_steps_one, wire_keep; cbn [snd modify]; auto.
Qed.

Lemma frame_id_subscribe (s : string) (topicName messageType throttleRate : JsVal) :
  frame_id (JSON_stringify (subscribeMsg (JStr s) topicName messageType throttleRate)) = JStr s.
Proof. destruct topicName, messageType, throttleRate; reflexivity. Qed.

Lemma frame_id_unsubscribe (s : string) (topicName : JsVal) :
  frame_id (JSON_stringify (unsubscribeMsg (JStr s) topicName)) = JStr s.
Proof. destruct topicName; reflexivity. Qed.

Lemma frame_id_publish (s : string) (topicName payload messageType : JsVal) :
  frame_id (JSON_stringify (publishMsg (JStr s) topicName payload messageType)) = JStr s.
Proof. destruct topicName, payload, messageType; reflexivity. Qed.

(** Sending a frame that carries the id just drawn, behind the guard
    that the held socket is open. *)
Lemma wired_guarded_send (mk : JsVal -> Text) (otherwise : M unit) :
  (forall s, frame_id (mk (JStr s)) = JStr s) ->
  wired otherwise ->
  wired (open <- gets ws_open ;;
         if open then (id <- generateUniqueID ;; ws_current_send (mk id)) else otherwise).
Proof.
  intros Hid Helse st.
  destruct (ws_open st) eqn:Hopen.
  - rewrite (bind_normal (gets ws_open) _ st st true) by (unfold gets; now rewrite Hopen).
    destruct (proj1 (ws_open_spec st) Hopen) as (r & s & Hcur & Hs & Hrs).
    rewrite (send_fresh_open mk st r Hcur Hopen). cbn [snd].
    apply wire_steps_one.
    apply (wire_push st _ r s (mk (JStr (generateUniqueID_at (ids_generated st)))));
      auto; reflexivity.
  - rewrite (bind_normal (gets ws_open) _ st st false) by (unfold gets; now rewrite Hopen).
    apply Helse.
Qed.

(** The same with what follows the [send]. *)
Lemma wired_guarded_send_then (mk : JsVal -> Text) (after otherwise : M unit) :
  (forall s, frame_id (mk (JStr s)) = JStr s) ->
  wired after -> wired otherwise ->
  wired (open <- gets ws_open ;;
         if open then (id <- generateUniqueID ;; ws_current_send (mk id) ;;; after)
         else otherwise).
Proof.
  intros Hid Hafter Helse st.
  destruct (ws_open st) eqn:Hopen.
  - rewrite (bind_normal (gets ws_open) _ st st true) by (unfold gets; now rewrite Hopen).
    destruct (proj1 (ws_open_spec st) Hopen) as (r & s & Hcur & Hs & Hrs).
    rewrite (send_fresh_open_then mk after st r Hcur Hopen).
    eapply wire_then; [|apply Hafter].
    apply (wire_push st _ r s (mk (JStr (generateUniqueID_at (ids_generated st)))));
      auto; reflexivity.
  - rewrite (bind_normal (gets ws_open) _ st st false) by (unfold gets; now rewrite Hopen).
    apply Helse.
Qed.

Lemma wired_log_template (v : JsVal) (line : string -> string) :
  wired (value_text <- lift (ToString v) ;; console_log (line value_text)).
Proof. intros st. rewrite log_template. apply wire_done. Qed.

Lemma wired_subscribeToTopic (topicName messageType throttleRate : JsVal) :
  wired (subscribeToTopic topicName messageType throttleRate).
Proof.
  unfold subscribeToTopic.
  apply (wired_guarded_send_then
           (fun id => JSON_stringify
                        (subscribeMsg id topicName messageType
                                      (default_arg throttleRate (JNum 200))))).
  - intros s. apply frame_id_subscribe.
  - apply (wired_log_template topicName (fun t => "Subscribed to " ++ t)).
  - apply wired_ret.
Qed.

Lemma wired_unsubscribeFromTopic (topicName : JsVal) :
  wired (unsubscribeFromTopic topicName).
Proof.
  unfold unsubscribeFromTopic.
  apply (wired_guarded_send_then (fun id => JSON_stringify (unsubscribeMsg id topicName))).
  - intros s. apply frame_id_unsubscribe.
  - apply (wired_log_template topicName (fun t => "Unsubscribed from " ++ t)).
  - apply wired_ret.
Qed.

Lemma wired_publishMessage (topicName messageType payload : JsVal) :
  wired (publishMessage topicName messageType payload).
Proof.
  unfold publishMessage.
  apply (wired_guarded_send
           (fun id => JSON_stringify (publishMsg id topicName payload messageType))).
  - intros s. apply frame_id_publish.
  - apply wired_modify; reflexivity.
Qed.

Lemma wired_Alert_alert (title message : string) : wired (Alert_alert title message).
Proof. intros st. apply wire_steps_one, wire_keep; reflexivity. Qed.

Lemma wired_ws_current_close : wired ws_current_close.
Proof.
  intros st. unfold ws_current_close.
  destruct (ws_current st) as [r|] eqn:Hcur; cbn [snd].
  - apply wire_steps_one.
    apply (wire_socket_state st _ r socket_close); try reflexivity.
    + intros [u [] snt]; reflexivity.
    + intros [u [] snt]; reflexivity.
  - apply wire_done.
Qed.

Lemma wired_set_readyState (r : nat) (rs : ReadyState) :
  wired (fun st =>
           (Normal tt,
            with_sockets (update_socket r (socket_with_readyState rs) (sockets st)) st)).
Proof.
  intros st. apply wire_steps_one.
  apply (wire_socket_state st _ r (socket_with_readyState rs)); reflexivity.
Qed.

Lemma wired_connectToRosbridge : wired connectToRosbridge.
Proof.
  unfold connectToRosbridge.
  apply wired_bind; [intros st; apply wire_done|]. intros open.
  destruct open; [apply wired_modify; reflexivity|].
  apply wired_bind; [intros st; apply wire_done|]. intros u.
  apply wired_bind; [apply wired_modify; reflexivity|]. intros _.
  apply wired_bind; [apply wired_modify; reflexivity|]. intros _.
  apply wired_try_catch.
  - intros st. unfold bind, new_WebSocket, modify.
    destruct (WebSocket_ctor_error u) as [m|]; cbn [snd].
    + apply wire_done.
    + apply wire_steps_one. apply (wire_new st _ u); reflexivity.
  - intros e.
    apply wired_bind; [apply wired_modify; reflexivity|]. intros _.
    apply wired_modify; reflexivity.
Qed.

Ltac wired_tac :=
  repeat lazymatch goal with
    | |- wired (ret _) => apply wired_ret
    | |- wired (lift _) => apply wired_lift
    | |- wired (subscribeToTopic _ _ _) => apply wired_subscribeToTopic
    | |- wired (unsubscribeFromTopic _) => apply wired_unsubscribeFromTopic
    | |- wired (publishMessage _ _ _) => apply wired_publishMessage
    | |- wired (sendTwistCommand _ _ _) => apply wired_publishMessage
    | |- wired (Alert_alert _ _) => apply wired_Alert_alert
    | |- wired ws_current_close => apply wired_ws_current_close
    | |- wired connectToRosbridge => apply wired_connectToRosbridge
    | |- wired (onmessage _ _) => apply wired_keeps_connection, onmessage_keeps_connection
    | |- wired (modify _) => apply wired_modify; reflexivity
    | |- wired (bind _ _) => apply wired_bind; [|intros ?]
    | |- wired (fun st => (Normal tt, _)) => apply wired_set_readyState
    end.

(** The footprint of every call. *)
Lemma call_is_wired (cfg : RosConfig) (c : Call) : wired (call cfg c).
Proof.
  destruct c as [[| |l a| |[r|r data|r error|r event]]| | | | | |]; cbn [call act fire];
    unfold disconnectFromRosbridge, sendTwistCommand, handleEmergencyStop,
      sendPredefinedCommand, onopen, onerror, onclose, subscribeToTopics,
      unmount_cleanup, setRosbridgeUrl, setIsConnected, setConnectionStatus,
      setLastError, setBatteryPercentage, setOdometry, setRobotStatusText;
    wired_tac.
  intros st. apply wire_steps_one, wire_clear; reflexivity.
Qed.

Lemma run_calls_wire_steps (cfg : RosConfig) (calls : list Call) (st : App) :
  wire_steps st (run_calls cfg calls st).
Proof.
  revert st; induction calls as [|c rest IH]; intros st; cbn [run_calls].
  - apply wire_done.
  - eapply wire_steps_trans; [apply call_is_wired | apply IH].
Qed.

End Wire.

(* ------------------------------------------------------------------ *)
(** ** Every frame has its own id *)

Section Ids.
Context `{P : Platform}.

Lemma frame_ids_update_socket (r : nat) (f : WebSocket -> WebSocket) (store : list WebSocket) :
  (forall s, sent (f s) = sent s) ->
  List.concat (map (fun s => map frame_id (sent s)) (update_socket r f store)) =
  List.concat (map (fun s => map frame_id (sent s)) store).
Proof.
  intros Hsent. revert r.
  induction store as [|s rest IH]; intros [|r]; cbn [update_socket map List.concat];
    try reflexivity.
  - now rewrite Hsent.
  - now rewrite IH.
Qed.

Lemma frame_ids_push (r : nat) (f : Text) (store : list WebSocket) (s : WebSocket) :
  nth_error store r = Some s ->
  Permutation
    (List.concat (map (fun s => map frame_id (sent s)) (update_socket r (socket_push f) store)))
    (List.concat (map (fun s => map frame_id (sent s)) store) ++ [frame_id f])%list.
Proof.
  revert r. induction store as [|s0 rest IH]; intros [|r] Hs; try discriminate.
  - cbn [update_socket map List.concat socket_push sent].
    rewrite map_app. cbn [map].
    rewrite <- !app_assoc.
    apply Permutation_app_head, Permutation_app_comm.
  - cbn [update_socket map List.concat].
    rewrite <- app_assoc.
    apply Permutation_app_head.
    now apply IH.
Qed.

Lemma wire_step_ids_accounted (st st' : App) :
  wire_step st st' -> ids_accounted st -> ids_accounted st'.
Proof.
  unfold ids_accounted, all_frame_ids, generated_ids.
  intros [Hc Hs Hi | Hc Hs Hi | r f Hu Hsent Hc Hs Hi | u Hc Hs Hi
         | r s f Hcur Hnth Hrs Hid Hc Hs Hi] Hacc; rewrite Hs, Hi.
  - exact Hacc.
  - exact Hacc.
  - rewrite frame_ids_update_socket by assumption. exact Hacc.
  - rewrite map_app, concat_app. cbn [map List.concat sent].
    rewrite !app_nil_r. exact Hacc.
  - rewrite seq_S, map_app. cbn [map Nat.add].
    eapply Permutation_trans; [apply (frame_ids_push r f _ s Hnth)|].
    rewrite Hid.
    now apply Permutation_app_tail.
Qed.

Lemma wire_steps_ids_accounted (st st' : App) :
  wire_steps st st' -> ids_accounted st -> ids_accounted st'.
Proof.
  induction 1 as [|a b c Hstep _ IH]; intros Hacc; [exact Hacc|].
  apply IH. eapply wire_step_ids_accounted; eassumption.
Qed.

(** (X10) Whatever is called, in whatever order, every id the generator
    has produced is carried by exactly one frame that was handed to a
    socket, and every such frame carries one of them: the ids of all
    sent frames are a rearrangement of the generated ids. So the number
    of frames sent in a session is the number of ids generated, and the
    frames have pairwise different ids whenever the generated ids are
    pairwise different. *)
Theorem every_frame_has_its_own_id (cfg : RosConfig) (calls : list Call) :
  (forall st : App, ids_accounted st -> ids_accounted (run_calls cfg calls st))
  /\ Permutation (all_frame_ids (run_calls cfg calls initial_App))
                 (generated_ids (run_calls cfg calls initial_App))
  /\ List.length (all_frame_ids (run_calls cfg calls initial_App)) =
     ids_generated (run_calls cfg calls initial_App)
  /\ (NoDup (generated_ids (run_calls cfg calls initial_App)) ->
      NoDup (all_frame_ids (run_calls cfg calls initial_App))).
Proof.
  assert (Hkeep : forall st, ids_accounted st -> ids_accounted (run_calls cfg calls st)).
  { intros st. apply wire_steps_ids_accounted, run_calls_wire_steps. }
  assert (Hinit : ids_accounted (run_calls cfg calls initial_App)).
  { apply Hkeep. apply Permutation_refl. }
  split; [exact Hkeep|].
  split; [exact Hinit|].
  split.
  - rewrite (Permutation_length Hinit).
    unfold generated_ids. now rewrite length_map, length_seq.
  - intros Hnodup.
    apply (Permutation_NoDup (Permutation_sym Hinit) Hnodup).
Qed.

End Ids.

(* ------------------------------------------------------------------ *)
(** ** The exceptions that leave a handler *)

Section Exceptions.
Context `{P : Platform}.

Lemma never_throws_ret {A} (a : A) : never_throws (ret a).
Proof. intros st; exists a; reflexivity. Qed.

Lemma never_throws_modify (f : App -> App) : never_throws (modify f).
Proof. intros st; exists tt; reflexivity. Qed.

Lemma never_throws_gets {A} (f : App -> A) : never_throws (gets f).
Proof. intros st; exists (f st); reflexivity. Qed.

Lemma never_throws_bind {A B} (c : M A) (k : A -> M B) :
  never_throws c -> (forall a, never_throws (k a)) -> never_throws (bind c k).
Proof.
  intros Hc Hk st. unfold bind.
  destruct (Hc st) as [a Ha].
  destruct (c st) as [[a'|e] st1]; cbn [fst] in Ha; [|discriminate].
  apply Hk.
Qed.

Lemma never_throws_guarded_send (mk : JsVal -> Text) (otherwise : M unit) :
  never_throws otherwise ->
  never_throws (open <- gets ws_open ;;
                if open then (id <- generateUniqueID ;; ws_current_send (mk id))
                else otherwise).
Proof.
  intros Helse st.
  destruct (ws_open st) eqn:Hopen.
  - rewrite (bind_normal (gets ws_open) _ st st true) by (unfold gets; now rewrite Hopen).
    destruct (proj1 (ws_open_spec st) Hopen) as (r & s & Hcur & Hs & Hrs).
    rewrite (send_fresh_open mk st r Hcur Hopen). exists tt; reflexivity.
  - rewrite (bind_normal (gets ws_open) _ st st false) by (unfold gets; now rewrite Hopen).
    apply Helse.
Qed.

Lemma unsubscribeFromTopic_closed (topicName : JsVal) (st : App) :
  ws_open st = false ->
  unsubscribeFromTopic topicName st = (Normal tt, st).
Proof.
  intros Hclosed.
  unfold unsubscribeFromTopic, bind, gets.
  rewrite Hclosed. reflexivity.
Qed.

(** [subscribeToTopic] and [unsubscribeFromTopic] end normally unless a
    frame was sent for a topic name that cannot be logged. *)
Lemma subscribeToTopic_completion (topicName messageType throttleRate : JsVal) (st : App) :
  fst (subscribeToTopic topicName messageType throttleRate st) =
  if ws_open st && negb (converts topicName) then Throw TypeError else Normal tt.
Proof.
  destruct (ws_open st) eqn:Hopen.
  - destruct (proj1 (ws_open_spec st) Hopen) as (r & s & Hcur & _).
    rewrite (subscribeToTopic_open _ _ _ st r Hcur Hopen).
    destruct (converts topicName); reflexivity.
  - rewrite subscribeToTopic_closed by assumption. reflexivity.
Qed.

Lemma unsubscribeFromTopic_completion (topicName : JsVal) (st : App) :
  fst (unsubscribeFromTopic topicName st) =
  if ws_open st && negb (converts topicName) then Throw TypeError else Normal tt.
Proof.
  destruct (ws_open st) eqn:Hopen.
  - destruct (proj1 (ws_open_spec st) Hopen) as (r & s & Hcur & _).
    rewrite (unsubscribeFromTopic_open _ st r Hcur Hopen).
    destruct (converts topicName); reflexivity.
  - rewrite unsubscribeFromTopic_closed by assumption. reflexivity.
Qed.

Lemma never_throws_subscribeToTopic (topicName messageType throttleRate : JsVal) :
  converts topicName = true ->
  never_throws (subscribeToTopic topicName messageType throttleRate).
Proof.
  intros Hconv st. exists tt.
  rewrite subscribeToTopic_completion, Hconv, andb_false_r. reflexivity.
Qed.

Lemma never_throws_publishMessage (topicName messageType payload : JsVal) :
  never_throws (publishMessage topicName messageType payload).
Proof.
  unfold publishMessage.
  apply (never_throws_guarded_send
           (fun id => JSON_stringify (publishMsg id topicName payload messageType))).
  apply never_throws_modify.
Qed.

Lemma never_throws_Alert_alert (title message : string) :
  never_throws (Alert_alert title message).
Proof. intros st; exists tt; reflexivity. Qed.

Lemma never_throws_ws_current_close : never_throws ws_current_close.
Proof.
  intros st. unfold ws_current_close.
  destruct (ws_current st); exists tt; reflexivity.
Qed.

Lemma never_throws_connectToRosbridge : never_throws connectToRosbridge.
Proof.
  intros st. unfold connectToRosbridge, bind, gets, try_catch, new_WebSocket.
  destruct (ws_open st); cbn; [exists tt; reflexivity|].
  destruct (WebSocket_ctor_error (rosbridgeUrl st)); exists tt; reflexivity.
Qed.

Lemma never_throws_onmessage (cfg : RosConfig) (data : Text) :
  never_throws (onmessage cfg data).
Proof. intros st; exists tt; apply onmessage_never_throws. Qed.

Lemma never_throws_unit (c : M unit) (st : App) :
  never_throws c -> fst (c st) = Normal tt.
Proof. intros H. destruct (H st) as [[] Ha]. exact Ha. Qed.

Ltac never_throws_tac :=
  repeat lazymatch goal with
    | |- never_throws (ret _) => apply never_throws_ret
    | |- never_throws (subscribeToTopic _ _ _) =>
        apply never_throws_subscribeToTopic; assumption
    | |- never_throws (publishMessage _ _ _) => apply never_throws_publishMessage
    | |- never_throws (sendTwistCommand _ _ _) => apply never_throws_publishMessage
    | |- never_throws (Alert_alert _ _) => apply never_throws_Alert_alert
    | |- never_throws ws_current_close => apply never_throws_ws_current_close
    | |- never_throws connectToRosbridge => apply never_throws_connectToRosbridge
    | |- never_throws (onmessage _ _) => apply never_throws_onmessage
    | |- never_throws (modify _) => apply never_throws_modify
    | |- never_throws (gets _) => apply never_throws_gets
    | |- never_throws (bind _ _) => apply never_throws_bind; [|intros ?]
    | |- never_throws (fun st => (Normal tt, _)) => intros ?; exists tt; reflexivity
    end.

(** (X9) Which calls throw, for a table whose topic names are strings
    or missing: a handler lets an exception out exactly when a value it
    reads a property of, or puts in a template literal, cannot be read.
    That is the event object of an error or close event that is [null]
    or [undefined] or whose [message] or [code] does not convert to
    text; the argument of [sendPredefinedCommand] that is [null] or
    [undefined] or whose [topic] does not convert; and the topic name of
    [subscribeToTopic] or [unsubscribeFromTopic] that does not convert,
    once the connection is open and the frame has been sent. The
    exception is then a [TypeError]. Every other call returns normally
    from every state; in particular [send] is never reached on a socket
    that is still connecting. *)
Theorem escaping_exceptions (cfg : RosConfig) (c : Call) (st : App) :
  topics_convert cfg = true ->
  fst (call cfg c st) =
  if throwing_call c (ws_open st) then Throw TypeError else Normal tt.
Proof.
  intros Hcfg.
  unfold topics_convert in Hcfg.
  apply andb_prop in Hcfg. destruct Hcfg as [Hcfg Hstatus].
  apply andb_prop in Hcfg. destruct Hcfg as [Hbattery Hodometry].
  destruct c as [[| |l a| |[r|r data|r error|r event]]|t ty thr|t| | | |];
    cbn [call act fire throwing_call];
    try (apply never_throws_unit;
         unfold disconnectFromRosbridge, sendTwistCommand, handleEmergencyStop,
           onopen, subscribeToTopics, unmount_cleanup, setRosbridgeUrl, setIsConnected,
           setConnectionStatus, setLastError, setBatteryPercentage, setOdometry,
           setRobotStatusText;
         never_throws_tac).
  - rewrite onerror_eq. destruct (unreadable error "message"); reflexivity.
  - change (fst (fire cfg (EvClose r event) st) =
            if unreadable event "code" then Throw TypeError else Normal tt).
    rewrite fire_close_eq. destruct (unreadable event "code"); reflexivity.
  - apply subscribeToTopic_completion.
  - apply unsubscribeFromTopic_completion.
  - unfold unreadable.
    destruct (nullish commandConfig) eqn:Hnull.
    + unfold sendPredefinedCommand. rewrite bind_get, Hnull. reflexivity.
    + rewrite (sendPredefinedCommand_eq cfg commandConfig st Hnull). cbn [orb].
      unfold bind at 1.
      pose proof (never_throws_unit _ st
                    (never_throws_publishMessage (field commandConfig "topic")
                       (stringMsg (messageTypes cfg)) (field commandConfig "message")))
        as Hpublish.
      destruct (publishMessage (field commandConfig "topic") (stringMsg (messageTypes cfg))
                  (field commandConfig "message") st) as [[[]|e] st1];
        [|discriminate].
      rewrite bind_ToString.
      destruct (converts (field commandConfig "topic")); reflexivity.
Qed.

End Exceptions.

(* ------------------------------------------------------------------ *)
(** ** The shapes of the displayed fields *)

Section Shapes.
Context `{P : Platform}.

Lemma shaped_ret {A} (a : A) : shaped (ret a).
Proof. intros st H; exact H. Qed.

Lemma shaped_bind {A B} (c : M A) (k : A -> M B) :
  shaped c -> (forall a, shaped (k a)) -> shaped (bind c k).
Proof.
  intros Hc Hk st Hst. unfold bind.
  specialize (Hc st Hst).
  destruct (c st) as [[a|e] st1]; cbn [snd] in *.
  - now apply Hk.
  - exact Hc.
Qed.

(** The continuation may rely on the value the read produced. *)
Lemma shaped_bind_lift {A B} (c : Completion A) (k : A -> M B) :
  (forall a, c = Normal a -> shaped (k a)) -> shaped (bind (lift c) k).
Proof.
  intros Hk st Hst. unfold bind, lift.
  destruct c as [a|e]; cbn [snd].
  - now apply (Hk a).
  - exact Hst.
Qed.

Lemma shaped_try_catch {A} (body : M A) (handler : Exn -> M A) :
  shaped body -> (forall e, shaped (handler e)) -> shaped (try_catch body handler).
Proof.
  intros Hb Hh st Hst. unfold try_catch.
  specialize (Hb st Hst).
  destruct (body st) as [[a|e] st1]; cbn [snd] in *.
  - exact Hb.
  - now apply Hh.
Qed.

(** A write outside the four displayed fields. *)
Lemma shaped_elsewhere {A} (c : M A) :
  (forall st, lastError (snd (c st)) = lastError st
              /\ batteryPercentage (snd (c st)) = batteryPercentage st
              /\ robotStatusText (snd (c st)) = robotStatusText st
              /\ odometry (snd (c st)) = odometry st) ->
  shaped c.
Proof.
  intros Hc st (He & Hb & Hs & Ho).
  unfold display_shape.
  destruct (Hc st) as (-> & -> & -> & ->).
  repeat split; assumption.
Qed.

Lemma shaped_setLastError (v : JsVal) : error_shape v = true -> shaped (setLastError v).
Proof. intros Hv st (He & Hb & Hs & Ho). repeat split; assumption. Qed.

Lemma shaped_setBatteryPercentage (v : JsVal) :
  battery_shape v = true -> shaped (setBatteryPercentage v).
Proof. intros Hv st (He & Hb & Hs & Ho). repeat split; assumption. Qed.

Lemma shaped_setOdometry (v : JsVal) : pose_shape v = true -> shaped (setOdometry v).
Proof. intros Hv st (He & Hb & Hs & Ho). repeat split; assumption. Qed.

Lemma shaped_setRobotStatusText (v : JsVal) :
  ToBoolean v = true -> shaped (setRobotStatusText v).
Proof. intros Hv st (He & Hb & Hs & Ho). repeat split; assumption. Qed.

Lemma call_toFixed_string (v : JsVal) (fd : nat) (a : JsVal) :
  call_toFixed v fd = Normal a -> exists s, a = JStr s.
Proof.
  destruct v; cbn [call_toFixed]; intros H; try discriminate.
  injection H as <-. eexists; reflexivity.
Qed.

Lemma js_or_truthy (a : JsVal) : ToBoolean (js_or a (JStr "N/A")) = true.
Proof. unfold js_or. destruct (ToBoolean a) eqn:Ha; [exact Ha | reflexivity]. Qed.

Lemma shaped_generateUniqueID : shaped generateUniqueID.
Proof. apply shaped_elsewhere. intros st. repeat split. Qed.

Lemma shaped_ws_current_send (data : Text) : shaped (ws_current_send data).
Proof.
  apply shaped_elsewhere. intros st. unfold ws_current_send.
  destruct (ws_current st) as [r|]; [|repeat split].
  destruct (nth_error (sockets st) r) as [s|]; [|repeat split].
  destruct (readyState s); repeat split.
Qed.

Lemma shaped_ws_current_close : shaped ws_current_close.
Proof.
  apply shaped_elsewhere. intros st. unfold ws_current_close.
  destruct (ws_current st); repeat split.
Qed.

Lemma shaped_new_WebSocket (u : string) : shaped (new_WebSocket u).
Proof.
  apply shaped_elsewhere. intros st. unfold new_WebSocket.
  destruct (WebSocket_ctor_error u); repeat split.
Qed.

Lemma shaped_state_function {A} (f : App -> A) (g : App -> App) :
  (forall st, lastError (g st) = lastError st
              /\ batteryPercentage (g st) = batteryPercentage st
              /\ robotStatusText (g st) = robotStatusText st
              /\ odometry (g st) = odometry st) ->
  shaped (fun st => (Normal (f st), g st)).
Proof. intros Hg. apply shaped_elsewhere. exact Hg. Qed.

Lemma shaped_connectToRosbridge : shaped connectToRosbridge.
Proof.
  intros st (He & Hb & Hs & Ho).
  unfold connectToRosbridge, bind, gets, try_catch, new_WebSocket.
  destruct (ws_open st); cbn [snd setConnectionStatus setLastError modify fst].
  - repeat split; assumption.
  - cbn [rosbridgeUrl with_lastError with_connectionStatus].
    destruct (WebSocket_ctor_error (rosbridgeUrl st));
      repeat split; first [assumption | reflexivity].
Qed.

Ltac shaped_tac :=
  repeat first
    [ apply shaped_ret
    | apply shaped_connectToRosbridge
    | apply shaped_generateUniqueID
    | apply shaped_ws_current_send
    | apply shaped_ws_current_close
    | apply shaped_new_WebSocket
    | apply shaped_setLastError; reflexivity
    | apply shaped_setBatteryPercentage;
      first [ reflexivity
            | match goal with
              | |- battery_shape (if ?b then _ else _) = true => destruct b; reflexivity
              end ]
    | apply shaped_setOdometry; reflexivity
    | apply shaped_setRobotStatusText; first [reflexivity | apply js_or_truthy]
    | apply shaped_try_catch; [|intros ?]
    | apply shaped_bind_lift; intros ? ?
    | apply shaped_bind; [|intros ?]
    | match goal with
      | |- shaped (if ?b then _ else _) => destruct b
      end
    | solve [apply shaped_elsewhere; intros; repeat split; reflexivity] ].

Lemma shaped_onmessage (cfg : RosConfig) (data : Text) : shaped (onmessage cfg data).
Proof.
  unfold onmessage, dispatch.
  shaped_tac.
  repeat match goal with
         | H : call_toFixed _ _ = Normal _ |- _ =>
             apply call_toFixed_string in H; destruct H as [? ->]
         end.
  apply shaped_setOdometry. reflexivity.
Qed.

Lemma shaped_call (cfg : RosConfig) (c : Call) : shaped (call cfg c).
Proof.
  destruct c as [[| |l a| |[r|r data|r error|r event]]| | | | | |]; cbn [call act fire];
    try apply shaped_onmessage;
    unfold disconnectFromRosbridge, sendTwistCommand,
      handleEmergencyStop, sendPredefinedCommand, onopen, onerror, onclose,
      subscribeToTopics, subscribeToTopic, unsubscribeFromTopic, publishMessage,
      unmount_cleanup, setRosbridgeUrl, setIsConnected, setConnectionStatus,
      Alert_alert, gets, modify;
    shaped_tac.
Qed.

(** (X11) Whatever is called, in whatever order, the displayed fields
    keep their shapes: the last error is [null] or a non-empty string,
    the battery field is [null] or a string, each coordinate of the pose
    is the number [0] or a string, and the status text is truthy. The
    status text is the one field that can hold a value that is not a
    string: a truthy [msg.data] of any type is stored as it is. *)
Theorem displayed_fields_keep_their_shape (cfg : RosConfig) (calls : list Call) :
  display_shape (run_calls cfg calls initial_App)
  /\ (forall st : App, display_shape st -> display_shape (run_calls cfg calls st)).
Proof.
  assert (Hkeep : forall st, display_shape st -> display_shape (run_calls cfg calls st)).
  { induction calls as [|c rest IH]; intros st Hst; cbn [run_calls]; [exact Hst|].
    apply IH. now apply shaped_call. }
  split; [|exact Hkeep].
  apply Hkeep. repeat split.
Qed.

End Shapes.

(* ------------------------------------------------------------------ *)
(** ** The battery cell *)

Section BatteryCell.
Context `{P : Platform}.
Variable cfg : RosConfig.

(** (X12) What the battery cell shows. The cell is part of the status
    grid, which is rendered only while the session is marked connected:
    at start and after every disconnect there is no cell, and a battery
    frame that arrives while the session is marked disconnected is
    stored but not shown. While the session is marked connected the
    cell shows ['N/A'] as long as the field is [null]; after a battery
    frame with a number, the percentage rounded to one decimal followed
    by ['%'] ([0.1234] gives ['12.3%']); and ['N/A%'] after a battery
    frame without a percentage, because that frame stores the string
    ['N/A'] and the cell appends ['%'] to every string. *)
Theorem battery_cell_text (st : App) (message topic msg : JsVal) :
  get message "op" = Normal (JStr "publish") ->
  get message "topic" = Normal topic ->
  strict_eq topic (batteryStatus (topics cfg)) = true ->
  get message "msg" = Normal msg ->
  let st' := snd (onmessage cfg (Json message) st) in
  battery_cell initial_App = None
  /\ battery_cell (snd (disconnectFromRosbridge st)) = None
  /\ (isConnected st = false -> battery_cell st' = None)
  /\ (isConnected st = true -> batteryPercentage st = JNull ->
      battery_cell st = Some (Normal "N/A"))
  /\ (forall (p : float) (negative : bool) (m : positive) (e : Z),
      isConnected st = true ->
      get msg "percentage" = Normal (JNum p) ->
      Prim2SF (p * 100) = S754_finite negative m e ->
      PrimFloat.leb ten21 (PrimFloat.abs (p * 100)) = false ->
      exists s : string,
        battery_cell st' = Some (Normal (s ++ "%")) /\ rounded_to 1 (p * 100) s)
  /\ (isConnected st = true ->
      get msg "percentage" = Normal (JNum 0.1234) ->
      battery_cell st' = Some (Normal "12.3%"))
  /\ (isConnected st = true ->
      get msg "percentage" = Normal JUndefined ->
      battery_cell st' = Some (Normal "N/A%")).
Proof.
  intros Hop Htopic Hbat Hmsg st'.
  assert (Hflag : isConnected st' = isConnected st).
  { pose proof (onmessage_keeps_connection cfg (Json message) st) as Hk.
    unfold connection_part in Hk. injection Hk as _ Hk _ _ _ _ _. exact Hk. }
  assert (Hnumber : forall p : float,
             isConnected st = true ->
             get msg "percentage" = Normal (JNum p) ->
             battery_cell st' = Some (Normal (toFixed (p * 100)%float 1 ++ "%"))).
  { intros p Hconnected Hp. unfold battery_cell. rewrite Hflag, Hconnected.
    unfold st'.
    rewrite (battery_frame_dispatched cfg st message topic msg _ Hop Htopic Hbat Hmsg Hp).
    reflexivity. }
  split; [reflexivity|].
  split.
  { unfold disconnectFromRosbridge, ws_current_close, bind.
    destruct (ws_current st); reflexivity. }
  split.
  { intros Hdisconnected. unfold battery_cell. rewrite Hflag, Hdisconnected. reflexivity. }
  split.
  { intros Hconnected Hnull. unfold battery_cell. rewrite Hconnected, Hnull. reflexivity. }
  split.
  { intros p negative m e Hconnected Hp Hfinite Hsmall.
    exists (toFixed (p * 100)%float 1). split; [now apply Hnumber|].
    apply (toFixed_rounded _ 1 negative m e Hfinite Hsmall). discriminate. }
  split.
  { intros Hconnected Hp. rewrite (Hnumber _ Hconnected Hp). reflexivity. }
  intros Hconnected Hp. unfold battery_cell. rewrite Hflag, Hconnected.
  unfold st'.
  rewrite (battery_frame_dispatched cfg st message topic msg _ Hop Htopic Hbat Hmsg Hp).
  reflexivity.
Qed.

End BatteryCell.

(* ------------------------------------------------------------------ *)
(** ** Where frames go *)

Section Held.
Context `{P : Platform}.

Lemma ws_open_ext (a b : App) :
  ws_current a = ws_current b ->
  (forall r, option_map readyState (nth_error (sockets a) r) =
             option_map readyState (nth_error (sockets b) r)) ->
  ws_open a = ws_open b.
Proof.
  intros Hc Hr. unfold ws_open. rewrite Hc.
  destruct (ws_current b) as [r|]; [|reflexivity].
  specialize (Hr r).
  destruct (nth_error (sockets a) r), (nth_error (sockets b) r);
    cbn [option_map] in Hr; try discriminate; [|reflexivity].
  injection Hr as ->. reflexivity.
Qed.

Lemma sends_on_held_quiet {A} (c : M A) :
  (forall st, ws_current (snd (c st)) = ws_current st /\ sockets (snd (c st)) = sockets st) ->
  sends_on_held c.
Proof.
  intros Hc st. destruct (Hc st) as [Hcur Hs].
  split; [exact Hcur|]. split.
  - intros r. now rewrite Hs.
  - intros r. left. unfold sent_on. now rewrite Hs.
Qed.

Lemma sends_on_held_bind {A B} (c : M A) (k : A -> M B) :
  sends_on_held c -> (forall a, sends_on_held (k a)) -> sends_on_held (bind c k).
Proof.
  intros Hc Hk st. unfold bind.
  destruct (Hc st) as (Hcur & Hrs & Hsent).
  destruct (c st) as [[a|e] st1]; cbn [snd] in *.
  - destruct (Hk a st1) as (Hcur' & Hrs' & Hsent').
    split; [congruence|]. split.
    + intros r. now rewrite Hrs', Hrs.
    + intros r.
      destruct (Hsent r) as [Hsame|Hheld]; [|now right].
      destruct (Hsent' r) as [Hsame'|[Hheld' Hopen']].
      * left. congruence.
      * right. split; [congruence|].
        rewrite <- Hopen'. symmetry. now apply ws_open_ext.
  - repeat split; assumption.
Qed.

Lemma sends_on_held_guarded_send (mk : JsVal -> Text) (otherwise : M unit) :
  sends_on_held otherwise ->
  sends_on_held (open <- gets ws_open ;;
                 if open then (id <- generateUniqueID ;; ws_current_send (mk id))
                 else otherwise).
Proof.
  intros Helse st.
  pose proof (Helse st) as Hquiet.
  destruct (ws_open st) eqn:Hopen.
  - rewrite (bind_normal (gets ws_open) _ st st true) by (unfold gets; now rewrite Hopen).
    destruct (proj1 (ws_open_spec st) Hopen) as (r & s & Hcur & Hs & Hrs).
    rewrite (send_fresh_open mk st r Hcur Hopen). cbn [snd].
    split; [reflexivity|]. split.
    + intros r'. unfold pushed; cbn [sockets with_sockets with_ids_generated].
      destruct (Nat.eq_dec r r') as [<-|Hne].
      * rewrite nth_error_update_socket.
        destruct (nth_error (sockets st) r); reflexivity.
      * now rewrite nth_error_update_socket_other.
    + intros r'. destruct (Nat.eq_dec r r') as [<-|Hne].
      * right. split; auto.
      * left. unfold sent_on, pushed; cbn [sockets with_sockets with_ids_generated].
        now rewrite nth_error_update_socket_other.
  - rewrite (bind_normal (gets ws_open) _ st st false) by (unfold gets; now rewrite Hopen).
    exact Hquiet.
Qed.

(** The same followed by a computation that writes nothing. *)
Lemma sends_on_held_guarded_send_then (mk : JsVal -> Text) (after otherwise : M unit) :
  (forall st, snd (after st) = st) ->
  sends_on_held otherwise ->
  sends_on_held (open <- gets ws_open ;;
                 if open then (id <- generateUniqueID ;; ws_current_send (mk id) ;;; after)
                 else otherwise).
Proof.
  intros Hafter Helse st.
  pose proof (sends_on_held_guarded_send mk otherwise Helse st) as Hplain.
  destruct (ws_open st) eqn:Hopen.
  - rewrite (bind_normal (gets ws_open) _ st st true) in Hplain
      by (unfold gets; now rewrite Hopen).
    rewrite (bind_normal (gets ws_open) _ st st true)
      by (unfold gets; now rewrite Hopen).
    destruct (proj1 (ws_open_spec st) Hopen) as (r & s & Hcur & Hs & Hrs).
    rewrite (send_fresh_open mk st r Hcur Hopen) in Hplain.
    rewrite (send_fresh_open_then mk after st r Hcur Hopen).
    rewrite Hafter. exact Hplain.
  - rewrite (bind_normal (gets ws_open) _ st st false) in Hplain
      by (unfold gets; now rewrite Hopen).
    rewrite (bind_normal (gets ws_open) _ st st false)
      by (unfold gets; now rewrite Hopen).
    exact Hplain.
Qed.

Lemma sends_on_held_subscribeToTopic (topicName messageType throttleRate : JsVal) :
  sends_on_held (subscribeToTopic topicName messageType throttleRate).
Proof.
  unfold subscribeToTopic.
  apply (sends_on_held_guarded_send_then
           (fun id => JSON_stringify
                        (subscribeMsg id topicName messageType
                                      (default_arg throttleRate (JNum 200))))).
  - intros st. rewrite (log_template topicName (fun t => "Subscribed to " ++ t)).
    reflexivity.
  - apply sends_on_held_quiet. intros st; split; reflexivity.
Qed.

Lemma sends_on_held_unsubscribeFromTopic (topicName : JsVal) :
  sends_on_held (unsubscribeFromTopic topicName).
Proof.
  unfold unsubscribeFromTopic.
  apply (sends_on_held_guarded_send_then
           (fun id => JSON_stringify (unsubscribeMsg id topicName))).
  - intros st. rewrite (log_template topicName (fun t => "Unsubscribed from " ++ t)).
    reflexivity.
  - apply sends_on_held_quiet. intros st; split; reflexivity.
Qed.

Lemma sends_on_held_publishMessage (topicName messageType payload : JsVal) :
  sends_on_held (publishMessage topicName messageType payload).
Proof.
  unfold publishMessage.
  apply (sends_on_held_guarded_send
           (fun id => JSON_stringify (publishMsg id topicName payload messageType))).
  apply sends_on_held_quiet. intros st; split; reflexivity.
Qed.

Ltac held_tac :=
  repeat lazymatch goal with
    | |- sends_on_held (subscribeToTopic _ _ _) => apply sends_on_held_subscribeToTopic
    | |- sends_on_held (unsubscribeFromTopic _) => apply sends_on_held_unsubscribeFromTopic
    | |- sends_on_held (publishMessage _ _ _) => apply sends_on_held_publishMessage
    | |- sends_on_held (sendTwistCommand _ _ _) => apply sends_on_held_publishMessage
    | |- sends_on_held (bind _ _) => apply sends_on_held_bind; [|intros ?]
    | |- sends_on_held (fun st => _) =>
        apply sends_on_held_quiet; intros; split; reflexivity
    | |- sends_on_held (lift _) =>
        apply sends_on_held_quiet; intros; split; reflexivity
    end.

Lemma sends_on_held_onopen (cfg : RosConfig) : sends_on_held (onopen cfg).
Proof.
  unfold onopen, subscribeToTopics, setIsConnected, setConnectionStatus, modify.
  held_tac.
Qed.

Lemma sent_on_update_socket (r r0 : nat) (f : WebSocket -> WebSocket) (st st' : App) :
  (forall s, sent (f s) = sent s) ->
  sockets st' = update_socket r0 f (sockets st) ->
  sent_on r st' = sent_on r st.
Proof.
  intros Hsent Hs. unfold sent_on. rewrite Hs.
  destruct (Nat.eq_dec r0 r) as [<-|Hne].
  - rewrite nth_error_update_socket.
    destruct (nth_error (sockets st) r0); cbn [option_map]; [apply Hsent | reflexivity].
  - now rewrite nth_error_update_socket_other.
Qed.

Lemma sent_on_new_socket (r : nat) (u : string) (st st' : App) :
  sockets st' = (sockets st ++ [{| url := u; readyState := CONNECTING; sent := [] |}])%list ->
  sent_on r st' = sent_on r st.
Proof.
  intros Hs. unfold sent_on. rewrite Hs.
  destruct (Nat.lt_ge_cases r (List.length (sockets st))) as [Hlt|Hge].
  - now rewrite nth_error_app1.
  - rewrite nth_error_app2 by assumption.
    rewrite (proj2 (nth_error_None (sockets st) r) Hge).
    destruct (r - List.length (sockets st)) as [|[|k]]; reflexivity.
Qed.

Lemma socket_close_sent (s : WebSocket) : sent (socket_close s) = sent s.
Proof. destruct s as [u [] snt]; reflexivity. Qed.

(** (X13) Where a call can send: after any single call, a socket has
    the frames it had before, unless it is the socket that was held
    when the call began and the connection is open when the call ends.
    A socket that has been superseded never receives another frame, and
    nothing is ever handed to a socket that is connecting, closing or
    closed. *)
Theorem frames_go_to_the_held_open_socket (cfg : RosConfig) (c : Call) (st : App) (r : nat) :
  sent_on r (snd (call cfg c st)) = sent_on r st
  \/ (ws_current st = Some r /\ ws_open (snd (call cfg c st)) = true).
Proof.
  assert (Hheld : forall m : M unit,
             sends_on_held m ->
             forall st0, sent_on r (snd (m st0)) = sent_on r st0
                         \/ (ws_current st0 = Some r /\ ws_open (snd (m st0)) = true)).
  { intros m Hm st0. destruct (Hm st0) as (Hcur & Hrs & Hsent).
    destruct (Hsent r) as [Hsame|[Hc Ho]]; [now left|].
    right. split; [exact Hc|]. rewrite <- Ho. now apply ws_open_ext. }
  destruct c as [[| |l a| |[r0|r0 data|r0 error|r0 event]]| | | | | |]; cbn [call act].
  - (* connect *)
    left. unfold connectToRosbridge, bind, gets, try_catch, new_WebSocket.
    destruct (ws_open st); cbn [snd setConnectionStatus setLastError modify fst];
      [reflexivity|].
    cbn [rosbridgeUrl with_lastError with_connectionStatus].
    destruct (WebSocket_ctor_error (rosbridgeUrl st)); [reflexivity|].
    now apply (sent_on_new_socket r (rosbridgeUrl st) st).
  - (* disconnect *)
    left. unfold disconnectFromRosbridge, ws_current_close, bind.
    destruct (ws_current st) as [c|]; [|reflexivity].
    now apply (sent_on_update_socket r c socket_close st _ socket_close_sent).
  - apply Hheld. unfold sendTwistCommand. held_tac.
  - apply Hheld. unfold handleEmergencyStop, sendTwistCommand, Alert_alert. held_tac.
  - (* open event *)
    rewrite fire_open.
    assert (Hmove : sent_on r (opened r0 st) = sent_on r st).
    { now apply (sent_on_update_socket r r0 (socket_with_readyState OPEN) st). }
    destruct (Hheld (subscribeToTopics cfg)
                    ltac:(unfold subscribeToTopics; held_tac) (opened r0 st))
      as [Hsame|[Hc Ho]].
    + left. now rewrite Hsame.
    + right. split; assumption.
  - (* message *)
    cbn [fire]. left. unfold sent_on.
    pose proof (onmessage_keeps_connection cfg data st) as Hk.
    unfold connection_part in Hk. injection Hk as _ _ _ _ Hs _ _.
    now rewrite Hs.
  - (* error event *)
    cbn [fire]. left. rewrite onerror_eq.
    destruct (unreadable error "message"); reflexivity.
  - (* close event *)
    left. rewrite fire_close_eq.
    destruct (unreadable event "code");
      now apply (sent_on_update_socket r r0 (socket_with_readyState CLOSED) st).
  - apply Hheld. held_tac.
  - apply Hheld. held_tac.
  - apply Hheld. held_tac.
  - apply Hheld. unfold sendPredefinedCommand, Alert_alert. held_tac.
  - left. reflexivity.
  - left. unfold unmount_cleanup, ws_current_close.
    destruct (ws_current st) as [c|]; [|reflexivity].
    now apply (sent_on_update_socket r c socket_close st _ socket_close_sent).
Qed.

End Held.

(* ------------------------------------------------------------------ *)
(** ** Reconnecting before the old socket has closed *)

Section Reconnect.
Context `{P : Platform}.
Variable cfg : RosConfig.

Lemma length_update_socket (r : nat) (f : WebSocket -> WebSocket) (store : list WebSocket) :
  List.length (update_socket r f store) = List.length store.
Proof.
  revert r; induction store as [|s rest IH]; intros [|r]; cbn [update_socket List.length];
    auto.
Qed.

Lemma disconnectFromRosbridge_eq (st : App) :
  disconnectFromRosbridge st =
  (Normal tt,
   with_robotStatusText (JStr "N/A")
     (with_odometry zero_pose
        (with_batteryPercentage JNull
           (with_connectionStatus "Disconnected"
              (with_isConnected false
                 (with_sockets (closed_store st) st)))))).
Proof.
  unfold disconnectFromRosbridge, ws_current_close, closed_store, bind.
  destruct (ws_current st); reflexivity.
Qed.

Lemma ws_open_after_disconnect (st : App) :
  ws_open (snd (disconnectFromRosbridge st)) = false.
Proof.
  rewrite disconnectFromRosbridge_eq. unfold ws_open, closed_store; cbn.
  destruct (ws_current st) as [r|]; [|reflexivity].
  rewrite nth_error_update_socket.
  destruct (nth_error (sockets st) r) as [[u [] snt]|]; reflexivity.
Qed.

Lemma connectToRosbridge_attempt (st : App) :
  ws_open st = false ->
  WebSocket_ctor_error (rosbridgeUrl st) = None ->
  connectToRosbridge st =
  (Normal tt,
   with_ws_current (Some (List.length (sockets st)))
     (with_sockets
        (sockets st ++ [{| url := rosbridgeUrl st; readyState := CONNECTING; sent := [] |}])
        (attempting st))).
Proof.
  intros Hclosed Hctor.
  unfold connectToRosbridge, bind, gets, try_catch, new_WebSocket.
  rewrite Hclosed. cbn [ret setConnectionStatus setLastError modify rosbridgeUrl
                         with_lastError with_connectionStatus fst snd].
  rewrite Hctor. reflexivity.
Qed.

(** (X14) Disconnect, then Connect before the close event of the old
    socket has arrived: when that close event arrives (with an event
    object whose [code] the status template can read, as the socket
    supplies) it clears the reference, which by then points to the new
    socket. When the new socket opens, the session shows connected, but
    no subscribe frame is sent on it, the reference stays empty, and
    every publish only records ['Cannot send command: Not connected.']. *)
Theorem reconnect_before_the_close_event (st : App) (r0 : nat) (event : JsVal) :
  unreadable event "code" = false ->
  WebSocket_ctor_error (rosbridgeUrl st) = None ->
  r0 < List.length (sockets st) ->
  let n := List.length (sockets st) in
  let st' := run cfg [Disconnect; Connect; Transport (EvClose r0 event);
                      Transport (EvOpen n)] st in
  isConnected st' = true
  /\ connectionStatus st' = "Connected to ROS Master via rosbridge"
  /\ ws_current st' = None
  /\ nth_error (sockets st') n =
     Some {| url := rosbridgeUrl st; readyState := OPEN; sent := [] |}
  /\ (forall topicName messageType payload : JsVal,
      publishMessage topicName messageType payload st' =
      (Normal tt, with_lastError (JStr "Cannot send command: Not connected.") st')).
Proof.
  intros Hev Hctor Hlt n st'.
  set (st1 := snd (disconnectFromRosbridge st)).
  assert (Hurl : rosbridgeUrl st1 = rosbridgeUrl st).
  { unfold st1. rewrite disconnectFromRosbridge_eq. reflexivity. }
  assert (Hlen : List.length (sockets st1) = n).
  { unfold st1. rewrite disconnectFromRosbridge_eq.
    cbn [snd sockets with_robotStatusText with_odometry with_batteryPercentage
         with_connectionStatus with_isConnected with_sockets].
    unfold closed_store. destruct (ws_current st); [apply length_update_socket | reflexivity]. }
  set (st2 := with_ws_current (Some (List.length (sockets st1)))
                (with_sockets
                   (sockets st1 ++ [{| url := rosbridgeUrl st1; readyState := CONNECTING;
                                       sent := [] |}])
                   (attempting st1))).
  assert (Hrun : st' = opened n (closed_by_event r0 event st2)).
  { unfold st'. cbn [run act]. fold st1.
    rewrite (connectToRosbridge_attempt st1 (ws_open_after_disconnect st)
               ltac:(rewrite Hurl; exact Hctor)).
    cbn [snd]. fold st2.
    rewrite (fire_close_eq cfg r0 event st2), Hev. cbn [snd].
    rewrite fire_open.
    rewrite subscribeToTopics_closed by reflexivity.
    reflexivity. }
  rewrite Hrun.
  split; [reflexivity|].
  split; [reflexivity|].
  split; [reflexivity|].
  split.
  - change (nth_error
              (update_socket n (socket_with_readyState OPEN)
                 (update_socket r0 (socket_with_readyState CLOSED)
                    (sockets st1 ++ [{| url := rosbridgeUrl st1; readyState := CONNECTING;
                                        sent := [] |}]))) n =
            Some {| url := rosbridgeUrl st; readyState := OPEN; sent := [] |}).
    rewrite nth_error_update_socket.
    rewrite nth_error_update_socket_other by (unfold n in *; lia).
    rewrite nth_error_app2 by (rewrite Hlen; apply Nat.le_refl).
    rewrite Hlen, Nat.sub_diag, Hurl. reflexivity.
  - intros topicName messageType payload. reflexivity.
Qed.

End Reconnect.

(* ================================================================== *)
(** * The further properties on the scenarios *)
(* ================================================================== *)


(** A status frame of level ['error'], one of level ['info'], and one
    of level ['error'] whose [msg] is [{"toString":1}]. *)
Lemma bridge_status_frame_recorded_witness :
  @onmessage Sim.platform ROS_CONFIG (Json (bridge_status_message "error")) st_connected =
  (Normal tt,
   with_lastError (JStr "ROS Bridge Error: subscribe: missing topic") st_connected)
  /\ @onmessage Sim.platform ROS_CONFIG (Json (bridge_status_message "info")) st_connected =
     (Normal tt, st_connected)
  /\ @onmessage Sim.platform ROS_CONFIG (Json unconvertible_status_message) st_connected =
     (Normal tt, with_lastError decode_error st_connected).
Proof.
  destruct (@bridge_status_frame_recorded Sim.platform ROS_CONFIG st_connected
              (bridge_status_message "error") (JStr "error") eq_refl eq_refl)
    as (_ & Htext & _ & _).
  destruct (@bridge_status_frame_recorded Sim.platform ROS_CONFIG st_connected
              (bridge_status_message "info") (JStr "info") eq_refl eq_refl)
    as (_ & _ & _ & Hother).
  destruct (@bridge_status_frame_recorded Sim.platform ROS_CONFIG st_connected
              unconvertible_status_message (JStr "error") eq_refl eq_refl)
    as (_ & _ & Hbad & _).
  split; [|split].
  - apply (Htext "subscribe: missing topic"); reflexivity.
  - apply Hother; reflexivity.
  - apply Hbad; reflexivity.
Defined.

(** A frame of an unknown operation, the JSON number 5, and an ['/odom']
    frame with a full pose. *)
Lemma ignored_frames_witness :
  @onmessage Sim.platform ROS_CONFIG (Json service_response_message) st_connected =
  (Normal tt, st_connected)
  /\ @onmessage Sim.platform ROS_CONFIG (Json (JNum 5)) st_connected =
     (Normal tt, st_connected)
  /\ @onmessage Sim.platform ROS_CONFIG
       (Json (odom_message pose_without_orientation)) st_connected =
     (Normal tt, st_connected).
Proof.
  destruct (@ignored_frames Sim.platform ROS_CONFIG st_connected)
    as (Hop & _ & Hodom & _).
  split; [|split].
  - apply (Hop service_response_message (JStr "service_response")); reflexivity.
  - apply (Hop (JNum 5) JUndefined); reflexivity.
  - apply Hodom; reflexivity.
Defined.

(** An abnormal closure of the socket of the connected component. *)
Lemma close_event_applied_witness :
  connectionStatus
    (snd (@fire Sim.platform ROS_CONFIG (EvClose 0 abnormal_closure) st_connected)) =
  "Disconnected (1006)"
  /\ ws_current
       (snd (@fire Sim.platform ROS_CONFIG (EvClose 0 abnormal_closure) st_connected)) = None.
Proof.
  destruct (@close_event_applied Sim.platform ROS_CONFIG st_connected 0 abnormal_closure
              eq_refl) as (Happlied & _).
  destruct (Happlied eq_refl) as (Hrun & _).
  rewrite Hrun. split; reflexivity.
Defined.


(** Subscribing to and unsubscribing from the odometry topic on the
    connected component. *)
Lemma subscriptions_on_open_connection_witness :
  @unsubscribeFromTopic Sim.platform (JStr "/odom") st_connected =
  (Normal tt,
   pushed 0 (Json (JObj [("op", JStr "unsubscribe"); ("id", JStr "op_1700000000003_08uxr");
                         ("topic", JStr "/odom")])) st_connected).
Proof.
  destruct (@subscriptions_on_open_connection Sim.platform st_connected 0
              "/odom" "nav_msgs/Odometry" eq_refl eq_refl) as (_ & _ & _ & Hunsub).
  exact Hunsub.
Defined.

(** The six frames of the busy session carry six different ids. *)
Lemma every_frame_has_its_own_id_witness :
  List.length (all_frame_ids (@run_calls Sim.platform ROS_CONFIG busy_session initial_App)) = 6
  /\ NoDup (all_frame_ids (@run_calls Sim.platform ROS_CONFIG busy_session initial_App)).
Proof.
  destruct (@every_frame_has_its_own_id Sim.platform ROS_CONFIG busy_session)
    as (_ & _ & Hlen & Hnodup).
  split.
  - rewrite Hlen. reflexivity.
  - apply Hnodup.
    vm_compute.
    repeat (apply NoDup_cons; [cbn; intuition discriminate|]).
    apply NoDup_nil.
Defined.

(** On the connected component, subscribing to a topic name that is
    [{"toString":1}] throws, and the dock command does not. *)
Lemma escaping_exceptions_witness :
  fst (@call Sim.platform ROS_CONFIG
         (CSubscribe unconvertible (JStr "std_msgs/String") JUndefined) st_connected) =
  Throw TypeError
  /\ fst (@call Sim.platform ROS_CONFIG (CPredefinedCommand dock_command) st_connected) =
     Normal tt.
Proof.
  split.
  - exact (@escaping_exceptions Sim.platform ROS_CONFIG
             (CSubscribe unconvertible (JStr "std_msgs/String") JUndefined) st_connected
             eq_refl).
  - exact (@escaping_exceptions Sim.platform ROS_CONFIG
             (CPredefinedCommand dock_command) st_connected eq_refl).
Defined.

(** The busy session, started from the connected component. *)
Lemma displayed_fields_keep_their_shape_witness :
  display_shape (@run_calls Sim.platform ROS_CONFIG busy_session st_connected).
Proof.
  apply (proj2 (@displayed_fields_keep_their_shape Sim.platform ROS_CONFIG busy_session)).
  repeat split.
Defined.

(** The battery cell of the connected component before and after the
    frame with [percentage = 0.755], and of a fresh component after that
    frame. *)
Lemma battery_cell_text_witness :
  @battery_cell Sim.platform st_connected = Some (Normal "N/A")
  /\ (exists s : string,
        @battery_cell Sim.platform
          (snd (@onmessage Sim.platform ROS_CONFIG (Json battery_message) st_connected)) =
        Some (Normal (s ++ "%"))
        /\ rounded_to 1 (0.755 * 100) s)
  /\ @battery_cell Sim.platform
       (snd (@onmessage Sim.platform ROS_CONFIG (Json battery_message) initial_App)) = None.
Proof.
  destruct (@battery_cell_text Sim.platform ROS_CONFIG st_connected battery_message
              (JStr "/battery_status") (JObj [("percentage", JNum 0.755)])
              eq_refl eq_refl eq_refl eq_refl) as (_ & _ & _ & Hnull & Hnumber & _).
  destruct (@battery_cell_text Sim.platform ROS_CONFIG initial_App battery_message
              (JStr "/battery_status") (JObj [("percentage", JNum 0.755)])
              eq_refl eq_refl eq_refl eq_refl) as (_ & _ & Hhidden & _).
  split; [|split].
  - apply Hnull; reflexivity.
  - apply (Hnumber 0.755%float false 5312840185413632%positive (-46)%Z);
      reflexivity.
  - apply Hhidden; reflexivity.
Defined.

(** Disconnect and Connect on the connected component, then the close
    event of socket 0 and the open event of socket 1. *)
Lemma reconnect_before_the_close_event_witness :
  isConnected
    (@run Sim.platform ROS_CONFIG
       [Disconnect; Connect; Transport (EvClose 0 abnormal_closure); Transport (EvOpen 1)]
       st_connected) = true
  /\ sent_on 1
       (@run Sim.platform ROS_CONFIG
          [Disconnect; Connect; Transport (EvClose 0 abnormal_closure); Transport (EvOpen 1)]
          st_connected) = [].
Proof.
  destruct (@reconnect_before_the_close_event Sim.platform ROS_CONFIG st_connected 0
              abnormal_closure eq_refl eq_refl (Nat.lt_succ_diag_r 0))
    as (Hconnected & _ & _ & Hsocket & _).
  split; [exact Hconnected|].
  unfold sent_on.
  change (List.length (sockets st_connected)) with 1 in Hsocket.
  cbv zeta in Hsocket.
  rewrite Hsocket. reflexivity.
Defined.
